(** * News aggregator front end: request, cache and retry layer

    A shallow embedding of the two files that hold the logic of the
    client:

    - [services/newsService.js] (class [NewsService]): the response cache
      with its 15 minute time-to-live, the table of in-flight requests used
      to collapse duplicate calls, the derivation of cache keys and of the
      query parameters sent to the backend;
    - [hooks/useOptimizedNews.js] (hook [useOptimizedNews]): the error
      classifier, the retry back-off and the rule deciding which response
      may update the state shown to the user.

    Around them: the request itself with its error messages, the mock
    data and the statistics of the service; the hook wired to the
    service, with its fetching effect; [hooks/useDebounce.js];
    the duplicate filter, the bookmarks and the retry line of
    [pages/Home.jsx]; and the form rules of [utils/validation.js].

    Conventions of the embedding.

    - A JavaScript string is a [string]: a sequence of code units below 256
      (the Latin-1 range), on which [toLowerCase], [trim] and [includes]
      are defined exactly as ECMAScript defines them for those code units.
    - A value that may be missing is a [JsVal]: [undefined], [null] or a
      string; the difference between the first two matters, since a
      destructuring default only replaces [undefined].
    - [Date.now()] is an explicit argument [now : Z] (milliseconds); where
      one run of the hook reads the clock in several calls of the service,
      each reading is an argument of its own.
    - A promise is named by a number. An [async] function is split at its
      [await]: one function for the part that runs at the call, one for
      the part that runs when the awaited promise settles. The service is
      driven by a list of events ([NewsService.Event]), one per step of
      the event loop; the continuation of the call that started a request
      runs in the same step as the settlement, since it is the first
      reaction registered on that promise.
    - The two [Map]s of the service are [gmap]s keyed by cache key.
    - A React hook is a state machine over the values it keeps between
      renders. An effect runs after a render in which one of its
      dependencies has changed; a pending [setTimeout] callback is part
      of the state, with the values its closure captured. *)

From Stdlib Require Import ZArith String Ascii List Bool Lia.
From stdpp Require Import base option gmap strings list pretty.

Local Open Scope string_scope.

(** ** JavaScript strings *)

Module JsString.

(** Code unit of a character. *)
Definition code (c : ascii) : N := N_of_ascii c.

(** [String.prototype.toLowerCase] on one Latin-1 code unit: [A]-[Z] and
    the accented capitals U+00C0..U+00DE (the multiplication sign U+00D7
    apart) move up by 32, every other code unit is its own lower case. *)
Definition lowerChar (c : ascii) : ascii :=
  let n := code c in
  if ((65 <=? n) && (n <=? 90) ||
      (192 <=? n) && (n <=? 222) && negb (n =? 215))%N
  then ascii_of_N (n + 32) else c.

Fixpoint toLowerCase (s : string) : string :=
  match s with
  | EmptyString => EmptyString
  | String c r => String (lowerChar c) (toLowerCase r)
  end.

(** ECMAScript [WhiteSpace] and [LineTerminator] code units below 256:
    TAB, LF, VT, FF, CR, SP and NBSP. *)
Definition isWhiteSpace (c : ascii) : bool :=
  let n := code c in
  ((9 <=? n) && (n <=? 13) || (n =? 32) || (n =? 160))%N.

Fixpoint trimStart (s : string) : string :=
  match s with
  | EmptyString => EmptyString
  | String c r => if isWhiteSpace c then trimStart r else s
  end.

Definition isEmpty (s : string) : bool :=
  match s with EmptyString => true | String _ _ => false end.

Fixpoint trimEnd (s : string) : string :=
  match s with
  | EmptyString => EmptyString
  | String c r =>
      let r' := trimEnd r in
      if isWhiteSpace c && isEmpty r' then EmptyString else String c r'
  end.

(** [String.prototype.trim]. *)
Definition trim (s : string) : string := trimEnd (trimStart s).

(** [hay.startsWith(needle)]. *)
Fixpoint startsWith (needle hay : string) : bool :=
  match needle, hay with
  | EmptyString, _ => true
  | String _ _, EmptyString => false
  | String a n', String b h' => Ascii.eqb a b && startsWith n' h'
  end.

(** [hay.includes(needle)]: [needle] occurs at some position of [hay]. *)
Fixpoint includes (needle hay : string) : bool :=
  startsWith needle hay ||
  match hay with
  | EmptyString => false
  | String _ h' => includes needle h'
  end.

(** The propositional reading of [includes]: [hay] is [needle] with
    something before and something after. *)
Definition Occurs (needle hay : string) : Prop :=
  exists pre suf, hay = String.append pre (String.append needle suf).

(** JavaScript truthiness of a string: only the empty string is falsy. *)
Definition truthy (s : string) : bool := negb (isEmpty s).

End JsString.

(** ** Values shared by the service and the hook *)

(** A property or argument that may be missing. *)
Inductive JsVal : Type :=
  | JsUndefined
  | JsNull
  | JsStr (s : string).

(** What a [throw] (or a rejected promise) carries. [TypeError] is what
    the engine raises on a property access on [null]; [Error] is what the
    service raises itself with [new Error(message)]. *)
Inductive JsError : Type :=
  | TypeError (message : string)
  | Error (message : string).

Definition message (e : JsError) : string :=
  match e with TypeError m | Error m => m end.

(** Outcome of a call that either returns or throws. *)
Inductive result (A : Type) : Type :=
  | Ok (a : A)
  | Throw (e : JsError).
Arguments Ok {A} a.
Arguments Throw {A} e.

Record Article : Type := mkArticle {
  articleId : string;
  title : string;
  description : string;
  url : string
}.

(** The payload of a response. [articles] may be missing (the hook reads
    [data?.articles || []]); [fromCache] is missing on a payload that
    comes from the network and is set by the cache. *)
Record ResponseData : Type := mkResponse {
  articles : option (list Article);
  totalResults : Z;
  page : Z;
  pageSize : Z;
  fromCache : option bool
}.

(** [{ ...data, fromCache: b }]. *)
Definition withFromCache (b : bool) (d : ResponseData) : ResponseData :=
  {| articles := articles d; totalResults := totalResults d;
     page := page d; pageSize := pageSize d; fromCache := Some b |}.

(** How a promise of [_performRequest] settles. *)
Inductive Outcome : Type :=
  | Fulfilled (d : ResponseData)
  | Rejected (e : JsError).

(** A payload of two results, as the backend sends it. *)
Definition samplePayload : ResponseData :=
  {| articles := Some [mkArticle "1" "First" "" "https://example.com/1";
                       mkArticle "2" "Second" "" "https://example.com/2"];
     totalResults := 2; page := 1; pageSize := 20; fromCache := None |}.

(** ** services/newsService.js *)

Module NewsService.
Import JsString.

(** *** Category mapping and request parameters *)

(** Own properties of the object literal [categoryMap], as written. *)
Definition categoryTable : list (string * string) :=
  [("General", "general"); ("Technology", "technology");
   ("Sports", "sports"); ("Entertainment", "entertainment");
   ("Business", "business"); ("Health", "health");
   ("Science", "science")].

Definition categoryMap : gmap string string := list_to_map categoryTable.

(** [categoryMap] is an ordinary object, so a property read that finds no
    own property continues in [Object.prototype]; these are its
    properties. All of them are functions or objects. *)
Definition objectPrototypeKeys : list string :=
  ["constructor"; "hasOwnProperty"; "isPrototypeOf";
   "propertyIsEnumerable"; "toLocaleString"; "toString"; "valueOf";
   "__proto__"; "__defineGetter__"; "__defineSetter__";
   "__lookupGetter__"; "__lookupSetter__"].

(** The value of a property read [categoryMap[category]], and so of a
    query parameter: a string, or a member inherited from
    [Object.prototype] (sent as whatever text the engine prints it as). *)
Inductive Member : Type :=
  | Str (s : string)
  | Inherited (name : string).

(** [categoryMap[category]]; [None] is [undefined]. *)
Definition categoryMap_get (category : string) : option Member :=
  match categoryMap !! category with
  | Some slug => Some (Str slug)
  | None =>
      if bool_decide (category ∈ objectPrototypeKeys)
      then Some (Inherited category) else None
  end.

Definition memberTruthy (m : Member) : bool :=
  match m with Str s => truthy s | Inherited _ => true end.

(** [_mapCategoryToBackend]:
    [categoryMap[category] || category.toLowerCase()]. *)
Definition _mapCategoryToBackend (category : string) : Member :=
  match categoryMap_get category with
  | Some m => if memberTruthy m then m else Str (toLowerCase category)
  | None => Str (toLowerCase category)
  end.

(** The [URLSearchParams] built by [_performRequest], as the list of its
    (name, value) pairs in order of [append]:
    [[
      if (category && category !== 'All') params.append('category', ...)
      if (query && query.trim())          params.append('q', query.trim())
    ]] *)
Definition categoryParams (category : JsVal) : list (string * Member) :=
  match category with
  | JsStr c =>
      if truthy c && negb (String.eqb c "All")
      then [("category", _mapCategoryToBackend c)] else []
  | _ => []
  end.

Definition queryParams (query : JsVal) : list (string * Member) :=
  match query with
  | JsStr q =>
      if truthy q && truthy (trim q) then [("q", Str (trim q))] else []
  | _ => []
  end.

Definition requestParams (category query : JsVal) : list (string * Member) :=
  categoryParams category ++ queryParams query.

(** [params.get(name)]: the first value appended under [name]. *)
Fixpoint getParam (name : string) (ps : list (string * Member)) : option Member :=
  match ps with
  | [] => None
  | (n, v) :: ps' => if String.eqb n name then Some v else getParam name ps'
  end.

(** *** Cache keys *)

(** A parameter default [x = d] in a destructuring pattern: it replaces
    [undefined] and nothing else. *)
Definition orDefault (d : JsVal) (v : JsVal) : JsVal :=
  match v with JsUndefined => d | _ => v end.

(** The error of a property read on [null] or [undefined], with the
    message V8 prints. *)
Definition noProperty (kind name : string) : JsError :=
  TypeError
    ("Cannot read properties of " +:+ kind +:+ " (reading '" +:+ name +:+ "')").

(** A method call on a value: [null] and [undefined] have no
    properties. *)
Definition callMethod (name : string) (f : string -> string) (v : JsVal) : result string :=
  match v with
  | JsStr s => Ok (f s)
  | JsNull => Throw (noProperty "null" name)
  | JsUndefined => Throw (noProperty "undefined" name)
  end.

(** [_generateCacheKey(params)] on [params = { category, query }]:
    [[
      const { category = 'all', query = '' } = params;
      return `${category.toLowerCase()}-${query.toLowerCase().trim()}`;
    ]] *)
Definition _generateCacheKey (category query : JsVal) : result string :=
  let category := orDefault (JsStr "all") category in
  let query := orDefault (JsStr "") query in
  match callMethod "toLowerCase" toLowerCase category with
  | Throw e => Throw e
  | Ok c =>
      match callMethod "toLowerCase" toLowerCase query with
      | Throw e => Throw e
      | Ok q => Ok (c +:+ "-" +:+ trim q)
      end
  end.

(** The key [fetchNews] derives: its own destructuring
    [{ category = null, query = null, useCache = true }] runs first and
    turns a missing property into [null], then
    [_generateCacheKey({ category, query })] is called. *)
Definition fetchNews_cacheKey (category query : JsVal) : result string :=
  _generateCacheKey (orDefault JsNull category) (orDefault JsNull query).

(** *** The cache *)

(** [this.cacheTimeout = 15 * 60 * 1000]. *)
Definition cacheTimeout : Z := 15 * 60 * 1000.

(** A value of the [Map] [this.cache]: [{ data, timestamp }]. *)
Record CacheEntry : Type := mkEntry {
  data : ResponseData;
  timestamp : Z
}.

(** A call of [fetchNews] suspended at [await requestPromise]: what the
    rest of its body reads once the promise settles. *)
Record Frame : Type := mkFrame {
  frameKey : string;
  frameUseCache : bool;
  frameCategory : JsVal;
  frameQuery : JsVal
}.

(** The service object. [cache] and [ongoingRequests] are its two [Map]s;
    the promise of the n-th invocation of [_performRequest] is named [n],
    so [performed] both counts the invocations and names the next promise;
    [awaiting] holds the suspended initiators, one per promise not yet
    settled (a network call in flight); [settled] records how each promise
    settled, which is what every holder of the promise observes. *)
Record Service : Type := mkService {
  cache : gmap string CacheEntry;
  ongoingRequests : gmap string nat;
  awaiting : gmap nat Frame;
  settled : gmap nat Outcome;
  performed : nat
}.

Definition initial : Service :=
  {| cache := ∅; ongoingRequests := ∅; awaiting := ∅; settled := ∅;
     performed := 0 |}.

Definition withCache (c : gmap string CacheEntry) (s : Service) : Service :=
  {| cache := c; ongoingRequests := ongoingRequests s;
     awaiting := awaiting s; settled := settled s;
     performed := performed s |}.

(** [_isCacheValid(cacheEntry)]; [None] is a missing entry. *)
Definition _isCacheValid (e : option CacheEntry) (now : Z) : bool :=
  match e with
  | None => false
  | Some e => (now - timestamp e <? cacheTimeout)%Z
  end.

(** [_getFromCache(cacheKey)]: the payload tagged [fromCache: true] when
    the entry is valid; otherwise the entry, if any, is deleted and the
    answer is [null]. *)
Definition _getFromCache (s : Service) (cacheKey : string) (now : Z) : Service * option ResponseData :=
  let cacheEntry := cache s !! cacheKey in
  if _isCacheValid cacheEntry now
  then (s, withFromCache true ∘ data <$> cacheEntry)
  else match cacheEntry with
       | Some _ => (withCache (delete cacheKey (cache s)) s, None)
       | None => (s, None)
       end.

(** [_setCache(cacheKey, data)]. *)
Definition _setCache (s : Service) (cacheKey : string) (d : ResponseData) (now : Z) : Service :=
  withCache (<[cacheKey := {| data := withFromCache false d; timestamp := now |}]> (cache s)) s.

(** The entries [_cleanupCache] keeps: it deletes those with
    [now - entry.timestamp >= this.cacheTimeout]. *)
Definition fresh (now : Z) (kv : string * CacheEntry) : Prop :=
  (now - timestamp kv.2 < cacheTimeout)%Z.

#[export] Instance fresh_dec now kv : Decision (fresh now kv).
Proof. unfold fresh. apply _. Defined.

Definition _cleanupCache (s : Service) (now : Z) : Service :=
  withCache (filter (fresh now) (cache s)) s.

(** [isCached(params)]. *)
Definition isCached (s : Service) (category query : JsVal) (now : Z) : result bool :=
  match _generateCacheKey category query with
  | Ok cacheKey => Ok (_isCacheValid (cache s !! cacheKey) now)
  | Throw e => Throw e
  end.

(** [clearCache()]. *)
Definition clearCache (s : Service) : Service :=
  {| cache := ∅; ongoingRequests := ∅; awaiting := awaiting s;
     settled := settled s; performed := performed s |}.

(** [clearCacheFor(params)]; nothing changes when the key derivation
    throws. *)
Definition clearCacheFor (s : Service) (category query : JsVal) : Service :=
  match _generateCacheKey category query with
  | Ok cacheKey => withCache (delete cacheKey (cache s)) s
  | Throw _ => s
  end.

(** *** fetchNews *)

(** What a call of [fetchNews] hands to its caller, up to its first
    suspension: the cached payload, the promise already registered for the
    key, the promise of the request it has just started, or a rejection
    raised before any of this. *)
Inductive CallResult : Type :=
  | FromCache (d : ResponseData)
  | Joined (pid : nat)
  | Started (pid : nat)
  | Failed (e : JsError).

(** The call starts a request: [_performRequest] is invoked, its promise
    is registered under the key and the caller suspends on it. *)
Definition startRequest (s : Service) (f : Frame) : Service * CallResult :=
  let pid := performed s in
  ({| cache := cache s;
      ongoingRequests := <[frameKey f := pid]> (ongoingRequests s);
      awaiting := <[pid := f]> (awaiting s);
      settled := settled s;
      performed := S pid |},
   Started pid).

(** [fetchNews({ category, query, useCache })] up to [await]. *)
Definition fetchNews (s : Service) (category query : JsVal) (useCache : bool) (now : Z) : Service * CallResult :=
  let category := orDefault JsNull category in
  let query := orDefault JsNull query in
  let s := _cleanupCache s now in
  match _generateCacheKey category query with
  | Throw e => (s, Failed e)
  | Ok cacheKey =>
      let '(s, cachedData) :=
        if useCache then _getFromCache s cacheKey now else (s, None) in
      match cachedData with
      | Some d => (s, FromCache d)
      | None =>
          match ongoingRequests s !! cacheKey with
          | Some pid => (s, Joined pid)
          | None => startRequest s (mkFrame cacheKey useCache category query)
          end
      end
  end.

(** The rest of the initiator's body, run when promise [pid] settles at
    time [now]: on success the result is cached if [useCache]; in both
    cases the [finally] block deletes the registration of the key; the
    value or the error then goes to the caller unchanged. *)
Definition settle (s : Service) (pid : nat) (o : Outcome) (now : Z) : Service :=
  match awaiting s !! pid with
  | None => s
  | Some f =>
      let s1 :=
        match o with
        | Fulfilled r =>
            if frameUseCache f then _setCache s (frameKey f) r now else s
        | Rejected _ => s
        end in
      {| cache := cache s1;
         ongoingRequests := delete (frameKey f) (ongoingRequests s1);
         awaiting := delete pid (awaiting s1);
         settled := <[pid := o]> (settled s1);
         performed := performed s1 |}
  end.

(** What the caller of [fetchNews] finally observes; [None] while its
    promise is pending. *)
Definition callerOutcome (s : Service) (r : CallResult) : option Outcome :=
  match r with
  | FromCache d => Some (Fulfilled d)
  | Joined pid | Started pid => settled s !! pid
  | Failed e => Some (Rejected e)
  end.

(** *** Runs of the service *)

(** What can happen to the service: a call of [fetchNews]; the settlement
    of a request; a direct cache read (the hook calls [_getFromCache] to
    show cached data at once); [clearCache]; [clearCacheFor]. *)
Inductive Event : Type :=
  | Fetch (category query : JsVal) (useCache : bool) (now : Z)
  | Settle (pid : nat) (o : Outcome) (now : Z)
  | ReadCache (cacheKey : string) (now : Z)
  | ClearCache
  | ClearCacheFor (category query : JsVal).

Definition step (s : Service) (e : Event) : Service :=
  match e with
  | Fetch category query useCache now =>
      (fetchNews s category query useCache now).1
  | Settle pid o now => settle s pid o now
  | ReadCache cacheKey now => (_getFromCache s cacheKey now).1
  | ClearCache => clearCache s
  | ClearCacheFor category query => clearCacheFor s category query
  end.

Definition run (s : Service) (evs : list Event) : Service :=
  fold_left step evs s.

Definition isClearCache (e : Event) : bool :=
  match e with ClearCache => true | _ => false end.

(** A run from [s] in which [clearCache] is only called while no request
    is in flight. *)
Fixpoint clearsWhenIdle (s : Service) (evs : list Event) : Prop :=
  match evs with
  | [] => True
  | e :: evs' =>
      (isClearCache e = true -> awaiting s = ∅) /\
      clearsWhenIdle (step s e) evs'
  end.

(** At most one network call is in flight per cache key. *)
Definition AtMostOneInFlight (s : Service) : Prop :=
  forall p1 p2 f1 f2,
    awaiting s !! p1 = Some f1 -> awaiting s !! p2 = Some f2 ->
    frameKey f1 = frameKey f2 -> p1 = p2.

(** A sequence of calls of [fetchNews] with the same category and query,
    each with its own [useCache] and clock reading; the results are in
    call order. *)
Fixpoint fetchAll (s : Service) (category query : JsVal) (calls : list (bool * Z)) : Service * list CallResult :=
  match calls with
  | [] => (s, [])
  | (useCache, now) :: calls' =>
      let '(s1, r) := fetchNews s category query useCache now in
      let '(s2, rs) := fetchAll s1 category query calls' in
      (s2, r :: rs)
  end.


(** *** Invariants of runs *)

(** The cache check of a call [(useCache, now)] for key [k] does not hit:
    the call bypasses the cache or the entry is missing or expired. *)
Definition cacheMiss (s : Service) (k : string) (call : bool * Z) : Prop :=
  call.1 = false \/ _isCacheValid (cache s !! k) call.2 = false.

(** Nothing has been added to or changed in the cache between [s] and
    [s']. *)
Definition shrinks (s s' : Service) : Prop :=
  forall k e, cache s' !! k = Some e -> cache s !! k = Some e.

(** Every suspended initiator is the one registered for its key. *)
Definition Registered (s : Service) : Prop :=
  forall pid f, awaiting s !! pid = Some f ->
    ongoingRequests s !! frameKey f = Some pid.

(** Every registration names a request that is still in flight. *)
Definition Live (s : Service) : Prop :=
  forall k pid, ongoingRequests s !! k = Some pid ->
    exists f, awaiting s !! pid = Some f /\ frameKey f = k.

(** A request started with [useCache] has no cache entry for its key. *)
Definition Uncached (s : Service) : Prop :=
  forall pid f, awaiting s !! pid = Some f -> frameUseCache f = true ->
    cache s !! frameKey f = None.

(** Promise names in use are below the next one. *)
Definition Fresh (s : Service) : Prop :=
  forall pid f, awaiting s !! pid = Some f -> pid < performed s.

Definition Inv (s : Service) : Prop :=
  Registered s /\ Live s /\ Uncached s /\ Fresh s.

(** The state of the service when [fetchNews] reaches its test of
    [ongoingRequests]: after the clean-up and, with [useCache], the cache
    read. *)
Definition beforeLookup (s : Service) (k : string) (useCache : bool) (now : Z) : Service * option ResponseData :=
  if useCache then _getFromCache (_cleanupCache s now) k now
  else (_cleanupCache s now, None).

(** *** Runs used below *)

(** A fetch that succeeds, then [clearCache] while nothing is in
    flight. *)
Definition idleClear : list Event :=
  [Fetch (JsStr "Sports") (JsStr "") true 0;
   Settle 0 (Fulfilled samplePayload) 5;
   ClearCache].

(** The trace behind the refresh button pressed during a fetch: a call,
    [clearCache], and the same call again. *)
Definition refreshDuringFetch : list Event :=
  [Fetch (JsStr "Technology") (JsStr "test") true 0;
   ClearCache;
   Fetch (JsStr "Technology") (JsStr "test") true 1].

(** A successful cached fetch followed by a fetch of the same key that
    bypasses the cache. *)
Definition bypassAfterSuccess : list Event :=
  [Fetch (JsStr "Technology") (JsStr "test") true 0;
   Settle 0 (Fulfilled samplePayload) 10;
   Fetch (JsStr "Technology") (JsStr "test") false 20].

End NewsService.

(** ** hooks/useOptimizedNews.js *)

(** [x?.articles || []] for a payload [x] that may itself be missing. *)
Definition articlesOrEmpty (d : option ResponseData) : list Article :=
  match d with
  | Some d => default [] (articles d)
  | None => []
  end.

Module OptimizedNews.
Import JsString.

(** *** Error classification *)

Inductive ErrorType : Type :=
  | RATE_LIMIT
  | AUTH_ERROR
  | SERVER_ERROR
  | NETWORK_ERROR
  | UNKNOWN_ERROR.

#[export] Instance ErrorType_eq_dec : EqDecision ErrorType.
Proof. solve_decision. Defined.

(** [getErrorType(errorMessage)]. *)
Definition getErrorType (errorMessage : string) : ErrorType :=
  if includes "Rate limit exceeded" errorMessage || includes "429" errorMessage
  then RATE_LIMIT
  else if includes "authentication failed" errorMessage || includes "401" errorMessage
  then AUTH_ERROR
  else if includes "temporarily unavailable" errorMessage || includes "500" errorMessage
  then SERVER_ERROR
  else if includes "Unable to connect" errorMessage || includes "fetch" errorMessage
  then NETWORK_ERROR
  else UNKNOWN_ERROR.

(** The classification as the specification words it: five kinds, tried
    in priority order, each recognised by the wording of the message. *)
Definition RateLimitWording (m : string) : Prop :=
  Occurs "Rate limit exceeded" m \/ Occurs "429" m.
Definition AuthWording (m : string) : Prop :=
  Occurs "authentication failed" m \/ Occurs "401" m.
Definition ServerWording (m : string) : Prop :=
  Occurs "temporarily unavailable" m \/ Occurs "500" m.
Definition NetworkWording (m : string) : Prop :=
  Occurs "Unable to connect" m \/ Occurs "fetch" m.

Inductive Classified (m : string) : ErrorType -> Prop :=
  | classified_rate_limit :
      RateLimitWording m -> Classified m RATE_LIMIT
  | classified_auth :
      ~ RateLimitWording m -> AuthWording m -> Classified m AUTH_ERROR
  | classified_server :
      ~ RateLimitWording m -> ~ AuthWording m -> ServerWording m ->
      Classified m SERVER_ERROR
  | classified_network :
      ~ RateLimitWording m -> ~ AuthWording m -> ~ ServerWording m ->
      NetworkWording m -> Classified m NETWORK_ERROR
  | classified_unknown :
      ~ RateLimitWording m -> ~ AuthWording m -> ~ ServerWording m ->
      ~ NetworkWording m -> Classified m UNKNOWN_ERROR.

(** *** State of one hook instance *)

(** The object [{ category, query, useCache: enableCache }] built by one
    call of the hook's [fetchNews]. [paramsId] is its identity as an
    object, which is what [===] compares. *)
Record Params : Type := mkParams {
  paramsId : nat;
  category : string;
  query : string;
  useCache : bool
}.

(** The [useState] cells, the debounced search term, the ref
    [lastFetchParams] and the number of [Params] objects created so far.
    The ref [abortController] is left out: its signal is passed to no
    request, so aborting it has no effect on any result. *)
Record State : Type := mkState {
  articles : list Article;
  loading : bool;
  error : option string;
  errorType : option ErrorType;
  retryCount : nat;
  isRetrying : bool;
  selectedCategory : string;
  searchQuery : string;
  debouncedSearchTerm : string;
  lastFetchParams : option Params;
  allocated : nat
}.

(** A call of the hook's [fetchNews] suspended at
    [await newsService.fetchNews(params)]: its [params], its [isRetry]
    argument and the [articles] its closure saw (the callback is rebuilt
    whenever [articles.length] changes, so the length it reads is the one
    on screen when the call is made). *)
Record Call : Type := mkCall {
  callParams : Params;
  isRetry : bool;
  seenArticles : list Article
}.

Definition setArticles (a : list Article) (s : State) : State :=
  {| articles := a; loading := loading s; error := error s;
     errorType := errorType s; retryCount := retryCount s;
     isRetrying := isRetrying s; selectedCategory := selectedCategory s;
     searchQuery := searchQuery s;
     debouncedSearchTerm := debouncedSearchTerm s;
     lastFetchParams := lastFetchParams s; allocated := allocated s |}.

Definition setLoading (b : bool) (s : State) : State :=
  {| articles := articles s; loading := b; error := error s;
     errorType := errorType s; retryCount := retryCount s;
     isRetrying := isRetrying s; selectedCategory := selectedCategory s;
     searchQuery := searchQuery s;
     debouncedSearchTerm := debouncedSearchTerm s;
     lastFetchParams := lastFetchParams s; allocated := allocated s |}.

Definition setError (e : option string) (s : State) : State :=
  {| articles := articles s; loading := loading s; error := e;
     errorType := errorType s; retryCount := retryCount s;
     isRetrying := isRetrying s; selectedCategory := selectedCategory s;
     searchQuery := searchQuery s;
     debouncedSearchTerm := debouncedSearchTerm s;
     lastFetchParams := lastFetchParams s; allocated := allocated s |}.

Definition setErrorType (t : option ErrorType) (s : State) : State :=
  {| articles := articles s; loading := loading s; error := error s;
     errorType := t; retryCount := retryCount s;
     isRetrying := isRetrying s; selectedCategory := selectedCategory s;
     searchQuery := searchQuery s;
     debouncedSearchTerm := debouncedSearchTerm s;
     lastFetchParams := lastFetchParams s; allocated := allocated s |}.

Definition setRetryCount (n : nat) (s : State) : State :=
  {| articles := articles s; loading := loading s; error := error s;
     errorType := errorType s; retryCount := n;
     isRetrying := isRetrying s; selectedCategory := selectedCategory s;
     searchQuery := searchQuery s;
     debouncedSearchTerm := debouncedSearchTerm s;
     lastFetchParams := lastFetchParams s; allocated := allocated s |}.

Definition setIsRetrying (b : bool) (s : State) : State :=
  {| articles := articles s; loading := loading s; error := error s;
     errorType := errorType s; retryCount := retryCount s;
     isRetrying := b; selectedCategory := selectedCategory s;
     searchQuery := searchQuery s;
     debouncedSearchTerm := debouncedSearchTerm s;
     lastFetchParams := lastFetchParams s; allocated := allocated s |}.

(** [lastFetchParams.current = params] for a freshly built object. *)
Definition setLastFetchParams (p : Params) (s : State) : State :=
  {| articles := articles s; loading := loading s; error := error s;
     errorType := errorType s; retryCount := retryCount s;
     isRetrying := isRetrying s; selectedCategory := selectedCategory s;
     searchQuery := searchQuery s;
     debouncedSearchTerm := debouncedSearchTerm s;
     lastFetchParams := Some p; allocated := S (allocated s) |}.

Section Hook.

(** The option [enableCache] of the hook instance. *)
Variable enableCache : bool.

(** [getCachedDataIfAvailable(category, query)], read off the service.
    [Date.now()] is read in [isCached] ([tCheck]) and again in
    [_getFromCache] ([tRead]). *)
Definition getCachedDataIfAvailable (svc : NewsService.Service) (category query : string) (tCheck tRead : Z) : option ResponseData :=
  if negb enableCache then None
  else match NewsService.isCached svc (JsStr category) (JsStr query) tCheck,
             NewsService._generateCacheKey (JsStr category) (JsStr query) with
       | Ok true, Ok cacheKey => (NewsService._getFromCache svc cacheKey tRead).2
       | _, _ => None
       end.

(** *** fetchNews of the hook *)

(** From the call to [await]: cached data, if any, is shown at once
    (except on a retry), the flags are set, the error is cleared and the
    new [params] object becomes [lastFetchParams.current]. *)
Definition fetchNews_begin (s : State) (category query : string) (isRetry : bool) (cachedData : option ResponseData) : State * Call :=
  let seen := articles s in
  let s :=
    match cachedData with
    | Some d =>
        if negb isRetry
        then setErrorType None (setError None (setLoading false
               (setArticles (articlesOrEmpty (Some d)) s)))
        else s
    | None => s
    end in
  let s :=
    if isRetry then setIsRetrying true s
    else match cachedData with
         | None => setLoading true s
         | Some _ => s
         end in
  let s := setErrorType None (setError None s) in
  let params := mkParams (allocated s) category query enableCache in
  (setLastFetchParams params s, mkCall params isRetry seen).

(** [lastFetchParams.current === params]: the same object. *)
Definition isLatestObject (s : State) (c : Call) : bool :=
  match lastFetchParams s with
  | Some p => Nat.eqb (paramsId p) (paramsId (callParams c))
  | None => false
  end.

(** [lastFetchParams.current && lastFetchParams.current.category ===
    category && lastFetchParams.current.query === query]. *)
Definition matchesLatest (s : State) (c : Call) : bool :=
  match lastFetchParams s with
  | Some p =>
      String.eqb (category p) (category (callParams c)) &&
      String.eqb (query p) (query (callParams c))
  | None => false
  end.

(** The [finally] block. *)
Definition fetchNews_finally (s : State) (c : Call) : State :=
  if matchesLatest s c then setIsRetrying false (setLoading false s) else s.

(** The promise of the service fulfils with [data]. *)
Definition fetchNews_resolve (s : State) (c : Call) (d : option ResponseData) : State :=
  let s :=
    if isLatestObject s c
    then setRetryCount 0 (setArticles (articlesOrEmpty d) s)
    else s in
  fetchNews_finally s c.

(** The promise of the service rejects with [e]: the [catch] block. *)
Definition fetchNews_reject (s : State) (c : Call) (e : JsError) : State :=
  let s :=
    if matchesLatest s c
    then
      let s := setErrorType (Some (getErrorType (message e)))
                 (setError (Some (message e)) s) in
      if negb (isRetry c) || Nat.eqb (length (seenArticles c)) 0
      then setArticles [] s else s
    else s in
  fetchNews_finally s c.

(** How the awaited promise settles, as the hook sees it. *)
Inductive Settlement : Type :=
  | Resolved (d : option ResponseData)
  | Failed (e : JsError).

Definition fetchNews_settle (s : State) (c : Call) (o : Settlement) : State :=
  match o with
  | Resolved d => fetchNews_resolve s c d
  | Failed e => fetchNews_reject s c e
  end.

(** *** Retry with back-off *)

(** What [handleRetry] does with the fetch: call it now, or hand it to
    [setTimeout] with a delay in milliseconds. *)
Inductive RetryPlan : Type :=
  | Immediately
  | After (delay : Z).

(** Milliseconds that pass before the fetch is issued again. *)
Definition delayOf (p : RetryPlan) : Z :=
  match p with Immediately => 0 | After d => d end.

(** [handleRetry()]:
    [[
      const newRetryCount = retryCount + 1;
      setRetryCount(newRetryCount);
      if (errorType === 'RATE_LIMIT' && newRetryCount > 1) {
        const delay = Math.min(1000 * Math.pow(2, newRetryCount - 1), 30000);
        setTimeout(..., delay);
      } else { await fetchNews(..., true); }
    ]]
    The power is computed on integers: the floating-point one is exact up
    to 2^1023 and infinite beyond, and [Math.min] with 30000 gives the same
    number in both readings. *)
Definition handleRetry (s : State) : State * RetryPlan :=
  let newRetryCount := retryCount s + 1 in
  let s' := setRetryCount newRetryCount s in
  if bool_decide (errorType s = Some RATE_LIMIT) && Nat.ltb 1 newRetryCount
  then (s', After (Z.min (1000 * 2 ^ Z.of_nat (newRetryCount - 1)) 30000))
  else (s', Immediately).

(** One retry that fails with [e]: [handleRetry], the fetch it issues for
    the current category and search term, and the rejection of that
    fetch. The plan is the one [handleRetry] chose. *)
Definition failedRetry (cachedData : option ResponseData) (e : JsError) (s : State) : State * RetryPlan :=
  let '(s1, plan) := handleRetry s in
  let '(s2, c) :=
    fetchNews_begin s1 (selectedCategory s1)
      (debouncedSearchTerm s1) true cachedData in
  (fetchNews_reject s2 c e, plan).

(** Delays of [n] consecutive retries, each failing with [e]. *)
Fixpoint retryDelays (cachedData : option ResponseData) (e : JsError) (n : nat) (s : State) : list Z :=
  match n with
  | O => []
  | S n' =>
      let '(s', plan) := failedRetry cachedData e s in
      delayOf plan :: retryDelays cachedData e n' s'
  end.

End Hook.

(** *** Instances used below *)

(** A hook instance showing a rate-limit error, before any retry. *)
Definition rateLimited : State :=
  {| articles := []; loading := false;
     error := Some "Rate limit exceeded. Please try again later.";
     errorType := Some RATE_LIMIT; retryCount := 0; isRetrying := false;
     selectedCategory := "All"; searchQuery := "";
     debouncedSearchTerm := ""; lastFetchParams := None; allocated := 0 |}.

(** The error the service raises on a 429 response. *)
Definition rateLimitError : JsError :=
  Error "Rate limit exceeded. Please try again later.".

(** Delay chosen by [handleRetry] when [retryCount] is [r] and the last
    error is a rate limit. *)
Definition backoff (r : nat) : Z :=
  if Nat.eqb r 0 then 0%Z else Z.min (1000 * 2 ^ Z.of_nat r) 30000.

(** A hook instance showing two articles. *)
Definition showingTwo : State :=
  {| articles := [mkArticle "1" "First" "" "https://example.com/1";
                  mkArticle "2" "Second" "" "https://example.com/2"];
     loading := false; error := None; errorType := None; retryCount := 0;
     isRetrying := false; selectedCategory := "Technology";
     searchQuery := ""; debouncedSearchTerm := "";
     lastFetchParams := None; allocated := 0 |}.

End OptimizedNews.

(** ** newsService.js: statistics, the request itself, mock data *)

Module CacheStats.
Import NewsService.

(** The object returned by [getCacheStats()]. *)
Record Stats : Type := mkStats {
  totalEntries : nat;
  validEntries : nat;
  expiredEntries : nat;
  ongoingRequests : nat
}.

(** One turn of the loop of [getCacheStats]: the pair is
    [(validEntries, expiredEntries)]. *)
Definition countEntry (now : Z) (key : string) (entry : CacheEntry) (acc : nat * nat) : nat * nat :=
  if (now - timestamp entry <? cacheTimeout)%Z
  then (S acc.1, acc.2) else (acc.1, S acc.2).

(** [getCacheStats()]. The loop visits every entry of the [Map] once; the
    counters do not depend on the order of the visit. *)
Definition getCacheStats (s : Service) (now : Z) : Stats :=
  let counts := map_fold (countEntry now) (0, 0) (cache s) in
  {| totalEntries := size (cache s);
     validEntries := counts.1;
     expiredEntries := counts.2;
     ongoingRequests := size (NewsService.ongoingRequests s) |}.

End CacheStats.

Module PerformRequest.
Import JsString.

(** An exception as [_performRequest] looks at it: [error.name] and
    [error.message]. *)
Record Thrown : Type := mkThrown {
  name : string;
  message : string
}.

(** What [response.json()] gives: a rejection (with the engine's
    SyntaxError message), [null], or a value read through its properties
    [success], [message] and [data]. A JSON number, string or array has
    none of these properties and behaves as an object without them. *)
Inductive Json : Type :=
  | Unparsable (syntaxMessage : string)
  | JsonNull
  | JsonObject (success : bool) (msg : option string) (data : option ResponseData).

(** What [fetch(url, ...)] settles to: a response with its status and
    body, or a rejection. *)
Inductive FetchResult : Type :=
  | Response (status : Z) (body : Json)
  | NetworkFailure (e : Thrown).

(** What the [async] function ends with. *)
Inductive Completion : Type :=
  | Returned (d : option ResponseData)
  | Threw (e : Thrown).

(** [response.ok]: the status is in the range 200-299. *)
Definition ok (status : Z) : bool := ((200 <=? status) && (status <=? 299))%Z.

(** [x.message] when it is a non-empty string, else [fallback]:
    [if (errorData.message) ...] and [data.message || '...']. A body that
    cannot be parsed, or [null], makes the property read throw; in the
    error branch that exception is swallowed by the inner [catch]. *)
Definition messageOr (fallback : string) (body : Json) : string :=
  match body with
  | JsonObject _ (Some m) _ => if truthy m then m else fallback
  | _ => fallback
  end.

(** The message of the error thrown for a response that is not [ok]. *)
Definition httpErrorMessage (status : Z) (body : Json) : string :=
  let errorMessage := messageOr ("HTTP error! status: " +:+ pretty status) body in
  if (status =? 401)%Z
  then "Backend API authentication failed. Please check NewsAPI configuration."
  else if (status =? 429)%Z
  then "Rate limit exceeded. Please try again later."
  else if (500 <=? status)%Z
  then "Backend service is temporarily unavailable. Please try again later."
  else errorMessage.

(** The [try] block of [_performRequest] from the settlement of [fetch]
    on. *)
Definition tryBlock (r : FetchResult) : Completion :=
  match r with
  | NetworkFailure e => Threw e
  | Response status body =>
      if negb (ok status)
      then Threw (mkThrown "Error" (httpErrorMessage status body))
      else
        match body with
        | Unparsable m => Threw (mkThrown "SyntaxError" m)
        | JsonNull =>
            Threw (mkThrown "TypeError"
                     "Cannot read properties of null (reading 'success')")
        | JsonObject success _ data =>
            if success then Returned data
            else Threw (mkThrown "Error" (messageOr "Failed to fetch news" body))
        end
  end.

(** The outer [catch] block: a TypeError whose message mentions [fetch]
    is replaced, anything else is thrown again as it is. *)
Definition catchBlock (e : Thrown) : Thrown :=
  if String.eqb (name e) "TypeError" && includes "fetch" (message e)
  then mkThrown "Error"
         "Unable to connect to backend service. Please check if the backend is running."
  else e.

(** [_performRequest] without mock data, given what [fetch] settles to. *)
Definition _performRequest (r : FetchResult) : Completion :=
  match tryBlock r with
  | Returned d => Returned d
  | Threw e => Threw (catchBlock e)
  end.

(** An article of the mock data set: the article and its optional
    [category]. *)
Record MockArticle : Type := mkMock {
  article : Article;
  category : option string
}.

(** The two filters of [_getMockData]. *)
Definition inCategory (c : string) (a : MockArticle) : bool :=
  match category a with
  | Some ac => String.eqb (toLowerCase ac) (toLowerCase c)
  | None => false
  end.

Definition mentions (searchTerm : string) (a : MockArticle) : bool :=
  includes searchTerm (toLowerCase (title (article a))) ||
  includes searchTerm (toLowerCase (description (article a))).

(** [_getMockData({ category, query })] over the data set
    [mockNewsData.data.articles]. *)
Definition _getMockData (dataset : list MockArticle) (cat query : JsVal) : ResponseData :=
  let byCategory :=
    match cat with
    | JsStr c =>
        if truthy c && negb (String.eqb c "All")
        then List.filter (inCategory c) dataset else dataset
    | _ => dataset
    end in
  let bySearch :=
    match query with
    | JsStr q =>
        if truthy q && truthy (trim q)
        then List.filter (mentions (toLowerCase q)) byCategory else byCategory
    | _ => byCategory
    end in
  {| articles := Some (map article bySearch);
     totalResults := Z.of_nat (length bySearch);
     page := 1; pageSize := 20; fromCache := None |}.

End PerformRequest.

(** ** newsService.js: the shorthand methods *)

Module Shorthands.
Import NewsService.

(** [fetchTopHeadlines()]: [this.fetchNews()]. *)
Definition fetchTopHeadlines (s : Service) (now : Z) : Service * CallResult :=
  fetchNews s JsUndefined JsUndefined true now.

(** [searchNews(query)]: [this.fetchNews({ query })]. *)
Definition searchNews (s : Service) (query : JsVal) (now : Z) : Service * CallResult :=
  fetchNews s JsUndefined query true now.

(** [fetchNewsByCategory(category)]: [this.fetchNews({ category })]. *)
Definition fetchNewsByCategory (s : Service) (category : JsVal) (now : Z) : Service * CallResult :=
  fetchNews s category JsUndefined true now.

End Shorthands.

(** ** From the request to the error kind on screen *)

Module ErrorPath.
Import OptimizedNews.

(** The kind the hook records when [_performRequest] ends with [c]:
    [fetchNews] of the service passes the exception on unchanged and the
    [catch] block of the hook classifies [error.message]. [None]: no
    error. *)
Definition errorTypeOf (c : PerformRequest.Completion) : option ErrorType :=
  match c with
  | PerformRequest.Returned _ => None
  | PerformRequest.Threw e => Some (getErrorType (PerformRequest.message e))
  end.

(** Statuses for which the default message
    ["HTTP error! status: N"] is classified as [kind]. *)
Definition defaultMessageKind (kind : ErrorType) (status : Z) : bool :=
  bool_decide
    (getErrorType ("HTTP error! status: " +:+ pretty status) = kind).

End ErrorPath.

(** ** useOptimizedNews.js against the service *)

Module Aggregation.
Import NewsService OptimizedNews.

Definition setSelectedCategory (c : string) (s : State) : State :=
  {| articles := articles s; loading := loading s; error := error s;
     errorType := errorType s; retryCount := retryCount s;
     isRetrying := isRetrying s; selectedCategory := c;
     searchQuery := searchQuery s;
     debouncedSearchTerm := debouncedSearchTerm s;
     lastFetchParams := lastFetchParams s; allocated := allocated s |}.

(** The hook at its first render: the [useState] defaults, with the
    debounced term as [useDebouncedSearch] starts it. *)
Definition mounted (initialCategory initialSearchQuery : string) : State :=
  {| articles := []; loading := true; error := None; errorType := None;
     retryCount := 0; isRetrying := false;
     selectedCategory := initialCategory; searchQuery := initialSearchQuery;
     debouncedSearchTerm := initialSearchQuery;
     lastFetchParams := None; allocated := 0 |}.

(** The dependency array of the fetching effect,
    [[selectedCategory, debouncedSearchTerm, fetchNews]]. [useCallback]
    rebuilds [fetchNews] when one of [enableCache],
    [getCachedDataIfAvailable], [getErrorType], [articles.length]
    changes; the first three keep their value while the option
    [enableCache] does, so the callback is identified by
    [articles.length]. *)
Definition effectDeps (s : State) : string * string * nat :=
  (selectedCategory s, debouncedSearchTerm s, length (articles s)).

(** Whether the effect runs again after the render with state [after],
    the previous render having had state [before]. The state updates
    made by one run of the hook's code (up to an [await], or from a
    settlement to the end of [finally]) are rendered together. *)
Definition effectRuns (before after : State) : bool :=
  negb (bool_decide (effectDeps before = effectDeps after)).

Section Wired.

Variable enableCache : bool.

(** [getCachedDataIfAvailable(category, query)] with its effect on the
    service: [isCached], then [_generateCacheKey] and [_getFromCache].
    The clock is read twice: in [isCached] ([tCheck]) and, when that
    said yes, in [_getFromCache] ([tRead]). An entry that expires between
    the two readings is deleted by the second call, which then returns
    [null]. *)
Definition peek (svc : Service) (category query : string) (tCheck tRead : Z) : Service * option ResponseData :=
  if negb enableCache then (svc, None)
  else match isCached svc (JsStr category) (JsStr query) tCheck,
             _generateCacheKey (JsStr category) (JsStr query) with
       | Ok true, Ok cacheKey => _getFromCache svc cacheKey tRead
       | _, _ => (svc, None)
       end.

(** The hook's [fetchNews(category, query, isRetry)] up to its [await]:
    the peek at the cache (clock readings [tCheck] and [tRead]), the
    state updates, and the call of
    [newsService.fetchNews({ category, query, useCache: enableCache })],
    which reads the clock at [tCall]. *)
Definition fetchNews_call (svc : Service) (s : State) (category query : string) (isRetry : bool) (tCheck tRead tCall : Z) : Service * CallResult * State * Call :=
  let '(svc1, cachedData) := peek svc category query tCheck tRead in
  let '(s1, c) := fetchNews_begin enableCache s category query isRetry cachedData in
  let '(svc2, r) :=
    NewsService.fetchNews svc1 (JsStr category) (JsStr query) enableCache tCall in
  (svc2, r, s1, c).

(** The body of the fetching effect. [None]: the search is still being
    debounced and nothing is fetched. *)
Definition fetchEffect (svc : Service) (s : State) (tCheck tRead tCall : Z) : option (Service * CallResult * State * Call) :=
  if negb (String.eqb (debouncedSearchTerm s) (searchQuery s)) then None
  else Some (fetchNews_call svc s (selectedCategory s)
               (debouncedSearchTerm s) false tCheck tRead tCall).

(** [handleCategoryChange(newCategory)]. *)
Definition handleCategoryChange (svc : Service) (s : State) (newCategory : string) (tCheck tRead : Z) : Service * State :=
  let s1 := setSelectedCategory newCategory s in
  let '(svc1, cachedData) :=
    peek svc newCategory (debouncedSearchTerm s) tCheck tRead in
  match cachedData with
  | Some d =>
      (svc1, setErrorType None (setError None
               (setArticles (articlesOrEmpty (Some d)) s1)))
  | None => (svc1, s1)
  end.

(** [refresh()]: [newsService.clearCache()], then a fetch that is not a
    retry for the current category and search term. *)
Definition refresh (svc : Service) (s : State) (tCheck tRead tCall : Z) : Service * CallResult * State * Call :=
  fetchNews_call (clearCache svc) s (selectedCategory s)
    (debouncedSearchTerm s) false tCheck tRead tCall.

End Wired.

End Aggregation.

(** ** hooks/useDebounce.js *)

Module Debounce.

(** [useDebouncedSearch(searchTerm, delay)] between renders: the prop
    [searchTerm], the two state cells, and the value captured by the
    pending [setTimeout] callback, if a timer is pending. *)
Record State : Type := mkState {
  searchTerm : string;
  debouncedSearchTerm : string;
  isSearching : bool;
  handler : option string
}.

(** First render and its effect: both cells start from the prop, and a
    timer is set. *)
Definition mount (initial : string) : State :=
  {| searchTerm := initial; debouncedSearchTerm := initial;
     isSearching := false; handler := Some initial |}.

(** The effect body, run after a render in which one of
    [searchTerm, delay, debouncedSearchTerm] changed; the clean-up of the
    previous run has cleared the previous timer. *)
Definition effect (s : State) : State :=
  {| searchTerm := searchTerm s;
     debouncedSearchTerm := debouncedSearchTerm s;
     isSearching :=
       if String.eqb (searchTerm s) (debouncedSearchTerm s)
       then isSearching s else true;
     handler := Some (searchTerm s) |}.

(** The component renders with the search term [v]. With an unchanged
    term no dependency changed and nothing runs. *)
Definition render (v : string) (s : State) : State :=
  if String.eqb v (searchTerm s) then s
  else effect {| searchTerm := v;
                 debouncedSearchTerm := debouncedSearchTerm s;
                 isSearching := isSearching s;
                 handler := None |}.

(** The pending timer fires: both setters run, and if the debounced term
    changed the effect runs again. *)
Definition fire (s : State) : State :=
  match handler s with
  | None => s
  | Some v =>
      let s1 := {| searchTerm := searchTerm s; debouncedSearchTerm := v;
                   isSearching := false; handler := None |} in
      if String.eqb v (debouncedSearchTerm s) then s1 else effect s1
  end.

Inductive Event : Type :=
  | Render (v : string)
  | Fire.

Definition step (s : State) (e : Event) : State :=
  match e with
  | Render v => render v s
  | Fire => fire s
  end.

Definition run (s : State) (evs : list Event) : State :=
  fold_left step evs s.

(** What holds between renders: a pending timer carries the current
    term; the flag is down only when the output has caught up; with no
    timer pending the hook is at rest. *)
Definition Consistent (s : State) : Prop :=
  (forall v, handler s = Some v -> v = searchTerm s) /\
  (isSearching s = false -> debouncedSearchTerm s = searchTerm s) /\
  (handler s = None ->
     debouncedSearchTerm s = searchTerm s /\ isSearching s = false).

End Debounce.

(** ** pages/Home.jsx *)

Module HomePage.
Import JsString OptimizedNews.

(** [article.url || article.id || article.title]. *)
Definition articleKey (a : Article) : string :=
  if truthy (url a) then url a
  else if truthy (articleId a) then articleId a
  else title a.

(** The callback of [articles.filter] with its [Set] of keys seen so
    far. *)
Fixpoint keepUnseen (seen : gset string) (l : list Article) : list Article :=
  match l with
  | [] => []
  | a :: l' =>
      if decide (articleKey a ∈ seen) then keepUnseen seen l'
      else a :: keepUnseen ({[articleKey a]} ∪ seen) l'
  end.

(** [filteredArticles]. *)
Definition filteredArticles (l : list Article) : list Article :=
  match l with
  | [] => []
  | _ => keepUnseen ∅ l
  end.

(** [toggleBookmark(articleId)]: the next value of
    [bookmarkedArticles]. *)
Definition toggleBookmark (bookmarkedArticles : gset string) (articleId : string) : gset string :=
  if decide (articleId ∈ bookmarkedArticles)
  then bookmarkedArticles ∖ {[articleId]}
  else {[articleId]} ∪ bookmarkedArticles.

(** [getErrorConfig().canRetry]. *)
Definition canRetry (errorType : option ErrorType) : bool :=
  match errorType with
  | Some AUTH_ERROR => false
  | _ => true
  end.

(** [getErrorConfig().retryDelay]; only the rate-limit configuration has
    the property. *)
Definition retryDelay (errorType : option ErrorType) (retryCount : nat) : option Z :=
  match errorType with
  | Some RATE_LIMIT =>
      Some (if Nat.ltb 1 retryCount
            then Z.min (1000 * 2 ^ Z.of_nat (retryCount - 1)) 30000
            else 0%Z)
  | _ => None
  end.

(** [config.retryDelay > 0]: whether the line "Waiting Ns before
    retry..." is rendered. *)
Definition showsWaiting (errorType : option ErrorType) (retryCount : nat) : bool :=
  match retryDelay errorType retryCount with
  | Some d => (0 <? d)%Z
  | None => false
  end.

End HomePage.

(** ** Regular expressions of validation.js *)

Module Regex.

(** A pattern of the form [/^r$/] without flags, over the constructs the
    source uses (character classes, sequence, [+]); [Void], [Eps], [Alt]
    and [Star] close the type under derivatives. *)
Inductive Re : Type :=
  | Void
  | Eps
  | Class (p : ascii -> bool)
  | Cat (r1 r2 : Re)
  | Alt (r1 r2 : Re)
  | Star (r : Re).

(** [r+]. *)
Definition Plus (r : Re) : Re := Cat r (Star r).

Fixpoint nullable (r : Re) : bool :=
  match r with
  | Void => false
  | Eps => true
  | Class _ => false
  | Cat r1 r2 => nullable r1 && nullable r2
  | Alt r1 r2 => nullable r1 || nullable r2
  | Star _ => true
  end.

Fixpoint deriv (c : ascii) (r : Re) : Re :=
  match r with
  | Void => Void
  | Eps => Void
  | Class p => if p c then Eps else Void
  | Cat r1 r2 =>
      if nullable r1 then Alt (Cat (deriv c r1) r2) (deriv c r2)
      else Cat (deriv c r1) r2
  | Alt r1 r2 => Alt (deriv c r1) (deriv c r2)
  | Star r1 => Cat (deriv c r1) (Star r1)
  end.

(** [/^r$/.test(s)]: the whole string matches [r]. *)
Fixpoint test (r : Re) (s : string) : bool :=
  match s with
  | EmptyString => nullable r
  | String c s' => test (deriv c r) s'
  end.

(** The strings a pattern denotes. *)
Inductive Lang : Re -> string -> Prop :=
  | LEps : Lang Eps ""
  | LClass p c : p c = true -> Lang (Class p) (String c "")
  | LCat r1 r2 s1 s2 : Lang r1 s1 -> Lang r2 s2 -> Lang (Cat r1 r2) (s1 +:+ s2)
  | LAltL r1 r2 s : Lang r1 s -> Lang (Alt r1 r2) s
  | LAltR r1 r2 s : Lang r2 s -> Lang (Alt r1 r2) s
  | LStarNil r : Lang (Star r) ""
  | LStarApp r s1 s2 : Lang r s1 -> Lang (Star r) s2 -> Lang (Star r) (s1 +:+ s2).

(** Every character of [s] is in the class [p]. *)
Fixpoint all (p : ascii -> bool) (s : string) : bool :=
  match s with
  | EmptyString => true
  | String c s' => p c && all p s'
  end.

End Regex.

(** ** utils/validation.js *)

Module Validation.
Import JsString Regex.

(** [!value] for the value of a form field. *)
Definition falsy (value : JsVal) : bool :=
  match value with
  | JsStr s => negb (truthy s)
  | _ => true
  end.

(** The class [[^\s@]]. *)
Definition notSpaceOrAt (c : ascii) : bool :=
  negb (isWhiteSpace c || Ascii.eqb c "@").

(** [/^[^\s@]+@[^\s@]+\.[^\s@]+$/]. *)
Definition emailRegex : Re :=
  Cat (Plus (Class notSpaceOrAt))
    (Cat (Class (Ascii.eqb "@"))
       (Cat (Plus (Class notSpaceOrAt))
          (Cat (Class (Ascii.eqb ".")) (Plus (Class notSpaceOrAt))))).

(** The class [[a-zA-Z\s'-]]. *)
Definition nameChar (c : ascii) : bool :=
  let n := code c in
  ((65 <=? n)%N && (n <=? 90)%N) || ((97 <=? n)%N && (n <=? 122)%N) ||
  isWhiteSpace c || Ascii.eqb c "'" || Ascii.eqb c "-".

(** [/^[a-zA-Z\s'-]+$/]. *)
Definition nameRegex : Re := Plus (Class nameChar).

(** A rule by its parameters: [(value)], [(value, originalPassword)] or
    [(value, minLength = d)]. *)
Inductive RuleFunction : Type :=
  | OfValue (f : JsVal -> option string)
  | OfValueAndPassword (f : JsVal -> JsVal -> option string)
  | OfValueAndLength (f : JsVal -> option nat -> option string).

(** [(value) => !value ? message : null]. *)
Definition required (message : string) : RuleFunction :=
  OfValue (fun value => if falsy value then Some message else None).

(** A rule that starts with [if (!value) return null;] and then looks at
    the string. *)
Definition whenPresent (value : JsVal) (check : string -> option string) : option string :=
  match value with
  | JsStr s => if truthy s then check s else None
  | _ => None
  end.

(** [(value, minLength = d) => ... value.length < minLength ? `${what}
    must be at least ${minLength} characters` : null]. *)
Definition minLengthRule (what : string) (d : nat) : RuleFunction :=
  OfValueAndLength (fun value minLength =>
    let minLength := default d minLength in
    whenPresent value (fun s =>
      if Nat.ltb (String.length s) minLength
      then Some (what +:+ " must be at least " +:+ pretty minLength +:+ " characters")
      else None)).

(** The object [validationRules]: own properties in the order written,
    which is the order [Object.entries] lists them in. *)
Definition validationRules : list (string * list (string * RuleFunction)) :=
  [("email",
    [("required", required "Email is required");
     ("format", OfValue (fun value =>
        whenPresent value (fun s =>
          if negb (test emailRegex s)
          then Some "Please enter a valid email address" else None)))]);
   ("password",
    [("required", required "Password is required");
     ("minLength", minLengthRule "Password" 6);
     ("strength", OfValue (fun value =>
        whenPresent value (fun s =>
          if Nat.ltb (String.length s) 8
          then Some "Password should be at least 8 characters for better security"
          else None)))]);
   ("confirmPassword",
    [("required", required "Please confirm your password");
     ("match", OfValueAndPassword (fun value originalPassword =>
        whenPresent value (fun s =>
          match originalPassword with
          | JsStr p => if String.eqb s p then None else Some "Passwords do not match"
          | _ => Some "Passwords do not match"
          end)))]);
   ("fullName",
    [("required", required "Full name is required");
     ("minLength", minLengthRule "Full name" 2);
     ("format", OfValue (fun value =>
        whenPresent value (fun s =>
          if negb (test nameRegex s)
          then Some "Please enter a valid name" else None)))])].

(** [additionalData]; a missing [minLength] is [None]. *)
Record AdditionalData : Type := mkAdditional {
  originalPassword : JsVal;
  minLength : option nat
}.

Fixpoint lookupRules {A : Type} (name : string) (table : list (string * A)) : option A :=
  match table with
  | [] => None
  | (n, v) :: table' => if String.eqb n name then Some v else lookupRules name table'
  end.

(** The [switch] of [validateField]: the rule named [match] gets
    [additionalData.originalPassword], the rule named [minLength] gets
    [additionalData.minLength], any other rule gets the value alone (a
    second parameter is then [undefined]). In the table the rules with a
    second parameter have exactly these names. *)
Definition callRule (ruleName : string) (ruleFunction : RuleFunction) (value : JsVal) (additionalData : AdditionalData) : option string :=
  match ruleFunction with
  | OfValue f => f value
  | OfValueAndPassword f =>
      f value (if String.eqb ruleName "match"
               then originalPassword additionalData else JsUndefined)
  | OfValueAndLength f =>
      f value (if String.eqb ruleName "minLength"
               then minLength additionalData else None)
  end.

(** The loop over the rules: the first error that is not empty ends
    it. *)
Fixpoint firstError (rules : list (string * RuleFunction)) (value : JsVal) (additionalData : AdditionalData) : option string :=
  match rules with
  | [] => None
  | (ruleName, ruleFunction) :: rules' =>
      match callRule ruleName ruleFunction value additionalData with
      | Some error =>
          if truthy error then Some error
          else firstError rules' value additionalData
      | None => firstError rules' value additionalData
      end
  end.

(** [validateField(fieldName, value, additionalData)]. A field name that
    is no own property of [validationRules] has no rules: either the
    lookup gives [undefined], or it gives something inherited from
    [Object.prototype], which has no entries. *)
Definition validateField (fieldName : string) (value : JsVal) (additionalData : AdditionalData) : option string :=
  match lookupRules fieldName validationRules with
  | None => None
  | Some rules => firstError rules value additionalData
  end.

(** [formData[fieldName]] for a form whose own properties are
    [formData]. *)
Definition field (formData : gmap string JsVal) (fieldName : string) : JsVal :=
  default JsUndefined (formData !! fieldName).

(** The [additionalData] that [validateForm] builds for a field. *)
Definition additionalDataFor (formData : gmap string JsVal) (fieldName : string) : AdditionalData :=
  {| originalPassword := field formData "password";
     minLength := Some (if String.eqb fieldName "password" then 6 else 2) |}.

(** The callback of [fieldsToValidate.forEach]: one field is validated
    and its error, if any, is stored under its name. *)
Definition checkField (formData : gmap string JsVal) (errors : gmap string string) (fieldName : string) : gmap string string :=
  match validateField fieldName (field formData fieldName)
          (additionalDataFor formData fieldName) with
  | Some error => if truthy error then <[fieldName := error]> errors else errors
  | None => errors
  end.

(** [validateForm(formData, fieldsToValidate)]: the object [errors]. *)
Definition validateForm (formData : gmap string JsVal) (fieldsToValidate : list string) : gmap string string :=
  fold_left (checkField formData) fieldsToValidate ∅.

(** A non-empty string of characters that are neither white space nor
    [@]. *)
Definition word (s : string) : Prop := s <> "" /\ all notSpaceOrAt s = true.

End Validation.

(** * Properties *)

(** ** Strings *)

Module JsStringFacts.
Import JsString.

Lemma startsWith_spec needle hay :
startsWith needle hay = true <-> exists suf, hay = String.append needle suf.
Proof.
revert hay. induction needle as [|a n IH]; intros hay; simpl.
- split; [intros _; exists hay; reflexivity | reflexivity].
- destruct hay as [|b h].
  + split; [discriminate | intros [suf H]; discriminate].
  + rewrite andb_true_iff, Ascii.eqb_eq, IH. split.
    * intros [-> [suf ->]]. exists suf. reflexivity.
    * intros [suf H]. injection H as -> ->. split; [reflexivity | eauto].
Qed.

Lemma includes_spec needle hay :
includes needle hay = true <-> Occurs needle hay.
Proof.
unfold Occurs. induction hay as [|b h IH].
- simpl. rewrite orb_false_r, startsWith_spec. split.
  + intros [suf H]. exists EmptyString, suf. exact H.
  + intros [pre [suf H]]. destruct pre; simpl in H.
    * eauto.
    * discriminate.
- cbn [includes]. rewrite orb_true_iff, startsWith_spec, IH. split.
  + intros [[suf H] | [pre [suf H]]].
    * exists EmptyString, suf. exact H.
    * exists (String b pre), suf. simpl. rewrite H. reflexivity.
  + intros [pre [suf H]]. destruct pre as [|c pre]; simpl in H.
    * left. eauto.
    * right. injection H as _ ->. eauto.
Qed.

Lemma includes_false needle hay :
includes needle hay = false <-> ~ Occurs needle hay.
Proof.
rewrite <- includes_spec. destruct (includes needle hay); split;
  congruence.
Qed.

Lemma includes_either n1 n2 hay :
  includes n1 hay || includes n2 hay = true <-> Occurs n1 hay \/ Occurs n2 hay.
Proof. rewrite orb_true_iff, !includes_spec. reflexivity. Qed.

Lemma includes_neither n1 n2 hay :
  includes n1 hay || includes n2 hay = false <->
  ~ (Occurs n1 hay \/ Occurs n2 hay).
Proof.
  rewrite <- includes_either.
  destruct (includes n1 hay || includes n2 hay); split; congruence.
Qed.

Lemma truthy_nonempty s : truthy s = true <-> s <> "".
Proof. unfold truthy. destruct s; simpl; split; congruence. Qed.

Lemma truthy_empty s : truthy s = false <-> s = "".
Proof. unfold truthy. destruct s; simpl; split; congruence. Qed.

End JsStringFacts.

(** ** The service: keys, parameters and expiry *)

Module NewsServiceFacts.
Import JsString JsStringFacts NewsService.

(** C6. The key derivation of [fetchNews] raises a TypeError as soon as
    the category or the query is missing (or null): the missing property
    has become [null] before [_generateCacheKey] sees it, and its defaults
    only replace [undefined]. With both present the key is the lower-cased
    category, a dash, and the lower-cased trimmed query; called directly
    with nothing, [_generateCacheKey] does use its defaults. *)
Theorem fetchNews_cacheKey_absent :
  (forall q, fetchNews_cacheKey JsUndefined q =
             Throw (noProperty "null" "toLowerCase")) /\
  (forall q, fetchNews_cacheKey JsNull q =
             Throw (noProperty "null" "toLowerCase")) /\
  (forall c, fetchNews_cacheKey (JsStr c) JsUndefined =
             Throw (noProperty "null" "toLowerCase")) /\
  (forall c, fetchNews_cacheKey (JsStr c) JsNull =
             Throw (noProperty "null" "toLowerCase")) /\
  (forall s u now, (fetchNews s JsUndefined JsUndefined u now).2 =
                   Failed (noProperty "null" "toLowerCase")) /\
  (forall c q, fetchNews_cacheKey (JsStr c) (JsStr q) =
               Ok (toLowerCase c +:+ "-" +:+ trim (toLowerCase q))) /\
  _generateCacheKey JsUndefined JsUndefined = Ok "all-".
Proof.
  repeat split; intros; reflexivity.
Qed.

Lemma getParam_app_r name ps qs :
  getParam name ps = None -> getParam name (ps ++ qs) = getParam name qs.
Proof.
  induction ps as [|[n w] ps IH]; cbn; [reflexivity |].
  destruct (String.eqb n name); [discriminate | auto].
Qed.

Lemma categoryParams_no_q c : getParam "q" (categoryParams c) = None.
Proof.
  destruct c as [| |s]; try reflexivity. unfold categoryParams.
  destruct (truthy s && negb (String.eqb s "All")); reflexivity.
Qed.

Lemma queryParams_no_category q : getParam "category" (queryParams q) = None.
Proof.
  destruct q as [| |s]; try reflexivity. unfold queryParams.
  destruct (truthy s && truthy (trim s)); reflexivity.
Qed.

Lemma getParam_category c q :
  getParam "category" (requestParams c q) =
  match c with
  | JsStr s =>
      if truthy s && negb (String.eqb s "All")
      then Some (_mapCategoryToBackend s) else None
  | _ => None
  end.
Proof.
  unfold requestParams.
  destruct c as [| |s]; cbn [categoryParams app];
    try apply queryParams_no_category.
  destruct (truthy s && negb (String.eqb s "All")); cbn;
    [reflexivity | apply queryParams_no_category].
Qed.

Lemma getParam_q c q :
  getParam "q" (requestParams c q) =
  match q with
  | JsStr s => if truthy s && truthy (trim s) then Some (Str (trim s)) else None
  | _ => None
  end.
Proof.
  unfold requestParams.
  rewrite getParam_app_r by apply categoryParams_no_q.
  destruct q as [| |s]; try reflexivity. unfold queryParams.
  destruct (truthy s && truthy (trim s)); reflexivity.
Qed.

Lemma mapCategory_other s :
  s ∉ categoryTable.*1 -> s ∉ objectPrototypeKeys ->
  _mapCategoryToBackend s = Str (toLowerCase s).
Proof.
  intros Hown Hproto. unfold _mapCategoryToBackend, categoryMap_get, categoryMap.
  apply not_elem_of_list_to_map in Hown. rewrite Hown.
  rewrite bool_decide_eq_false_2 by exact Hproto. reflexivity.
Qed.

(** C7, as the code has it. The [category] parameter is left out exactly
    when the category is missing, null, empty or the string "All" (with
    that capital); otherwise it carries the slug of the table for the
    seven display names and the lower-cased category for any other name
    that [Object.prototype] does not define. The [q] parameter is left
    out exactly when the query is missing, null or blank after trimming,
    and otherwise carries the trimmed query. *)
Theorem requestParams_spec (c q : JsVal) :
  (getParam "category" (requestParams c q) = None <->
     c = JsUndefined \/ c = JsNull \/ c = JsStr "" \/ c = JsStr "All") /\
  (forall s, c = JsStr s -> s <> "" -> s <> "All" ->
     getParam "category" (requestParams c q) = Some (_mapCategoryToBackend s)) /\
  map _mapCategoryToBackend
    ["General"; "Technology"; "Sports"; "Entertainment"; "Business";
     "Health"; "Science"] =
    [Str "general"; Str "technology"; Str "sports"; Str "entertainment";
     Str "business"; Str "health"; Str "science"] /\
  (forall s, s ∉ categoryTable.*1 -> s ∉ objectPrototypeKeys ->
     _mapCategoryToBackend s = Str (toLowerCase s)) /\
  (getParam "q" (requestParams c q) = None <->
     q = JsUndefined \/ q = JsNull \/ exists s, q = JsStr s /\ trim s = "") /\
  (forall s, q = JsStr s -> trim s <> "" ->
     getParam "q" (requestParams c q) = Some (Str (trim s))).
Proof.
  rewrite getParam_category, getParam_q.
  split; [| split; [| split; [| split; [| split]]]].
  - destruct c as [| |s]; [tauto | tauto |].
    destruct (truthy s) eqn:Ht; cbn [andb].
    + destruct (String.eqb_spec s "All") as [-> | Hne]; cbn [negb].
      * tauto.
      * apply truthy_nonempty in Ht. split; [discriminate |].
        intros [H | [H | [H | H]]]; congruence.
    + apply truthy_empty in Ht. subst s. tauto.
  - intros s -> Hne Hall.
    apply truthy_nonempty in Hne. rewrite Hne.
    destruct (String.eqb_spec s "All"); [contradiction | reflexivity].
  - reflexivity.
  - exact mapCategory_other.
  - destruct q as [| |s]; [tauto | tauto |].
    destruct (truthy s) eqn:Ht; cbn [andb].
    + destruct (truthy (trim s)) eqn:Htt.
      * apply truthy_nonempty in Htt. split; [discriminate |].
        intros [H | [H | (s' & H & Hs')]]; try discriminate.
        injection H as <-. contradiction.
      * apply truthy_empty in Htt. split; [| reflexivity].
        intros _. right. right. eauto.
    + apply truthy_empty in Ht. subst s. split; [| reflexivity].
      intros _. right. right. exists "". split; reflexivity.
  - intros s -> Hne. apply truthy_nonempty in Hne. rewrite Hne.
    destruct (truthy s) eqn:Ht; [reflexivity |].
    apply truthy_empty in Ht. subst s. discriminate Hne.
Qed.

(** C7 as the specification words it fails whichever spelling the
    sentinel has. With the lower-case "all" of the cache key: the category
    "all" is not left out, the request carries [category=all]. With the
    display name "All": the empty category is left out although it is
    neither missing nor the sentinel. *)
Lemma category_omission_not_as_stated :
  ~ (forall c q,
       getParam "category" (requestParams c q) = None <->
       c = JsUndefined \/ c = JsNull \/ c = JsStr "all") /\
  ~ (forall c q,
       getParam "category" (requestParams c q) = None <->
       c = JsUndefined \/ c = JsNull \/ c = JsStr "All").
Proof.
  split; intros H.
  - destruct (H (JsStr "all") JsUndefined) as [_ Hback].
    assert (Hsent : getParam "category" (requestParams (JsStr "all") JsUndefined)
                    = Some (Str "all")) by reflexivity.
    rewrite Hback in Hsent by tauto. discriminate Hsent.
  - destruct (H (JsStr "") JsUndefined) as [Hforth _].
    destruct (Hforth eq_refl) as [Habs | [Habs | Habs]]; discriminate Habs.
Qed.

(** C3. The time-to-live is 15 minutes. As long as the entry that
    [_setCache] wrote for a key at time [T] is the one in the cache, a
    read before [T] plus 15 minutes returns the stored payload (its
    articles, counts and page) with [fromCache] set to [true] and leaves
    the cache as it is; a read at or after that time finds nothing and
    deletes the entry. *)
Theorem getFromCache_ttl (s0 s : Service) (k : string) (payload : ResponseData) (T now : Z) :
  cache s !! k = cache (_setCache s0 k payload T) !! k ->
  cacheTimeout = 900000%Z /\
  ((now < T + cacheTimeout)%Z ->
     _getFromCache s k now =
       (s, Some (mkResponse (articles payload) (totalResults payload)
                   (page payload) (pageSize payload) (Some true)))) /\
  ((T + cacheTimeout <= now)%Z ->
     _getFromCache s k now = (withCache (delete k (cache s)) s, None) /\
     cache (_getFromCache s k now).1 !! k = None).
Proof.
  intros Hk. split; [reflexivity |].
  assert (Hk' : cache s !! k =
                Some {| data := withFromCache false payload; timestamp := T |}).
  { rewrite Hk. unfold _setCache. cbn. apply lookup_insert_eq. }
  unfold _getFromCache. rewrite Hk'.
  cbn [_isCacheValid timestamp]. split; intros Hnow.
  - assert (Hv : (now - T <? cacheTimeout)%Z = true) by (apply Z.ltb_lt; lia).
    rewrite Hv. reflexivity.
  - assert (Hv : (now - T <? cacheTimeout)%Z = false) by (apply Z.ltb_ge; lia).
    rewrite Hv. split; [reflexivity |]. cbn. apply lookup_delete_eq.
Qed.

Lemma getFromCache_ttl_witness :
  _getFromCache (_setCache initial "technology-" samplePayload 1000) "technology-" 900999 =
    (_setCache initial "technology-" samplePayload 1000,
     Some (mkResponse
             (Some [mkArticle "1" "First" "" "https://example.com/1";
                    mkArticle "2" "Second" "" "https://example.com/2"])
             2 1 20 (Some true))) /\
  cache (_getFromCache (_setCache initial "technology-" samplePayload 1000)
           "technology-" 901000).1 !! "technology-" = None.
Proof.
  pose proof (getFromCache_ttl initial
                (_setCache initial "technology-" samplePayload 1000)
                "technology-" samplePayload 1000) as H.
  split.
  - apply (H 900999%Z); reflexivity.
  - apply (H 901000%Z); [reflexivity | discriminate].
Defined.

End NewsServiceFacts.

(** ** The service: in-flight requests *)

Module DedupFacts.
Import JsString JsStringFacts NewsService NewsServiceFacts.

Lemma shrinks_refl s : shrinks s s.
Proof. intros k e H. exact H. Qed.

Lemma shrinks_trans s1 s2 s3 : shrinks s1 s2 -> shrinks s2 s3 -> shrinks s1 s3.
Proof. intros H12 H23 k e H. auto. Qed.

Lemma shrinks_None s s' k : shrinks s s' -> cache s !! k = None -> cache s' !! k = None.
Proof.
  intros Hs Hn. destruct (cache s' !! k) as [e|] eqn:He; [| reflexivity].
  apply Hs in He. congruence.
Qed.

Lemma shrinks_invalid s s' k now :
  shrinks s s' -> _isCacheValid (cache s !! k) now = false ->
  _isCacheValid (cache s' !! k) now = false.
Proof.
  intros Hs Hv. destruct (cache s' !! k) as [e|] eqn:He; [| reflexivity].
  apply Hs in He. rewrite He in Hv. exact Hv.
Qed.

Lemma shrinks_miss s s' k call : shrinks s s' -> cacheMiss s k call -> cacheMiss s' k call.
Proof.
  intros Hs [Hb | Hv]; [left; exact Hb | right].
  eapply shrinks_invalid; eauto.
Qed.

Lemma cleanup_shrinks s now : shrinks s (_cleanupCache s now).
Proof.
  intros k e H. cbn in H. apply map_lookup_filter_Some in H. tauto.
Qed.

Lemma cleanup_valid s k now :
  _isCacheValid (cache (_cleanupCache s now) !! k) now =
  _isCacheValid (cache s !! k) now.
Proof.
  cbn [_cleanupCache withCache cache].
  destruct (cache s !! k) as [e|] eqn:He.
  - cbn [_isCacheValid].
    destruct (now - timestamp e <? cacheTimeout)%Z eqn:Hv.
    + assert (Hk : filter (fresh now) (cache s) !! k = Some e).
      { apply map_lookup_filter_Some. split; [exact He |].
        unfold fresh. cbn. apply Z.ltb_lt, Hv. }
      rewrite Hk. cbn. exact Hv.
    + assert (Hk : filter (fresh now) (cache s) !! k = None).
      { apply map_lookup_filter_None. right. intros e' He' Hf.
        rewrite He in He'. injection He' as <-.
        unfold fresh in Hf. cbn in Hf. apply Z.ltb_ge in Hv. lia. }
      rewrite Hk. reflexivity.
  - assert (Hk : filter (fresh now) (cache s) !! k = None).
    { apply map_lookup_filter_None. left. exact He. }
    rewrite Hk. reflexivity.
Qed.

Lemma getFromCache_shrinks s k now : shrinks s (_getFromCache s k now).1.
Proof.
  unfold _getFromCache.
  destruct (_isCacheValid (cache s !! k) now); [apply shrinks_refl |].
  destruct (cache s !! k) eqn:He; [| apply shrinks_refl].
  intros k' e' H. cbn in H. apply lookup_delete_Some in H. tauto.
Qed.

Lemma getFromCache_rest s k now :
  let s' := (_getFromCache s k now).1 in
  ongoingRequests s' = ongoingRequests s /\ awaiting s' = awaiting s /\
  settled s' = settled s /\ performed s' = performed s.
Proof.
  unfold _getFromCache.
  destruct (_isCacheValid (cache s !! k) now); [cbn; auto |].
  destruct (cache s !! k); cbn; auto.
Qed.

Lemma getFromCache_answer s k now :
  match (_getFromCache s k now).2 with
  | Some d =>
      _isCacheValid (cache s !! k) now = true /\
      exists e, cache s !! k = Some e /\ d = withFromCache true (data e)
  | None =>
      _isCacheValid (cache s !! k) now = false /\
      cache (_getFromCache s k now).1 !! k = None
  end.
Proof.
  unfold _getFromCache.
  destruct (_isCacheValid (cache s !! k) now) eqn:Hv.
  - destruct (cache s !! k) as [e|] eqn:He; [| discriminate Hv].
    cbn. eauto.
  - destruct (cache s !! k) as [e|] eqn:He; cbn.
    + split; [reflexivity | apply lookup_delete_eq].
    + auto.
Qed.

(** What holds when [fetchNews] reaches its test of [ongoingRequests]. *)
Lemma beforeLookup_spec s k u now :
  let '(s1, cached) := beforeLookup s k u now in
  shrinks s s1 /\
  ongoingRequests s1 = ongoingRequests s /\ awaiting s1 = awaiting s /\
  settled s1 = settled s /\ performed s1 = performed s /\
  match cached with
  | Some _ => u = true /\ _isCacheValid (cache s !! k) now = true
  | None => cacheMiss s k (u, now) /\ (u = true -> cache s1 !! k = None)
  end.
Proof.
  unfold beforeLookup. destruct u.
  - pose proof (getFromCache_shrinks (_cleanupCache s now) k now) as Hs.
    pose proof (getFromCache_rest (_cleanupCache s now) k now) as Hr.
    pose proof (getFromCache_answer (_cleanupCache s now) k now) as Ha.
    destruct (_getFromCache (_cleanupCache s now) k now) as [s1 cached].
    cbn [fst snd] in *. destruct Hr as (Ho & Hw & Hse & Hp).
    split; [eapply shrinks_trans; [apply cleanup_shrinks | exact Hs] |].
    repeat (split; [assumption |]).
    rewrite cleanup_valid in Ha. destruct cached.
    + tauto.
    + split; [right; tauto | tauto].
  - split; [apply cleanup_shrinks |]. cbn.
    repeat (split; [reflexivity |]). split; [left; reflexivity | discriminate].
Qed.

(** [fetchNews] in terms of [beforeLookup], for a key that is derived. *)
Lemma fetchNews_unfold s c q u now k :
  fetchNews_cacheKey c q = Ok k ->
  fetchNews s c q u now =
    let '(s1, cached) := beforeLookup s k u now in
    match cached with
    | Some d => (s1, FromCache d)
    | None =>
        match ongoingRequests s1 !! k with
        | Some pid => (s1, Joined pid)
        | None =>
            startRequest s1 (mkFrame k u (orDefault JsNull c) (orDefault JsNull q))
        end
    end.
Proof.
  unfold fetchNews_cacheKey, fetchNews, beforeLookup. intros ->.
  destruct u; reflexivity.
Qed.

(** *** The invariant of a run that clears only when idle *)

Lemma Inv_initial : Inv initial.
Proof.
  repeat split; intros ? ? H; cbn in H; rewrite lookup_empty in H;
    discriminate.
Qed.

(** A step that only removes cache entries keeps the invariant. *)
Lemma Inv_shrinks s s' :
  shrinks s s' ->
  ongoingRequests s' = ongoingRequests s -> awaiting s' = awaiting s ->
  performed s' = performed s ->
  Inv s -> Inv s'.
Proof.
  intros Hs Ho Ha Hp (HR & HL & HU & HF).
  unfold Inv, Registered, Live, Uncached, Fresh. rewrite Ho, Ha, Hp.
  repeat split; auto.
  intros pid f Hf Hu. eapply shrinks_None; eauto.
Qed.

Lemma Inv_startRequest s k u c q :
  ongoingRequests s !! k = None ->
  (u = true -> cache s !! k = None) ->
  Inv s -> Inv (startRequest s (mkFrame k u c q)).1.
Proof.
  intros Hfree Hmiss (HR & HL & HU & HF).
  unfold startRequest. cbn [fst].
  repeat split.
  - intros pid f. cbn. intros Hf.
    apply lookup_insert_Some in Hf as [[<- <-] | [Hne Hf]]; cbn.
    + apply lookup_insert_eq.
    + rewrite lookup_insert_ne; [apply HR, Hf |].
      intros Hk. apply HR in Hf. rewrite <- Hk in Hf. congruence.
  - intros k' pid. cbn. intros Hk.
    apply lookup_insert_Some in Hk as [[<- <-] | [Hne Hk]].
    + eexists. rewrite lookup_insert_eq. split; reflexivity.
    + destruct (HL _ _ Hk) as (f & Hf & Hkey).
      exists f. split; [| exact Hkey].
      rewrite lookup_insert_ne; [exact Hf |].
      apply HF in Hf. lia.
  - intros pid f. cbn. intros Hf Hu.
    apply lookup_insert_Some in Hf as [[<- <-] | [Hne Hf]].
    + apply Hmiss, Hu.
    + exact (HU _ _ Hf Hu).
  - intros pid f. cbn. intros Hf.
    apply lookup_insert_Some in Hf as [[<- <-] | [Hne Hf]]; [lia |].
    apply HF in Hf. lia.
Qed.

Lemma Inv_fetchNews s c q u now : Inv s -> Inv (fetchNews s c q u now).1.
Proof.
  intros HI.
  destruct (fetchNews_cacheKey c q) as [k | e] eqn:Hkey.
  - rewrite (fetchNews_unfold _ _ _ _ _ _ Hkey).
    pose proof (beforeLookup_spec s k u now) as Hb.
    destruct (beforeLookup s k u now) as [s1 cached].
    destruct Hb as (Hs & Ho & Ha & _ & Hp & Hc).
    assert (HI1 : Inv s1) by (eapply Inv_shrinks; eauto).
    destruct cached as [d|]; [exact HI1 |].
    destruct (ongoingRequests s1 !! k) eqn:Hk; [exact HI1 |].
    apply Inv_startRequest; tauto.
  - unfold fetchNews_cacheKey in Hkey. unfold fetchNews. rewrite Hkey. cbn [fst].
    eapply Inv_shrinks; eauto using cleanup_shrinks.
Qed.

Lemma Inv_settle s pid o now : Inv s -> Inv (settle s pid o now).
Proof.
  intros (HR & HL & HU & HF). unfold settle.
  destruct (awaiting s !! pid) as [f|] eqn:Hf; [| repeat split; assumption].
  set (s1 := match o with
             | Fulfilled r =>
                 if frameUseCache f then _setCache s (frameKey f) r now else s
             | Rejected _ => s
             end).
  assert (Hrest : ongoingRequests s1 = ongoingRequests s /\
                  awaiting s1 = awaiting s /\ performed s1 = performed s).
  { subst s1. destruct o; [destruct (frameUseCache f) |]; cbn; auto. }
  destruct Hrest as (Ho & Ha & Hp).
  assert (Hcache : forall k, k <> frameKey f -> cache s1 !! k = cache s !! k).
  { intros k Hk. subst s1.
    destruct o; [destruct (frameUseCache f) |]; cbn; try reflexivity.
    apply lookup_insert_ne. congruence. }
  assert (Hother : forall pid' f', pid' <> pid -> awaiting s !! pid' = Some f' ->
                     frameKey f' <> frameKey f).
  { intros pid' f' Hne Hf' Hk. apply HR in Hf, Hf'. rewrite Hk in Hf'. congruence. }
  rewrite Ho, Ha, Hp. repeat split.
  - intros pid' f'. cbn. intros H.
    apply lookup_delete_Some in H as [Hne H].
    rewrite lookup_delete_ne
      by (apply not_eq_sym, (Hother pid'); [congruence | exact H]).
    exact (HR _ _ H).
  - intros k pid'. cbn. intros H.
    apply lookup_delete_Some in H as [Hne H].
    destruct (HL _ _ H) as (f' & Hf' & Hk). exists f'. split; [| exact Hk].
    rewrite lookup_delete_ne; [exact Hf' |].
    intros <-. rewrite Hf in Hf'. injection Hf' as <-. congruence.
  - intros pid' f'. cbn. intros H Hu.
    apply lookup_delete_Some in H as [Hne H].
    rewrite Hcache by (apply (Hother pid'); [congruence | exact H]).
    exact (HU _ _ H Hu).
  - intros pid' f'. cbn. intros H.
    apply lookup_delete_Some in H as [Hne H]. exact (HF _ _ H).
Qed.

Lemma Inv_clearCacheFor s c q : Inv s -> Inv (clearCacheFor s c q).
Proof.
  intros HI. unfold clearCacheFor.
  destruct (_generateCacheKey c q) as [k|]; [| exact HI].
  apply (Inv_shrinks s); [| reflexivity | reflexivity | reflexivity | exact HI].
  intros k' e H. cbn in H. apply lookup_delete_Some in H. tauto.
Qed.

Lemma Inv_clearCache s : awaiting s = ∅ -> Inv (clearCache s).
Proof.
  intros Hidle. unfold clearCache.
  repeat split; intros ? ? H; cbn in H;
    rewrite ?Hidle, lookup_empty in H; discriminate.
Qed.

Lemma Inv_step s e :
  (isClearCache e = true -> awaiting s = ∅) -> Inv s -> Inv (step s e).
Proof.
  destruct e; cbn; intros Hc HI.
  - apply Inv_fetchNews, HI.
  - apply Inv_settle, HI.
  - destruct (getFromCache_rest s cacheKey now) as (Ho & Ha & _ & Hp).
    eapply Inv_shrinks; eauto using getFromCache_shrinks.
  - apply Inv_clearCache, Hc. reflexivity.
  - apply Inv_clearCacheFor, HI.
Qed.

Lemma Inv_run evs : forall s, clearsWhenIdle s evs -> Inv s -> Inv (run s evs).
Proof.
  induction evs as [|e evs IH]; intros s Hc HI; [exact HI |].
  destruct Hc as [He Hc]. cbn.
  apply IH; [exact Hc | apply Inv_step; assumption].
Qed.

Lemma Registered_AtMostOne s : Registered s -> AtMostOneInFlight s.
Proof.
  intros HR p1 p2 f1 f2 H1 H2 Hk.
  apply HR in H1, H2. rewrite Hk in H1. congruence.
Qed.

(** *** Calls that start a request and calls that join one *)

(** A call that misses the cache: what it does is decided by the
    registration of its key alone. *)
Lemma fetchNews_miss s c q u now k :
  fetchNews_cacheKey c q = Ok k ->
  cacheMiss s k (u, now) ->
  exists s1,
    shrinks s s1 /\ ongoingRequests s1 = ongoingRequests s /\
    awaiting s1 = awaiting s /\ settled s1 = settled s /\
    performed s1 = performed s /\ (u = true -> cache s1 !! k = None) /\
    fetchNews s c q u now =
      match ongoingRequests s !! k with
      | Some pid => (s1, Joined pid)
      | None =>
          startRequest s1 (mkFrame k u (orDefault JsNull c) (orDefault JsNull q))
      end.
Proof.
  intros Hkey Hmiss. rewrite (fetchNews_unfold _ _ _ _ _ _ Hkey).
  pose proof (beforeLookup_spec s k u now) as Hb.
  destruct (beforeLookup s k u now) as [s1 cached].
  destruct Hb as (Hs & Ho & Ha & Hse & Hp & Hc).
  destruct cached as [d|].
  - destruct Hc as [-> Hv]. destruct Hmiss as [Hm | Hm]; cbn in Hm; congruence.
  - exists s1. rewrite Ho. tauto.
Qed.

Lemma fetchNews_start s c q u now k :
  fetchNews_cacheKey c q = Ok k ->
  ongoingRequests s !! k = None ->
  cacheMiss s k (u, now) ->
  exists s1,
    shrinks s s1 /\ ongoingRequests s1 = ongoingRequests s /\
    awaiting s1 = awaiting s /\ settled s1 = settled s /\
    performed s1 = performed s /\ (u = true -> cache s1 !! k = None) /\
    fetchNews s c q u now =
      startRequest s1 (mkFrame k u (orDefault JsNull c) (orDefault JsNull q)).
Proof.
  intros Hkey Hfree Hmiss.
  destruct (fetchNews_miss s c q u now k Hkey Hmiss) as (s1 & H).
  rewrite Hfree in H. exists s1. exact H.
Qed.

Lemma fetchNews_join s c q u now k pid :
  fetchNews_cacheKey c q = Ok k ->
  ongoingRequests s !! k = Some pid ->
  cacheMiss s k (u, now) ->
  exists s1,
    shrinks s s1 /\ ongoingRequests s1 = ongoingRequests s /\
    awaiting s1 = awaiting s /\ settled s1 = settled s /\
    performed s1 = performed s /\
    fetchNews s c q u now = (s1, Joined pid).
Proof.
  intros Hkey Hreg Hmiss.
  destruct (fetchNews_miss s c q u now k Hkey Hmiss) as (s1 & H).
  rewrite Hreg in H. exists s1. tauto.
Qed.

Lemma fetchNews_join_uncached s c q now k pid :
  fetchNews_cacheKey c q = Ok k ->
  ongoingRequests s !! k = Some pid ->
  cacheMiss s k (true, now) ->
  cache (fetchNews s c q true now).1 !! k = None.
Proof.
  intros Hkey Hreg Hmiss.
  destruct (fetchNews_miss s c q true now k Hkey Hmiss)
    as (s1 & _ & _ & _ & _ & _ & Hnone & ->).
  rewrite Hreg. cbn. auto.
Qed.

Lemma fetchAll_join c q k pid calls : forall s,
  fetchNews_cacheKey c q = Ok k ->
  ongoingRequests s !! k = Some pid ->
  Forall (cacheMiss s k) calls ->
  let '(s', rs) := fetchAll s c q calls in
  rs = map (fun _ => Joined pid) calls /\
  shrinks s s' /\ ongoingRequests s' = ongoingRequests s /\
  awaiting s' = awaiting s /\ settled s' = settled s /\
  performed s' = performed s.
Proof.
  induction calls as [|[u now] calls IH]; intros s Hkey Hreg Hmiss.
  - cbn. split; [reflexivity |]. split; [apply shrinks_refl |]. auto.
  - apply Forall_cons in Hmiss as [Hm Hmiss]. cbn [fetchAll].
    destruct (fetchNews_join s c q u now k pid Hkey Hreg Hm)
      as (s1 & Hs & Ho & Ha & Hse & Hp & ->).
    assert (Hreg1 : ongoingRequests s1 !! k = Some pid) by (rewrite Ho; exact Hreg).
    assert (Hmiss1 : Forall (cacheMiss s1 k) calls).
    { eapply Forall_impl; [exact Hmiss |]. intros call. apply shrinks_miss, Hs. }
    specialize (IH s1 Hkey Hreg1 Hmiss1).
    destruct (fetchAll s1 c q calls) as [s' rs].
    destruct IH as (-> & Hs' & Ho' & Ha' & Hse' & Hp').
    split; [reflexivity |].
    split; [eapply shrinks_trans; eauto |].
    repeat split; congruence.
Qed.

Lemma Inv_fetchAll c q calls : forall s, Inv s -> Inv (fetchAll s c q calls).1.
Proof.
  induction calls as [|[u now] calls IH]; intros s HI; [exact HI |].
  cbn [fetchAll].
  pose proof (Inv_fetchNews s c q u now HI) as H1.
  destruct (fetchNews s c q u now) as [s1 r].
  specialize (IH s1 H1). destruct (fetchAll s1 c q calls) as [s2 rs].
  exact IH.
Qed.

(** C2, as the code has it. In a run where [clearCache] is not called
    while a request is in flight: at most one network call is in flight
    per key; a call that finds a registration for its key and misses the
    cache gets that promise, which is still in flight, and starts
    nothing; and N calls with the same category and query, made while no
    request for the key is registered and none hitting the cache, invoke
    [_performRequest] once, all get its promise, and when it settles
    every caller observes that one outcome and the registration is
    gone. *)
Theorem dedup_one_request_per_key (evs : list Event) (c q : JsVal) (k : string) :
  clearsWhenIdle initial evs ->
  fetchNews_cacheKey c q = Ok k ->
  AtMostOneInFlight (run initial evs) /\
  (forall pid call,
     ongoingRequests (run initial evs) !! k = Some pid ->
     cacheMiss (run initial evs) k call ->
     (exists f, awaiting (run initial evs) !! pid = Some f /\ frameKey f = k) /\
     exists s',
       fetchNews (run initial evs) c q call.1 call.2 = (s', Joined pid) /\
       performed s' = performed (run initial evs) /\
       awaiting s' = awaiting (run initial evs)) /\
  (forall call calls o now,
     ongoingRequests (run initial evs) !! k = None ->
     Forall (cacheMiss (run initial evs) k) (call :: calls) ->
     performed (fetchAll (run initial evs) c q (call :: calls)).1 =
       S (performed (run initial evs)) /\
     (fetchAll (run initial evs) c q (call :: calls)).2 =
       Started (performed (run initial evs)) ::
       map (fun _ => Joined (performed (run initial evs))) calls /\
     AtMostOneInFlight (fetchAll (run initial evs) c q (call :: calls)).1 /\
     Forall
       (fun r =>
          callerOutcome
            (settle (fetchAll (run initial evs) c q (call :: calls)).1
               (performed (run initial evs)) o now) r = Some o)
       (fetchAll (run initial evs) c q (call :: calls)).2 /\
     ongoingRequests
       (settle (fetchAll (run initial evs) c q (call :: calls)).1
          (performed (run initial evs)) o now) !! k = None).
Proof.
  intros Hclear Hkey.
  pose proof (Inv_run evs initial Hclear Inv_initial) as HI.
  set (s := run initial evs) in *.
  split; [apply Registered_AtMostOne, HI |]. split.
  - intros pid [u now] Hreg Hmiss.
    split; [apply HI, Hreg |].
    destruct (fetchNews_join s c q u now k pid Hkey Hreg Hmiss)
      as (s1 & _ & _ & Ha & _ & Hp & Hf).
    exists s1. auto.
  - intros [u now] calls o now' Hfree Hmiss.
    pose proof (Inv_fetchAll c q ((u, now) :: calls) s HI) as HI'.
    apply Forall_cons in Hmiss as [Hm Hmiss].
    cbn [fetchAll] in *.
    destruct (fetchNews_start s c q u now k Hkey Hfree Hm)
      as (s1 & Hs & Ho & Ha & Hse & Hp & _ & Hf).
    rewrite Hf in *. unfold startRequest in *.
    set (f := mkFrame k u (orDefault JsNull c) (orDefault JsNull q)) in *.
    set (s2 := {| cache := cache s1;
                  ongoingRequests := <[frameKey f := performed s1]> (ongoingRequests s1);
                  awaiting := <[performed s1 := f]> (awaiting s1);
                  settled := settled s1;
                  performed := S (performed s1) |}) in *.
    assert (Hreg2 : ongoingRequests s2 !! k = Some (performed s1))
      by apply lookup_insert_eq.
    assert (Hmiss2 : Forall (cacheMiss s2 k) calls).
    { eapply Forall_impl; [exact Hmiss |]. intros call. apply shrinks_miss, Hs. }
    pose proof (fetchAll_join c q k (performed s1) calls s2 Hkey Hreg2 Hmiss2) as HJ.
    destruct (fetchAll s2 c q calls) as [s3 rs].
    destruct HJ as (-> & _ & Ho3 & Ha3 & Hse3 & Hp3).
    cbn [fst snd] in *. rewrite <- Hp.
    split; [rewrite Hp3; reflexivity |].
    split; [reflexivity |].
    split; [apply Registered_AtMostOne, HI' |].
    assert (Hw : awaiting s3 !! performed s1 = Some f)
      by (rewrite Ha3; apply lookup_insert_eq).
    unfold settle. rewrite Hw.
    split.
    + assert (Hset : forall s4, settled s4 = settled s3 ->
                callerOutcome
                  {| cache := cache s4;
                     ongoingRequests := delete (frameKey f) (ongoingRequests s4);
                     awaiting := delete (performed s1) (awaiting s4);
                     settled := <[performed s1 := o]> (settled s4);
                     performed := performed s4 |} (Started (performed s1)) = Some o /\
                callerOutcome
                  {| cache := cache s4;
                     ongoingRequests := delete (frameKey f) (ongoingRequests s4);
                     awaiting := delete (performed s1) (awaiting s4);
                     settled := <[performed s1 := o]> (settled s4);
                     performed := performed s4 |} (Joined (performed s1)) = Some o).
      { intros s4 _. cbn. rewrite lookup_insert_eq. auto. }
      apply Forall_cons. split.
      * destruct o; [destruct (frameUseCache f) |]; apply Hset; reflexivity.
      * apply Forall_forall. intros r Hr.
        apply list_elem_of_fmap in Hr as (x & -> & _).
        destruct o; [destruct (frameUseCache f) |]; apply Hset; reflexivity.
    + destruct o; [destruct (frameUseCache f) |]; cbn; apply lookup_delete_eq.
Qed.

Lemma dedup_one_request_per_key_witness :
  performed
    (fetchAll (run initial idleClear) (JsStr "Technology") (JsStr "test")
       [(true, 7%Z); (true, 8%Z); (true, 9%Z)]).1 = 2 /\
  (fetchAll (run initial idleClear) (JsStr "Technology") (JsStr "test")
     [(true, 7%Z); (true, 8%Z); (true, 9%Z)]).2 =
    [Started 1; Joined 1; Joined 1].
Proof.
  destruct (dedup_one_request_per_key idleClear (JsStr "Technology")
              (JsStr "test") "technology-test") as (_ & _ & H).
  - repeat (split; [intros H; try discriminate H; vm_compute; reflexivity |]).
    exact I.
  - reflexivity.
  - destruct (H (true, 7%Z) [(true, 8%Z); (true, 9%Z)]
                (Rejected (Error "Server error")) 10%Z) as (Hp & Hr & _).
    + vm_compute. reflexivity.
    + repeat constructor; right; vm_compute; reflexivity.
    + split; assumption.
Defined.

(** C2 as the specification words it fails once [clearCache] is called
    while a request is in flight: the registration is dropped, the next
    call with the same key invokes [_performRequest] again, and two
    network calls for one key are in flight. *)
Lemma clearCache_allows_second_request :
  performed (run initial refreshDuringFetch) = 2 /\
  ~ AtMostOneInFlight (run initial refreshDuringFetch).
Proof.
  split; [reflexivity |]. intros H.
  specialize (H 0 1 (mkFrame "technology-test" true (JsStr "Technology") (JsStr "test"))
                (mkFrame "technology-test" true (JsStr "Technology") (JsStr "test"))).
  assert (Hbad : 0 = 1) by (apply H; vm_compute; reflexivity).
  discriminate Hbad.
Qed.

(** *** Failures *)

Lemma settle_rejected s pid f e now :
  awaiting s !! pid = Some f ->
  settle s pid (Rejected e) now =
    {| cache := cache s;
       ongoingRequests := delete (frameKey f) (ongoingRequests s);
       awaiting := delete pid (awaiting s);
       settled := <[pid := Rejected e]> (settled s);
       performed := performed s |}.
Proof. intros Hf. unfold settle. rewrite Hf. reflexivity. Qed.

(** C4, as the code has it. When the request of a suspended call fails,
    in a run where [clearCache] is not called while a request is in
    flight: the cache is left exactly as it was, the registration of the
    key is removed, and the initiator and every joined caller observe
    that same error. If the call was made with [useCache], no entry
    exists for the key, [isCached] is false, and the next call with the
    key starts a new request; a next call that bypasses the cache starts
    a new request in any case. *)
Theorem failure_is_not_cached (evs : list Event) (pid : nat) (f : Frame) (e : JsError) (now : Z) :
  clearsWhenIdle initial evs ->
  awaiting (run initial evs) !! pid = Some f ->
  cache (settle (run initial evs) pid (Rejected e) now) = cache (run initial evs) /\
  ongoingRequests (settle (run initial evs) pid (Rejected e) now) !! frameKey f = None /\
  callerOutcome (settle (run initial evs) pid (Rejected e) now) (Started pid) =
    Some (Rejected e) /\
  callerOutcome (settle (run initial evs) pid (Rejected e) now) (Joined pid) =
    Some (Rejected e) /\
  (forall c q u now',
     fetchNews_cacheKey c q = Ok (frameKey f) ->
     frameUseCache f = true \/ u = false ->
     (fetchNews (settle (run initial evs) pid (Rejected e) now) c q u now').2 =
       Started (performed (run initial evs))) /\
  (frameUseCache f = true ->
     cache (settle (run initial evs) pid (Rejected e) now) !! frameKey f = None /\
     forall c q now',
       _generateCacheKey c q = Ok (frameKey f) ->
       isCached (settle (run initial evs) pid (Rejected e) now) c q now' = Ok false).
Proof.
  intros Hclear Hf.
  pose proof (Inv_run evs initial Hclear Inv_initial) as (_ & _ & HU & _).
  set (s := run initial evs) in *.
  rewrite (settle_rejected s pid f e now Hf).
  set (s' := {| cache := cache s;
                ongoingRequests := delete (frameKey f) (ongoingRequests s);
                awaiting := delete pid (awaiting s);
                settled := <[pid := Rejected e]> (settled s);
                performed := performed s |}).
  assert (Hfree : ongoingRequests s' !! frameKey f = None) by apply lookup_delete_eq.
  split; [reflexivity |]. split; [exact Hfree |].
  split; [apply lookup_insert_eq |]. split; [apply lookup_insert_eq |].
  split.
  - intros c q u now' Hkey Hmiss.
    assert (Hm : cacheMiss s' (frameKey f) (u, now')).
    { destruct Hmiss as [Hu | ->]; [right | left; reflexivity].
      cbn. rewrite (HU pid f Hf Hu). reflexivity. }
    destruct (fetchNews_start s' c q u now' (frameKey f) Hkey Hfree Hm)
      as (s1 & _ & _ & _ & _ & Hp & _ & ->).
    cbn. rewrite Hp. reflexivity.
  - intros Hu. split; [exact (HU pid f Hf Hu) |].
    intros c q now' Hkey. unfold isCached. rewrite Hkey. cbn.
    rewrite (HU pid f Hf Hu). reflexivity.
Qed.

Lemma failure_is_not_cached_witness :
  isCached
    (settle (run initial [Fetch (JsStr "Technology") (JsStr "test") true 0]) 0
       (Rejected (Error "Server error")) 5)
    (JsStr "Technology") (JsStr "test") 6 = Ok false /\
  (fetchNews
     (settle (run initial [Fetch (JsStr "Technology") (JsStr "test") true 0]) 0
        (Rejected (Error "Server error")) 5)
     (JsStr "Technology") (JsStr "test") true 6).2 = Started 1.
Proof.
  destruct (failure_is_not_cached
              [Fetch (JsStr "Technology") (JsStr "test") true 0] 0
              (mkFrame "technology-test" true (JsStr "Technology") (JsStr "test"))
              (Error "Server error") 5) as (_ & _ & _ & _ & Hnext & Hc).
  - repeat split; discriminate.
  - vm_compute. reflexivity.
  - split.
    + apply Hc; reflexivity.
    + apply Hnext; [reflexivity | left; reflexivity].
Defined.

(** C4 as the specification words it fails for a call that bypasses the
    cache while an earlier result is cached: its request (promise 1)
    fails, yet [isCached] is true afterwards and the next call is served
    from the cache instead of issuing a request. *)
Lemma failure_leaves_cached_entry :
  awaiting (run initial bypassAfterSuccess) !! 1 =
    Some (mkFrame "technology-test" false (JsStr "Technology") (JsStr "test")) /\
  isCached
    (settle (run initial bypassAfterSuccess) 1 (Rejected (Error "Server error")) 30)
    (JsStr "Technology") (JsStr "test") 40 = Ok true /\
  (fetchNews
     (settle (run initial bypassAfterSuccess) 1 (Rejected (Error "Server error")) 30)
     (JsStr "Technology") (JsStr "test") true 40).2 =
    FromCache (withFromCache true samplePayload).
Proof. repeat split; vm_compute; reflexivity. Qed.

(** *** Who writes the cache *)

(** C10. A call that starts the request for a key, a second call for
    the same key that joins it, and the success of the request: the
    second call gets the registered promise, neither call adds anything
    to the cache, the joining call leaves no suspended body of its own,
    and when the promise fulfils the cache is written if and only if the
    first call had [useCache], whatever the second asked for. With
    [useCache] false on the first and true on the second, the key has no
    entry afterwards, while both callers receive the result. *)
Theorem only_initiator_writes (s : Service) (c q : JsVal) (k : string) (u1 u2 : bool) (t1 t2 t3 : Z) (d : ResponseData) :
  fetchNews_cacheKey c q = Ok k ->
  ongoingRequests s !! k = None ->
  cacheMiss s k (u1, t1) ->
  cacheMiss s k (u2, t2) ->
  let s1 := (fetchNews s c q u1 t1).1 in
  let s2 := (fetchNews s1 c q u2 t2).1 in
  let s3 := settle s2 (performed s) (Fulfilled d) t3 in
  (fetchNews s c q u1 t1).2 = Started (performed s) /\
  (fetchNews s1 c q u2 t2).2 = Joined (performed s) /\
  shrinks s s2 /\
  awaiting s2 = awaiting s1 /\
  cache s3 =
    (if u1
     then <[k := {| data := withFromCache false d; timestamp := t3 |}]> (cache s2)
     else cache s2) /\
  callerOutcome s3 (Started (performed s)) = Some (Fulfilled d) /\
  callerOutcome s3 (Joined (performed s)) = Some (Fulfilled d) /\
  (u1 = false -> u2 = true ->
   cache s3 !! k = None /\ forall now, _isCacheValid (cache s3 !! k) now = false).
Proof.
  intros Hkey Hfree Hm1 Hm2 s1 s2 s3.
  destruct (fetchNews_start s c q u1 t1 k Hkey Hfree Hm1)
    as (s0 & Hs0 & Ho0 & Ha0 & Hse0 & Hp0 & _ & Hf1).
  set (f := mkFrame k u1 (orDefault JsNull c) (orDefault JsNull q)) in *.
  assert (Hs1 : shrinks s s1) by (subst s1; rewrite Hf1; exact Hs0).
  assert (Hreg1 : ongoingRequests s1 !! k = Some (performed s)).
  { subst s1. rewrite Hf1. cbn. rewrite Hp0. apply lookup_insert_eq. }
  assert (Hw1 : awaiting s1 !! performed s = Some f).
  { subst s1. rewrite Hf1. cbn. rewrite Hp0. apply lookup_insert_eq. }
  assert (Hm2' : cacheMiss s1 k (u2, t2)) by (eapply shrinks_miss; eauto).
  destruct (fetchNews_join s1 c q u2 t2 k (performed s) Hkey Hreg1 Hm2')
    as (s2' & Hs2 & Ho2 & Ha2 & Hse2 & Hp2 & Hf2).
  assert (Es2 : s2 = s2') by (subst s2; rewrite Hf2; reflexivity).
  assert (Hw2 : awaiting s2 !! performed s = Some f) by (rewrite Es2, Ha2; exact Hw1).
  split; [rewrite Hf1; unfold startRequest; cbn; rewrite Hp0; reflexivity |].
  split; [rewrite Hf2; reflexivity |].
  split; [rewrite Es2; eapply shrinks_trans; eauto |].
  split; [rewrite Es2; exact Ha2 |].
  assert (Hcache : cache s3 =
            (if u1
             then <[k := {| data := withFromCache false d; timestamp := t3 |}]> (cache s2)
             else cache s2)).
  { subst s3. unfold settle. rewrite Hw2. subst f. cbn. destruct u1; reflexivity. }
  split; [exact Hcache |].
  assert (Hset : settled s3 !! performed s = Some (Fulfilled d)).
  { subst s3. unfold settle. rewrite Hw2.
    destruct (frameUseCache f); cbn; apply lookup_insert_eq. }
  split; [exact Hset |]. split; [exact Hset |].
  intros -> ->. rewrite Hcache.
  assert (Hnone : cache s2 !! k = None).
  { subst s2. apply (fetchNews_join_uncached s1 c q t2 k (performed s)); assumption. }
  split; [exact Hnone |]. intros now. rewrite Hnone. reflexivity.
Qed.

Lemma only_initiator_writes_witness :
  (fetchNews (fetchNews initial (JsStr "Technology") (JsStr "test") false 0).1
     (JsStr "Technology") (JsStr "test") true 1).2 = Joined 0 /\
  cache
    (settle
       (fetchNews (fetchNews initial (JsStr "Technology") (JsStr "test") false 0).1
          (JsStr "Technology") (JsStr "test") true 1).1
       0 (Fulfilled samplePayload) 2) !! "technology-test" = None.
Proof.
  destruct (only_initiator_writes initial (JsStr "Technology") (JsStr "test")
              "technology-test" false true 0 1 2 samplePayload)
    as (_ & Hj & _ & _ & _ & _ & _ & Hn).
  - reflexivity.
  - apply lookup_empty.
  - left. reflexivity.
  - right. cbn. rewrite lookup_empty. reflexivity.
  - split; [exact Hj | apply Hn; reflexivity].
Defined.

End DedupFacts.




(** ** The hook: classification and back-off *)

Module OptimizedNewsFacts.
Import JsString JsStringFacts OptimizedNews.

(** C8. For every message the classifier returns the kind the priority
    list gives: rate-limit wording first, then authentication, then
    server, then network wording, and UNKNOWN_ERROR when none occurs; no
    message has two kinds. *)
Theorem getErrorType_classification (m : string) (k : ErrorType) :
  getErrorType m = k <-> Classified m k.
Proof.
  unfold getErrorType. split.
  - intros <-.
    destruct (includes "Rate limit exceeded" m || includes "429" m) eqn:H1.
    { apply classified_rate_limit, includes_either, H1. }
    apply includes_neither in H1.
    destruct (includes "authentication failed" m || includes "401" m) eqn:H2.
    { apply classified_auth; [exact H1 | apply includes_either, H2]. }
    apply includes_neither in H2.
    destruct (includes "temporarily unavailable" m || includes "500" m) eqn:H3.
    { apply classified_server; [exact H1 | exact H2 | apply includes_either, H3]. }
    apply includes_neither in H3.
    destruct (includes "Unable to connect" m || includes "fetch" m) eqn:H4.
    { apply classified_network; try assumption. apply includes_either, H4. }
    apply includes_neither in H4.
    apply classified_unknown; assumption.
  - intros H. destruct H as [R | R A | R A S | R A S N | R A S N];
      unfold RateLimitWording, AuthWording, ServerWording, NetworkWording in *;
      repeat match goal with
        | H : ~ (_ \/ _) |- _ => apply includes_neither in H; rewrite H
        | H : _ \/ _ |- _ => apply includes_either in H; rewrite H
        end; reflexivity.
Qed.

Lemma begin_matchesLatest enableCache s c q r cached :
  let '(s', call) := fetchNews_begin enableCache s c q r cached in
  matchesLatest s' call = true /\ isLatestObject s' call = true.
Proof.
  unfold fetchNews_begin, matchesLatest, isLatestObject.
  destruct r, cached; cbn; rewrite !String.eqb_refl, Nat.eqb_refl; auto.
Qed.

Lemma begin_retry_frame enableCache s c q cached :
  let s' := (fetchNews_begin enableCache s c q true cached).1 in
  articles s' = articles s /\ retryCount s' = retryCount s /\
  selectedCategory s' = selectedCategory s /\
  debouncedSearchTerm s' = debouncedSearchTerm s.
Proof. unfold fetchNews_begin. destruct cached; simpl; auto. Qed.

Lemma reject_latest s c e :
  matchesLatest s c = true ->
  let s' := fetchNews_reject s c e in
  error s' = Some (message e) /\
  errorType s' = Some (getErrorType (message e)) /\
  retryCount s' = retryCount s /\
  articles s' =
    (if negb (isRetry c) || Nat.eqb (length (seenArticles c)) 0
     then [] else articles s).
Proof.
  intros Hm. unfold fetchNews_reject, fetchNews_finally. rewrite Hm.
  destruct (negb (isRetry c) || Nat.eqb (length (seenArticles c)) 0);
    unfold matchesLatest in *; cbn; destruct (lastFetchParams s);
    try discriminate; rewrite Hm; cbn; auto.
Qed.

Lemma handleRetry_rate_limit s :
  errorType s = Some RATE_LIMIT ->
  exists plan,
    handleRetry s = (setRetryCount (S (retryCount s)) s, plan) /\
    delayOf plan = backoff (retryCount s).
Proof.
  intros Ht. unfold handleRetry. rewrite Ht.
  rewrite bool_decide_eq_true_2 by reflexivity. cbn [andb].
  replace (retryCount s + 1) with (S (retryCount s)) by lia.
  unfold backoff. destruct (retryCount s) as [|r]; cbn [Nat.ltb Nat.leb Nat.eqb].
  - eexists. split; reflexivity.
  - eexists. split; [reflexivity |]. cbn [delayOf].
    replace (S (S r) - 1) with (S r) by lia. reflexivity.
Qed.

Lemma failedRetry_step enableCache cached e s :
  errorType s = Some RATE_LIMIT ->
  getErrorType (message e) = RATE_LIMIT ->
  let '(s', plan) := failedRetry enableCache cached e s in
  errorType s' = Some RATE_LIMIT /\
  retryCount s' = S (retryCount s) /\
  delayOf plan = backoff (retryCount s).
Proof.
  intros Ht He. unfold failedRetry.
  destruct (handleRetry_rate_limit s Ht) as (plan & -> & Hd).
  set (s1 := setRetryCount (S (retryCount s)) s).
  pose proof (begin_matchesLatest enableCache s1 (selectedCategory s1)
                (debouncedSearchTerm s1) true cached) as Hl.
  pose proof (begin_retry_frame enableCache s1 (selectedCategory s1)
                (debouncedSearchTerm s1) cached) as Hf.
  destruct (fetchNews_begin enableCache s1 (selectedCategory s1)
              (debouncedSearchTerm s1) true cached) as [s2 c].
  destruct Hl as [Hl _]. cbn [fst] in Hf. destruct Hf as (_ & Hr & _).
  destruct (reject_latest s2 c e Hl) as (_ & Hty & Hrc & _).
  rewrite Hty, Hrc, Hr, He. auto.
Qed.

Lemma retryDelays_backoff enableCache cached e n : forall s,
  errorType s = Some RATE_LIMIT ->
  getErrorType (message e) = RATE_LIMIT ->
  retryDelays enableCache cached e n s = map backoff (seq (retryCount s) n).
Proof.
  induction n as [|n IH]; intros s Ht He; [reflexivity |].
  cbn [retryDelays seq map].
  pose proof (failedRetry_step enableCache cached e s Ht He) as Hstep.
  destruct (failedRetry enableCache cached e s) as [s' plan].
  destruct Hstep as (Ht' & Hc & Hd).
  rewrite Hd, (IH s' Ht' He), Hc. reflexivity.
Qed.

Lemma backoff_capped r : 5 <= r -> backoff r = 30000%Z.
Proof.
  intros Hr. unfold backoff. destruct (Nat.eqb_spec r 0) as [-> | _]; [lia |].
  apply Z.min_r.
  assert (2 ^ 5 <= 2 ^ Z.of_nat r)%Z by (apply Z.pow_le_mono_r; lia).
  change (2 ^ 5)%Z with 32%Z in *. lia.
Qed.

(** C1, as the code has it. Consecutive rate-limit retries 1 to 6 wait
    0, 2000, 4000, 8000, 16000 and 30000 milliseconds, and every later one
    waits 30000 milliseconds. *)
Theorem backoff_schedule (enableCache : bool) (cached : option ResponseData) (e : JsError) (s : State) (k : nat) :
  retryCount s = 0 ->
  errorType s = Some RATE_LIMIT ->
  getErrorType (message e) = RATE_LIMIT ->
  retryDelays enableCache cached e (6 + k) s =
    app [0; 2000; 4000; 8000; 16000; 30000]%Z (replicate k 30000%Z).
Proof.
  intros Hc Ht He.
  rewrite (retryDelays_backoff _ _ _ _ _ Ht He), Hc.
  rewrite seq_app, map_app. f_equal.
  change (0 + 6) with 6.
  assert (Hcap : forall r, 5 <= r ->
            map backoff (seq r k) = replicate k 30000%Z).
  { induction k as [|k IH]; intros r Hr; [reflexivity |].
    cbn [seq map replicate].
    rewrite backoff_capped by exact Hr. f_equal. apply IH. lia. }
  apply Hcap. lia.
Qed.

Lemma backoff_schedule_witness :
  retryDelays true None rateLimitError 8 rateLimited =
    [0; 2000; 4000; 8000; 16000; 30000; 30000; 30000]%Z.
Proof.
  exact (backoff_schedule true None rateLimitError rateLimited 2
           eq_refl eq_refl eq_refl).
Defined.

(** C1 as the specification lists it fails at the second retry already:
    the code waits 2000 milliseconds there, not 1000. *)
Lemma backoff_schedule_not_as_listed :
  retryDelays true None rateLimitError 6 rateLimited <>
    [0; 1000; 2000; 4000; 8000; 16000]%Z.
Proof.
  assert (H : nth 1 (retryDelays true None rateLimitError 6 rateLimited) 0%Z
              = 2000%Z) by (vm_compute; reflexivity).
  intros Heq. rewrite Heq in H. discriminate H.
Qed.

(** *** Which response may update the state *)

Lemma begin_spec enableCache s c q r cached :
  let b := fetchNews_begin enableCache s c q r cached in
  lastFetchParams b.1 = Some (mkParams (allocated s) c q enableCache) /\
  callParams b.2 = mkParams (allocated s) c q enableCache /\
  allocated b.1 = S (allocated s) /\
  isRetry b.2 = r /\ seenArticles b.2 = articles s /\
  error b.1 = None /\ errorType b.1 = None.
Proof. unfold fetchNews_begin. destruct r, cached; cbn; auto 10. Qed.

Lemma finally_frame s c :
  let s' := fetchNews_finally s c in
  articles s' = articles s /\ error s' = error s /\
  errorType s' = errorType s /\ retryCount s' = retryCount s /\
  lastFetchParams s' = lastFetchParams s.
Proof.
  unfold fetchNews_finally. destruct (matchesLatest s c); cbn; auto.
Qed.

Lemma settle_lastFetchParams s c o :
  lastFetchParams (fetchNews_settle s c o) = lastFetchParams s.
Proof.
  destruct o as [d | e]; cbn [fetchNews_settle].
  - unfold fetchNews_resolve.
    destruct (finally_frame
                (if isLatestObject s c
                 then setRetryCount 0 (setArticles (articlesOrEmpty d) s) else s) c)
      as (_ & _ & _ & _ & ->).
    destruct (isLatestObject s c); reflexivity.
  - unfold fetchNews_reject. cbv zeta.
    match goal with
    | |- lastFetchParams (fetchNews_finally ?x c) = _ =>
        destruct (finally_frame x c) as (_ & _ & _ & _ & ->)
    end.
    destruct (matchesLatest s c); [| reflexivity].
    destruct (negb (isRetry c) || Nat.eqb (length (seenArticles c)) 0); reflexivity.
Qed.

(** A response whose parameters are neither the latest object nor equal
    to the latest category and query changes nothing. *)
Lemma settle_stale s c o :
  isLatestObject s c = false -> matchesLatest s c = false ->
  fetchNews_settle s c o = s.
Proof.
  intros Hi Hm. destruct o; cbn [fetchNews_settle];
    unfold fetchNews_resolve, fetchNews_reject, fetchNews_finally;
    rewrite ?Hi, ?Hm; reflexivity.
Qed.

Lemma resolve_latest s c d :
  isLatestObject s c = true ->
  let s' := fetchNews_resolve s c d in
  articles s' = articlesOrEmpty d /\ error s' = error s /\
  errorType s' = errorType s /\ retryCount s' = 0.
Proof.
  intros Hi. unfold fetchNews_resolve. rewrite Hi.
  destruct (finally_frame (setRetryCount 0 (setArticles (articlesOrEmpty d) s)) c)
    as (-> & -> & -> & -> & _).
  cbn. auto.
Qed.

(** C5. Which late responses are discarded. A fetch A is issued, then a
    fetch B before A settles; B succeeds with the articles [l], then A
    settles. A late success of A never changes what is shown: the
    success path compares the identity of the parameter object. A late
    failure of A is discarded only when A and B differ in category or
    query: the [catch] block compares category and query by value, so
    when B repeats A's parameters (a refresh, a second run of the effect)
    A's failure is taken for the latest request's, its message and kind
    replace B's result, and B's articles are cleared unless A was a
    retry made with articles on screen. *)
Theorem late_failure_is_matched_by_value (enableCache : bool) (s : State) (catA qA catB qB : string) (retryA retryB : bool) (cachedA cachedB : option ResponseData) (l : list Article) (n p ps : Z) (f : option bool) (e : JsError) :
  let a := fetchNews_begin enableCache s catA qA retryA cachedA in
  let b := fetchNews_begin enableCache a.1 catB qB retryB cachedB in
  let afterB := fetchNews_resolve b.1 b.2 (Some (mkResponse (Some l) n p ps f)) in
  (articles afterB = l /\ error afterB = None /\ errorType afterB = None) /\
  (forall d,
     articles (fetchNews_resolve afterB a.2 d) = l /\
     error (fetchNews_resolve afterB a.2 d) = None /\
     errorType (fetchNews_resolve afterB a.2 d) = None) /\
  ((catA, qA) <> (catB, qB) ->
     fetchNews_reject afterB a.2 e = afterB /\
     forall d, fetchNews_resolve afterB a.2 d = afterB) /\
  (catA = catB -> qA = qB ->
     error (fetchNews_reject afterB a.2 e) = Some (message e) /\
     errorType (fetchNews_reject afterB a.2 e) = Some (getErrorType (message e)) /\
     articles (fetchNews_reject afterB a.2 e) =
       (if retryA && negb (Nat.eqb (length (articles s)) 0) then l else [])).
Proof.
  intros a b afterB.
  destruct (begin_spec enableCache s catA qA retryA cachedA)
    as (_ & HpA & HnA & HrA & HseenA & _).
  destruct (begin_spec enableCache a.1 catB qB retryB cachedB)
    as (HlB & HpB & _ & _ & _ & HeB & HtB).
  fold a in HpA, HnA, HrA, HseenA. fold b in HlB, HpB, HeB, HtB.
  rewrite HnA in HlB.
  pose proof (begin_matchesLatest enableCache a.1 catB qB retryB cachedB) as HmB.
  fold b in HmB. destruct b as [sB callB] eqn:Eb. cbn [fst snd] in *.
  destruct HmB as [_ HiB].
  destruct (resolve_latest sB callB (Some (mkResponse (Some l) n p ps f)) HiB)
    as (Ha & He & Ht & _).
  fold afterB in Ha, He, Ht. cbn in Ha. rewrite HeB in He. rewrite HtB in Ht.
  assert (Hlast : lastFetchParams afterB =
                  Some (mkParams (S (allocated s)) catB qB enableCache)).
  { pose proof (settle_lastFetchParams sB callB
                  (Resolved (Some (mkResponse (Some l) n p ps f)))) as H.
    cbn [fetchNews_settle] in H. fold afterB in H. rewrite H. exact HlB. }
  assert (Hold : isLatestObject afterB a.2 = false).
  { unfold isLatestObject. rewrite Hlast, HpA. cbn [paramsId].
    apply Nat.eqb_neq. lia. }
  assert (Hres : forall d,
            articles (fetchNews_resolve afterB a.2 d) = articles afterB /\
            error (fetchNews_resolve afterB a.2 d) = error afterB /\
            errorType (fetchNews_resolve afterB a.2 d) = errorType afterB).
  { intros d. unfold fetchNews_resolve. rewrite Hold.
    destruct (finally_frame afterB a.2) as (H1 & H2 & H3 & _). auto. }
  split; [auto |]. split.
  { intros d. destruct (Hres d) as (-> & -> & ->). auto. }
  split.
  - intros Hne.
    assert (Hm : matchesLatest afterB a.2 = false).
    { unfold matchesLatest. rewrite Hlast, HpA. cbn [category query].
      destruct (String.eqb_spec catB catA) as [-> | _]; [| reflexivity].
      destruct (String.eqb_spec qB qA) as [-> | _]; [| reflexivity].
      contradiction Hne. reflexivity. }
    split.
    + exact (settle_stale afterB a.2 (Failed e) Hold Hm).
    + intros d. exact (settle_stale afterB a.2 (Resolved d) Hold Hm).
  - intros Hc Hq.
    assert (Hm : matchesLatest afterB a.2 = true).
    { unfold matchesLatest. rewrite Hlast, HpA. cbn [category query].
      rewrite Hc, Hq, !String.eqb_refl. reflexivity. }
    destruct (reject_latest afterB a.2 e Hm) as (-> & -> & _ & ->).
    split; [reflexivity |]. split; [reflexivity |].
    rewrite HrA, HseenA, Ha.
    destruct retryA, (Nat.eqb (length (articles s)) 0); reflexivity.
Qed.

Lemma late_failure_is_matched_by_value_witness :
  let a := fetchNews_begin true showingTwo "Technology" "" false None in
  let b := fetchNews_begin true a.1 "Technology" "" false None in
  let afterB :=
    fetchNews_resolve b.1 b.2
      (Some (mkResponse (Some [mkArticle "3" "Third" "" "https://example.com/3"])
               1 1 20 None)) in
  let b' := fetchNews_begin true a.1 "Sports" "" false None in
  let afterB' :=
    fetchNews_resolve b'.1 b'.2
      (Some (mkResponse (Some [mkArticle "3" "Third" "" "https://example.com/3"])
               1 1 20 None)) in
  (articles afterB = [mkArticle "3" "Third" "" "https://example.com/3"] /\
   error afterB = None /\
   error (fetchNews_reject afterB a.2 rateLimitError) =
     Some "Rate limit exceeded. Please try again later." /\
   errorType (fetchNews_reject afterB a.2 rateLimitError) = Some RATE_LIMIT /\
   articles (fetchNews_reject afterB a.2 rateLimitError) = [] /\
   articles
     (fetchNews_resolve afterB a.2
        (Some (mkResponse (Some []) 0 1 20 None))) =
     [mkArticle "3" "Third" "" "https://example.com/3"]) /\
  (articles afterB' = [mkArticle "3" "Third" "" "https://example.com/3"] /\
   error afterB' = None /\
   fetchNews_reject afterB' a.2 rateLimitError = afterB' /\
   fetchNews_resolve afterB' a.2 (Some (mkResponse (Some []) 0 1 20 None)) =
     afterB').
Proof.
  pose proof (late_failure_is_matched_by_value true showingTwo
                "Technology" "" "Technology" "" false false None None
                [mkArticle "3" "Third" "" "https://example.com/3"] 1 1 20 None
                rateLimitError) as H.
  pose proof (late_failure_is_matched_by_value true showingTwo
                "Technology" "" "Sports" "" false false None None
                [mkArticle "3" "Third" "" "https://example.com/3"] 1 1 20 None
                rateLimitError) as H'.
  cbv zeta in H, H'. destruct H as ((Ha & He & _) & Hres & _ & Hsame).
  destruct (Hsame eq_refl eq_refl) as (He' & Ht' & Ha').
  destruct (Hres (Some (mkResponse (Some []) 0 1 20 None))) as (Hr & _).
  destruct H' as ((Ha2 & He2 & _) & _ & Hdiff & _).
  destruct Hdiff as (Hrej & Hres2); [discriminate |].
  cbv zeta. split.
  - repeat split; assumption.
  - split; [exact Ha2 |]. split; [exact He2 |]. split; [exact Hrej | apply Hres2].
Defined.

(** C9. What the [catch] block does to the articles. For a failure that
    matches the latest parameters the message and its kind are recorded,
    and the articles are kept exactly when the failing call was a retry
    and the list its closure saw when it was made was not empty. That
    list need not be the one on screen at the failure: a retry made with
    nothing on screen, followed by a fetch for the same parameters that
    loads [l], clears [l] when it fails afterwards. *)
Theorem failure_clears_by_closure_length (enableCache : bool) (s : State) (cat q : string) (cachedA cachedB : option ResponseData) (l : list Article) (n p ps : Z) (f : option bool) (e : JsError) :
  (forall s' c, matchesLatest s' c = true ->
     error (fetchNews_reject s' c e) = Some (message e) /\
     errorType (fetchNews_reject s' c e) = Some (getErrorType (message e)) /\
     articles (fetchNews_reject s' c e) =
       (if isRetry c && negb (Nat.eqb (length (seenArticles c)) 0)
        then articles s' else [])) /\
  (forall s' c, matchesLatest s' c = true ->
     length (seenArticles c) = length (articles s') ->
     articles (fetchNews_reject s' c e) =
       (if isRetry c && negb (Nat.eqb (length (articles s')) 0)
        then articles s' else [])) /\
  (articles s = [] -> l <> [] ->
   let a := fetchNews_begin enableCache s cat q true cachedA in
   let b := fetchNews_begin enableCache a.1 cat q false cachedB in
   let afterB := fetchNews_resolve b.1 b.2 (Some (mkResponse (Some l) n p ps f)) in
   isRetry a.2 = true /\ matchesLatest afterB a.2 = true /\
   articles afterB = l /\
   articles (fetchNews_reject afterB a.2 e) = [] /\
   error (fetchNews_reject afterB a.2 e) = Some (message e)).
Proof.
  assert (Hgen : forall s' c, matchesLatest s' c = true ->
     error (fetchNews_reject s' c e) = Some (message e) /\
     errorType (fetchNews_reject s' c e) = Some (getErrorType (message e)) /\
     articles (fetchNews_reject s' c e) =
       (if isRetry c && negb (Nat.eqb (length (seenArticles c)) 0)
        then articles s' else [])).
  { intros s' c Hm. destruct (reject_latest s' c e Hm) as (-> & -> & _ & ->).
    split; [reflexivity |]. split; [reflexivity |].
    destruct (isRetry c), (Nat.eqb (length (seenArticles c)) 0); reflexivity. }
  split; [exact Hgen |]. split.
  { intros s' c Hm Hlen. destruct (Hgen s' c Hm) as (_ & _ & ->).
    rewrite Hlen. reflexivity. }
  intros Hs Hl a b afterB.
  destruct (begin_spec enableCache s cat q true cachedA)
    as (_ & HpA & HnA & HrA & HseenA & _).
  destruct (begin_spec enableCache a.1 cat q false cachedB) as (HlB & _).
  fold a in HpA, HnA, HrA, HseenA. fold b in HlB. rewrite HnA in HlB.
  pose proof (begin_matchesLatest enableCache a.1 cat q false cachedB) as HmB.
  fold b in HmB. destruct b as [sB callB] eqn:Eb. cbn [fst snd] in *.
  destruct HmB as [_ HiB].
  destruct (resolve_latest sB callB (Some (mkResponse (Some l) n p ps f)) HiB)
    as (Ha & _).
  fold afterB in Ha. cbn in Ha.
  assert (Hlast : lastFetchParams afterB =
                  Some (mkParams (S (allocated s)) cat q enableCache)).
  { pose proof (settle_lastFetchParams sB callB
                  (Resolved (Some (mkResponse (Some l) n p ps f)))) as H.
    cbn [fetchNews_settle] in H. fold afterB in H. rewrite H. exact HlB. }
  assert (Hm : matchesLatest afterB a.2 = true).
  { unfold matchesLatest. rewrite Hlast, HpA. cbn [category query].
    rewrite !String.eqb_refl. reflexivity. }
  destruct (Hgen afterB a.2 Hm) as (He' & _ & Ha').
  split; [exact HrA |]. split; [exact Hm |]. split; [exact Ha |].
  split; [| exact He'].
  rewrite Ha', HseenA, Hs, HrA. reflexivity.
Qed.

Lemma failure_clears_by_closure_length_witness :
  let a := fetchNews_begin true rateLimited "All" "" true None in
  let b := fetchNews_begin true a.1 "All" "" false None in
  let afterB :=
    fetchNews_resolve b.1 b.2
      (Some (mkResponse
               (Some [mkArticle "1" "First" "" "https://example.com/1";
                      mkArticle "2" "Second" "" "https://example.com/2"])
               2 1 20 None)) in
  isRetry a.2 = true /\ matchesLatest afterB a.2 = true /\
  articles afterB = [mkArticle "1" "First" "" "https://example.com/1";
                     mkArticle "2" "Second" "" "https://example.com/2"] /\
  articles (fetchNews_reject afterB a.2 rateLimitError) = [] /\
  error (fetchNews_reject afterB a.2 rateLimitError) =
    Some "Rate limit exceeded. Please try again later.".
Proof.
  pose proof (failure_clears_by_closure_length true rateLimited "All" "" None None
                [mkArticle "1" "First" "" "https://example.com/1";
                 mkArticle "2" "Second" "" "https://example.com/2"]
                2 1 20 None rateLimitError) as H.
  destruct H as (_ & _ & H). apply H; [reflexivity | discriminate].
Defined.

(** A call followed at once by its failure: the list the call saw is
    the list on screen, so the articles are kept exactly for a retry
    made with a list that is not empty. *)
Lemma failure_right_after_call enableCache s cat q r cached e :
  articles
    (fetchNews_reject (fetchNews_begin enableCache s cat q r cached).1
       (fetchNews_begin enableCache s cat q r cached).2 e) =
    (if r && negb (Nat.eqb (length (articles s)) 0) then articles s else []).
Proof.
  pose proof (begin_matchesLatest enableCache s cat q r cached) as Hm.
  pose proof (begin_spec enableCache s cat q r cached) as Hb.
  pose proof (begin_retry_frame enableCache s cat q cached) as Hf.
  destruct r.
  - destruct (fetchNews_begin enableCache s cat q true cached) as [s1 c].
    cbn [fst snd] in *. destruct Hm as [Hm _].
    destruct Hb as (_ & _ & _ & Hr & Hseen & _). destruct Hf as (Ha & _).
    destruct (reject_latest s1 c e Hm) as (_ & _ & _ & ->).
    rewrite Hr, Hseen, Ha.
    destruct (Nat.eqb (length (articles s)) 0); reflexivity.
  - destruct (fetchNews_begin enableCache s cat q false cached) as [s1 c].
    cbn [fst snd] in *. destruct Hm as [Hm _].
    destruct Hb as (_ & _ & _ & Hr & _).
    destruct (reject_latest s1 c e Hm) as (_ & _ & _ & ->).
    rewrite Hr. reflexivity.
Qed.

End OptimizedNewsFacts.


(** ** Strings: case and blanks *)

Module JsStringLaws.
Import JsString JsStringFacts.

Lemma lowerChar_idem c : lowerChar (lowerChar c) = lowerChar c.
Proof. destruct c as [[] [] [] [] [] [] [] []]; reflexivity. Qed.

Lemma lowerChar_white c : isWhiteSpace (lowerChar c) = isWhiteSpace c.
Proof. destruct c as [[] [] [] [] [] [] [] []]; reflexivity. Qed.

Lemma toLowerCase_idem s : toLowerCase (toLowerCase s) = toLowerCase s.
Proof.
  induction s as [|c s IH]; [reflexivity |].
  cbn. rewrite lowerChar_idem, IH. reflexivity.
Qed.

Lemma append_nil s : "" +:+ s = s.
Proof. reflexivity. Qed.

Lemma append_cons c s1 s2 : String c s1 +:+ s2 = String c (s1 +:+ s2).
Proof. reflexivity. Qed.

Lemma toLowerCase_app s1 s2 :
  toLowerCase (s1 +:+ s2) = toLowerCase s1 +:+ toLowerCase s2.
Proof.
  induction s1 as [|c s1 IH]; [reflexivity |].
  rewrite append_cons. cbn [toLowerCase]. rewrite IH. reflexivity.
Qed.

Lemma toLowerCase_isEmpty s : isEmpty (toLowerCase s) = isEmpty s.
Proof. destruct s; reflexivity. Qed.

Lemma toLowerCase_trimStart s :
  toLowerCase (trimStart s) = trimStart (toLowerCase s).
Proof.
  induction s as [|c s IH]; [reflexivity |].
  cbn. rewrite lowerChar_white. destruct (isWhiteSpace c); [exact IH | reflexivity].
Qed.

Lemma toLowerCase_trimEnd s :
  toLowerCase (trimEnd s) = trimEnd (toLowerCase s).
Proof.
  induction s as [|c s IH]; [reflexivity |].
  cbn. rewrite lowerChar_white, <- IH, toLowerCase_isEmpty.
  destruct (isWhiteSpace c && isEmpty (trimEnd s)); reflexivity.
Qed.

(** Lower-casing and trimming commute. *)
Lemma toLowerCase_trim s : toLowerCase (trim s) = trim (toLowerCase s).
Proof. unfold trim. rewrite toLowerCase_trimEnd, toLowerCase_trimStart. reflexivity. Qed.

Lemma trimEnd_blank_suffix s suf :
  trimEnd suf = "" -> trimEnd (s +:+ suf) = trimEnd s.
Proof.
  intros Hsuf. induction s as [|c s IH]; [exact Hsuf |].
  rewrite append_cons. cbn [trimEnd]. rewrite IH. reflexivity.
Qed.

Lemma trimStart_blank_prefix pre s :
  trimStart pre = "" -> trimStart (pre +:+ s) = trimStart s.
Proof.
  induction pre as [|c pre IH]; [reflexivity |].
  rewrite append_cons. cbn [trimStart].
  destruct (isWhiteSpace c); [exact IH | discriminate].
Qed.

Lemma trimEnd_of_blank s : trimStart s = "" -> trimEnd s = "".
Proof.
  induction s as [|c s IH]; [reflexivity |].
  cbn [trimStart trimEnd]. destruct (isWhiteSpace c); [| discriminate].
  intros H. rewrite (IH H). reflexivity.
Qed.

Lemma trim_blank_start s : trim s = "" -> trimStart s = "".
Proof.
  unfold trim. induction s as [|c s IH]; [reflexivity |].
  cbn [trimStart]. destruct (isWhiteSpace c) eqn:Hc; [exact IH |].
  cbn [trimEnd]. rewrite Hc. discriminate.
Qed.

Lemma trim_blank_end s : trim s = "" -> trimEnd s = "".
Proof. intros H. apply trimEnd_of_blank, trim_blank_start, H. Qed.

(** Blank text around a string does not survive [trim]. *)
Lemma trim_padding pre s suf :
  trim pre = "" -> trim suf = "" -> trim (pre +:+ s +:+ suf) = trim s.
Proof.
  intros Hpre Hsuf. unfold trim.
  rewrite trimStart_blank_prefix by (apply trim_blank_start, Hpre).
  induction s as [|c s IH].
  - rewrite append_nil, (trim_blank_start _ Hsuf). reflexivity.
  - rewrite append_cons. cbn [trimStart].
    destruct (isWhiteSpace c) eqn:Hc; [exact IH |].
    rewrite <- append_cons.
    apply trimEnd_blank_suffix, trim_blank_end, Hsuf.
Qed.

End JsStringLaws.

(** ** The service: keys, sweeps, statistics and round trips *)

Module CacheFacts.
Import JsString JsStringFacts JsStringLaws NewsService DedupFacts.

(** X1. Cache keys ignore case in the category and in the query, and
    blank text around the query: two requests whose categories and
    queries agree after lower-casing get the same key, whatever blanks
    surround the first query. *)
Theorem cacheKey_ignores_case_and_padding (c c' q q' pre suf : string) :
  toLowerCase c = toLowerCase c' ->
  toLowerCase q = toLowerCase q' ->
  trim pre = "" -> trim suf = "" ->
  _generateCacheKey (JsStr c) (JsStr (pre +:+ q +:+ suf)) =
  _generateCacheKey (JsStr c') (JsStr q').
Proof.
  intros Hc Hq Hpre Hsuf. unfold _generateCacheKey. cbn.
  rewrite Hc, <- Hq, !toLowerCase_app.
  rewrite trim_padding; [reflexivity | |];
    rewrite <- toLowerCase_trim; [rewrite Hpre | rewrite Hsuf]; reflexivity.
Qed.

Lemma cacheKey_ignores_case_and_padding_witness :
  _generateCacheKey (JsStr "Technology") (JsStr "  AI News ") =
  _generateCacheKey (JsStr "TECHNOLOGY") (JsStr "ai news").
Proof.
  exact (cacheKey_ignores_case_and_padding "Technology" "TECHNOLOGY"
           "AI News" "ai news" "  " " " eq_refl eq_refl eq_refl eq_refl).
Defined.

Lemma cleanup_lookup_valid s k now e :
  cache s !! k = Some e -> _isCacheValid (Some e) now = true ->
  cache (_cleanupCache s now) !! k = Some e.
Proof.
  intros He Hv. cbn. apply map_lookup_filter_Some. split; [exact He |].
  unfold fresh. cbn. apply Z.ltb_lt, Hv.
Qed.

Lemma getFromCache_after_cleanup s k now :
  (_getFromCache (_cleanupCache s now) k now).2 = (_getFromCache s k now).2.
Proof.
  unfold _getFromCache. rewrite cleanup_valid.
  destruct (_isCacheValid (cache s !! k) now) eqn:Hv.
  - destruct (cache s !! k) as [e|] eqn:He; [| discriminate Hv].
    rewrite (cleanup_lookup_valid s k now e He Hv). reflexivity.
  - destruct (cache (_cleanupCache s now) !! k), (cache s !! k); reflexivity.
Qed.

(** X2. The sweep before each fetch is invisible to readers: at the time
    of the sweep, [_getFromCache] and [isCached] answer the same with or
    without it; sweeping twice is sweeping once; registrations of
    requests in flight are not touched. *)
Theorem cleanup_is_transparent (s : Service) (now : Z) :
  (forall k, (_getFromCache (_cleanupCache s now) k now).2 =
             (_getFromCache s k now).2) /\
  (forall c q, isCached (_cleanupCache s now) c q now = isCached s c q now) /\
  _cleanupCache (_cleanupCache s now) now = _cleanupCache s now /\
  ongoingRequests (_cleanupCache s now) = ongoingRequests s /\
  awaiting (_cleanupCache s now) = awaiting s.
Proof.
  split; [| split; [| split; [| split; reflexivity]]].
  - intros k. apply getFromCache_after_cleanup.
  - intros c q. unfold isCached.
    destruct (_generateCacheKey c q); [| reflexivity].
    rewrite cleanup_valid. reflexivity.
  - unfold _cleanupCache, withCache. cbn. f_equal.
    apply map_filter_id. intros k e He.
    apply map_lookup_filter_Some in He. tauto.
Qed.

(** *** Statistics *)

Lemma countEntry_comm now k1 e1 k2 e2 acc :
  CacheStats.countEntry now k1 e1 (CacheStats.countEntry now k2 e2 acc) =
  CacheStats.countEntry now k2 e2 (CacheStats.countEntry now k1 e1 acc).
Proof.
  unfold CacheStats.countEntry.
  destruct (now - timestamp e1 <? cacheTimeout)%Z,
           (now - timestamp e2 <? cacheTimeout)%Z; reflexivity.
Qed.

(** The loop counts the fresh entries and the others. *)
Lemma counts_spec now (m : gmap string CacheEntry) :
  (map_fold (CacheStats.countEntry now) (0, 0) m).1 = size (filter (fresh now) m) /\
  (map_fold (CacheStats.countEntry now) (0, 0) m).1 +
  (map_fold (CacheStats.countEntry now) (0, 0) m).2 = size m.
Proof.
  induction m as [|k e m Hk IH] using map_ind.
  - rewrite map_fold_empty, map_filter_empty, map_size_empty. auto.
  - rewrite map_fold_insert_L;
      [| intros; apply countEntry_comm | exact Hk].
    destruct IH as [IH1 IH2].
    rewrite map_size_insert_None by exact Hk.
    set (acc := map_fold (CacheStats.countEntry now) (0, 0) m) in *.
    unfold CacheStats.countEntry.
    destruct (now - timestamp e <? cacheTimeout)%Z eqn:Hv; cbn [fst snd].
    + rewrite map_filter_insert_True by (unfold fresh; cbn; apply Z.ltb_lt, Hv).
      rewrite map_size_insert_None
        by (apply map_lookup_filter_None; left; exact Hk).
      split; lia.
    + rewrite map_filter_insert_not'.
      * split; lia.
      * unfold fresh. cbn. apply Z.ltb_ge in Hv. lia.
      * intros y Hy. rewrite Hk in Hy. discriminate.
Qed.

(** X3. The statistics add up: valid and expired entries together are
    all entries; the valid count is exactly the number of entries a sweep
    at that time leaves; and right after a sweep nothing counts as
    expired. *)
Theorem cacheStats_add_up (s : Service) (now : Z) :
  (CacheStats.validEntries (CacheStats.getCacheStats s now) +
     CacheStats.expiredEntries (CacheStats.getCacheStats s now) =
   CacheStats.totalEntries (CacheStats.getCacheStats s now))%nat /\
  CacheStats.validEntries (CacheStats.getCacheStats s now) =
    CacheStats.totalEntries (CacheStats.getCacheStats (_cleanupCache s now) now) /\
  CacheStats.expiredEntries (CacheStats.getCacheStats (_cleanupCache s now) now) = 0 /\
  CacheStats.validEntries (CacheStats.getCacheStats (_cleanupCache s now) now) =
    CacheStats.validEntries (CacheStats.getCacheStats s now).
Proof.
  unfold CacheStats.getCacheStats. cbn.
  destruct (counts_spec now (cache s)) as [Hv Hsum].
  destruct (counts_spec now (filter (fresh now) (cache s))) as [Hv' Hsum'].
  assert (Hid : filter (fresh now) (filter (fresh now) (cache s)) =
                filter (fresh now) (cache s)).
  { apply map_filter_id. intros k e He.
    apply map_lookup_filter_Some in He. tauto. }
  rewrite Hid in Hv'. repeat split; lia.
Qed.

(** *** Round trips through [fetchNews] *)

Lemma key_of_strings c q :
  fetchNews_cacheKey (JsStr c) (JsStr q) =
  Ok (toLowerCase c +:+ "-" +:+ trim (toLowerCase q)).
Proof. reflexivity. Qed.

(** X4. A successful fetch with [useCache] is a round trip: once its
    request has fulfilled with [d] at time [T], the same call made before
    [T] plus 15 minutes is answered from the cache with [d] tagged
    [fromCache = true] and invokes nothing; made at or after that time it
    starts exactly one new request. *)
Theorem success_is_served_from_cache (s : Service) (c q : JsVal) (k : string) (t1 T now : Z) (d : ResponseData) :
  fetchNews_cacheKey c q = Ok k ->
  ongoingRequests s !! k = None ->
  cacheMiss s k (true, t1) ->
  let s1 := (fetchNews s c q true t1).1 in
  let s2 := settle s1 (performed s) (Fulfilled d) T in
  ((now < T + cacheTimeout)%Z ->
     (fetchNews s2 c q true now).2 =
       FromCache (mkResponse (articles d) (totalResults d) (page d) (pageSize d)
                    (Some true)) /\
     performed (fetchNews s2 c q true now).1 = S (performed s)) /\
  ((T + cacheTimeout <= now)%Z ->
     (fetchNews s2 c q true now).2 = Started (S (performed s)) /\
     performed (fetchNews s2 c q true now).1 = S (S (performed s))).
Proof.
  intros Hkey Hfree Hmiss s1 s2.
  destruct (fetchNews_start s c q true t1 k Hkey Hfree Hmiss)
    as (s0 & _ & Ho & Ha & _ & Hp & _ & Hf).
  assert (Hw : awaiting s1 !! performed s =
               Some (mkFrame k true (orDefault JsNull c) (orDefault JsNull q))).
  { subst s1. rewrite Hf. cbn. rewrite Hp. apply lookup_insert_eq. }
  assert (Hc2 : cache s2 !! k =
                Some {| data := withFromCache false d; timestamp := T |}).
  { subst s2. unfold settle. rewrite Hw. cbn. apply lookup_insert_eq. }
  assert (Ho2 : ongoingRequests s2 !! k = None).
  { subst s2. unfold settle. rewrite Hw. cbn. apply lookup_delete_eq. }
  assert (Hp2 : performed s2 = S (performed s)).
  { subst s2. unfold settle. rewrite Hw. cbn. subst s1. rewrite Hf. cbn.
    rewrite Hp. reflexivity. }
  split; intros Hnow.
  - assert (Hv : _isCacheValid
                   (Some {| data := withFromCache false d; timestamp := T |}) now
                 = true) by (cbn; apply Z.ltb_lt; lia).
    rewrite (fetchNews_unfold _ _ _ _ _ _ Hkey). unfold beforeLookup, _getFromCache.
    rewrite cleanup_valid, Hc2, Hv.
    rewrite (cleanup_lookup_valid s2 k now _ Hc2 Hv). cbn. auto.
  - assert (Hm : cacheMiss s2 k (true, now)).
    { right. cbn. rewrite Hc2. cbn. apply Z.ltb_ge. lia. }
    destruct (fetchNews_start s2 c q true now k Hkey Ho2 Hm)
      as (s3 & _ & _ & _ & _ & Hp3 & _ & ->).
    cbn. rewrite Hp3, Hp2. auto.
Qed.

Lemma success_is_served_from_cache_witness :
  (fetchNews
     (settle (fetchNews initial (JsStr "Technology") (JsStr "") true 0).1 0
        (Fulfilled samplePayload) 1000)
     (JsStr "Technology") (JsStr "") true 600000).2 =
    FromCache (mkResponse
                 (Some [mkArticle "1" "First" "" "https://example.com/1";
                        mkArticle "2" "Second" "" "https://example.com/2"])
                 2 1 20 (Some true)) /\
  (fetchNews
     (settle (fetchNews initial (JsStr "Technology") (JsStr "") true 0).1 0
        (Fulfilled samplePayload) 1000)
     (JsStr "Technology") (JsStr "") true 961000).2 = Started 1.
Proof.
  split.
  - apply (success_is_served_from_cache initial (JsStr "Technology") (JsStr "")
             "technology-" 0 1000 600000 samplePayload);
      [reflexivity | apply lookup_empty
      | right; cbn; rewrite lookup_empty; reflexivity | reflexivity].
  - apply (success_is_served_from_cache initial (JsStr "Technology") (JsStr "")
             "technology-" 0 1000 961000 samplePayload);
      [reflexivity | apply lookup_empty
      | right; cbn; rewrite lookup_empty; reflexivity | discriminate].
Defined.

(** X5. Requests for different keys never collapse into one: while
    requests are in flight, a call whose own key has no registration and
    misses the cache starts its own request, leaves every other
    registration as it is, and the settlement of any other request
    leaves the new registration in place. *)
Theorem different_keys_do_not_join (evs : list Event) (c q : JsVal) (k : string) (u : bool) (now : Z) :
  clearsWhenIdle initial evs ->
  fetchNews_cacheKey c q = Ok k ->
  ongoingRequests (run initial evs) !! k = None ->
  cacheMiss (run initial evs) k (u, now) ->
  (fetchNews (run initial evs) c q u now).2 = Started (performed (run initial evs)) /\
  (forall k', k' <> k ->
     ongoingRequests (fetchNews (run initial evs) c q u now).1 !! k' =
     ongoingRequests (run initial evs) !! k') /\
  (forall pid f o t,
     awaiting (run initial evs) !! pid = Some f ->
     ongoingRequests
       (settle (fetchNews (run initial evs) c q u now).1 pid o t) !! k =
     Some (performed (run initial evs))).
Proof.
  intros Hclear Hkey Hfree Hmiss.
  pose proof (Inv_run evs initial Hclear Inv_initial) as (HR & _ & _ & HF).
  set (s := run initial evs) in *.
  destruct (fetchNews_start s c q u now k Hkey Hfree Hmiss)
    as (s0 & _ & Ho & Ha & _ & Hp & _ & ->).
  unfold startRequest. cbn [fst snd]. rewrite Hp, Ho, Ha.
  split; [reflexivity |]. split.
  - intros k' Hk'. cbn. apply lookup_insert_ne. congruence.
  - intros pid f o t Hf.
    assert (Hpid : pid <> performed s) by (apply HF in Hf; lia).
    assert (Hkf : frameKey f <> k).
    { intros Hk. apply HR in Hf. rewrite Hk, Hfree in Hf. discriminate. }
    unfold settle. cbn [awaiting].
    rewrite lookup_insert_ne by congruence. rewrite Hf.
    destruct o; [destruct (frameUseCache f) |]; cbn;
      (rewrite lookup_delete_ne by exact Hkf); apply lookup_insert_eq.
Qed.

Lemma different_keys_do_not_join_witness :
  (fetchNews (fetchNews initial (JsStr "Technology") (JsStr "") true 0).1
     (JsStr "Sports") (JsStr "") true 1).2 = Started 1 /\
  ongoingRequests
    (settle
       (fetchNews (fetchNews initial (JsStr "Technology") (JsStr "") true 0).1
          (JsStr "Sports") (JsStr "") true 1).1
       0 (Rejected (Error "Server error")) 2) !! "sports-" = Some 1.
Proof.
  destruct (different_keys_do_not_join
              [Fetch (JsStr "Technology") (JsStr "") true 0]
              (JsStr "Sports") (JsStr "") "sports-" true 1)
    as (Hs & _ & Hk).
  - repeat split; discriminate.
  - reflexivity.
  - vm_compute. reflexivity.
  - right. vm_compute. reflexivity.
  - split; [exact Hs |].
    apply (Hk 0 (mkFrame "technology-" true (JsStr "Technology") (JsStr ""))).
    vm_compute. reflexivity.
Defined.

(** X6. [clearCacheFor] removes the entry of its key and nothing else,
    whatever the service holds: [isCached] is false for that key at any
    time, every other key reads as before, and the registrations of
    requests in flight stay, so that a call for the key made while its
    request is in flight joins that request instead of starting one. *)
Theorem clearCacheFor_removes_one_entry (s : Service) (c q : string) :
  (forall t, isCached (clearCacheFor s (JsStr c) (JsStr q)) (JsStr c) (JsStr q) t = Ok false) /\
  (forall k', k' <> toLowerCase c +:+ "-" +:+ trim (toLowerCase q) ->
     cache (clearCacheFor s (JsStr c) (JsStr q)) !! k' = cache s !! k') /\
  ongoingRequests (clearCacheFor s (JsStr c) (JsStr q)) = ongoingRequests s /\
  (forall pid u now,
     ongoingRequests s !! (toLowerCase c +:+ "-" +:+ trim (toLowerCase q)) = Some pid ->
     (fetchNews (clearCacheFor s (JsStr c) (JsStr q)) (JsStr c) (JsStr q) u now).2 =
       Joined pid).
Proof.
  set (k := toLowerCase c +:+ "-" +:+ trim (toLowerCase q)) in *.
  assert (Hcf : clearCacheFor s (JsStr c) (JsStr q) =
                withCache (delete k (cache s)) s) by reflexivity.
  rewrite Hcf. split; [| split; [| split]].
  - intros t. unfold isCached. change (_generateCacheKey (JsStr c) (JsStr q)) with (Ok k).
    cbn. rewrite lookup_delete_eq. reflexivity.
  - intros k' Hk'. cbn. apply lookup_delete_ne. congruence.
  - reflexivity.
  - intros pid u now Hreg.
    destruct (fetchNews_join (withCache (delete k (cache s)) s) (JsStr c) (JsStr q)
                u now k pid (key_of_strings c q) Hreg) as (s1 & _ & _ & _ & _ & _ & ->).
    + right. cbn. rewrite lookup_delete_eq. reflexivity.
    + reflexivity.
Qed.

Lemma clearCacheFor_removes_one_entry_witness :
  isCached
    (_setCache (fetchNews initial (JsStr "Technology") (JsStr "") false 0).1
       "technology-" samplePayload 5)
    (JsStr "Technology") (JsStr "") 10 = Ok true /\
  isCached
    (clearCacheFor
       (_setCache (fetchNews initial (JsStr "Technology") (JsStr "") false 0).1
          "technology-" samplePayload 5)
       (JsStr "Technology") (JsStr ""))
    (JsStr "Technology") (JsStr "") 10 = Ok false /\
  (fetchNews
     (clearCacheFor
        (_setCache (fetchNews initial (JsStr "Technology") (JsStr "") false 0).1
           "technology-" samplePayload 5)
        (JsStr "Technology") (JsStr ""))
     (JsStr "Technology") (JsStr "") true 10).2 = Joined 0.
Proof.
  destruct (clearCacheFor_removes_one_entry
              (_setCache (fetchNews initial (JsStr "Technology") (JsStr "") false 0).1
                 "technology-" samplePayload 5)
              "Technology" "") as (Hc & _ & _ & Hj).
  split; [vm_compute; reflexivity |]. split; [apply Hc |].
  apply Hj. vm_compute. reflexivity.
Defined.

(** X7. After [clearCache] every fetch goes to the network: whatever was
    cached or in flight, the next call of [fetchNews] with a category and
    a query starts a new request, nothing is cached at any time, and the
    statistics read zero. This is what [refresh] relies on. *)
Theorem clearCache_forces_network (s : Service) (c q : string) (u : bool) (now : Z) :
  (fetchNews (clearCache s) (JsStr c) (JsStr q) u now).2 = Started (performed s) /\
  isCached (clearCache s) (JsStr c) (JsStr q) now = Ok false /\
  CacheStats.getCacheStats (clearCache s) now = CacheStats.mkStats 0 0 0 0.
Proof.
  split; [| split].
  - destruct (fetchNews_start (clearCache s) (JsStr c) (JsStr q) u now _
                (key_of_strings c q)) as (s1 & _ & _ & _ & _ & Hp & _ & ->).
    + apply lookup_empty.
    + right. cbn. rewrite lookup_empty. reflexivity.
    + cbn. rewrite Hp. reflexivity.
  - unfold isCached. cbn. rewrite lookup_empty. reflexivity.
  - unfold CacheStats.getCacheStats. cbn.
    rewrite map_fold_empty, !map_size_empty. reflexivity.
Qed.

End CacheFacts.

(** ** The request: failures and mock data *)

Module PerformRequestFacts.
Import JsString JsStringFacts OptimizedNews PerformRequest ErrorPath.

(** X8. The status of a failed response decides the error kind the user
    sees, whatever the body says: 401 is shown as AUTH_ERROR, 429 as
    RATE_LIMIT and every status from 500 up as SERVER_ERROR. *)
Theorem status_decides_error_kind (status : Z) (body : Json) :
  (status = 401%Z ->
     errorTypeOf (_performRequest (Response status body)) = Some AUTH_ERROR) /\
  (status = 429%Z ->
     errorTypeOf (_performRequest (Response status body)) = Some RATE_LIMIT) /\
  ((500 <= status)%Z ->
     errorTypeOf (_performRequest (Response status body)) = Some SERVER_ERROR).
Proof.
  split; [| split].
  - intros ->. reflexivity.
  - intros ->. reflexivity.
  - intros Hs. unfold _performRequest, tryBlock, ok.
    assert (H299 : (status <=? 299)%Z = false) by (apply Z.leb_gt; lia).
    rewrite H299, andb_false_r. cbn [negb]. unfold httpErrorMessage.
    assert (H401 : (status =? 401)%Z = false) by (apply Z.eqb_neq; lia).
    assert (H429 : (status =? 429)%Z = false) by (apply Z.eqb_neq; lia).
    assert (H500 : (500 <=? status)%Z = true) by (apply Z.leb_le; lia).
    rewrite H401, H429, H500. reflexivity.
Qed.

Lemma default_messages_unknown :
  forallb (fun st => (st =? 401)%Z || (st =? 429)%Z ||
                     defaultMessageKind UNKNOWN_ERROR st)
    (seqZ 0 500) = true.
Proof. vm_compute. reflexivity. Qed.

Lemma messageOr_silent fallback body :
  (forall success m d, body = JsonObject success (Some m) d -> m = "") ->
  messageOr fallback body = fallback.
Proof.
  intros H. destruct body as [| |success [m|] d]; try reflexivity.
  rewrite (H success m d eq_refl). reflexivity.
Qed.

(** X9. Any other failed response (status below 500, not 401, not 429)
    carries the message of its body when the body has a non-empty one;
    otherwise it carries "HTTP error! status: N", which the hook shows as
    UNKNOWN_ERROR. *)
Theorem other_status_message (status : Z) (body : Json) :
  (0 <= status < 500)%Z -> ok status = false ->
  status <> 401%Z -> status <> 429%Z ->
  (forall success m d, body = JsonObject success (Some m) d -> m <> "" ->
     _performRequest (Response status body) = Threw (mkThrown "Error" m)) /\
  ((forall success m d, body = JsonObject success (Some m) d -> m = "") ->
     _performRequest (Response status body) =
       Threw (mkThrown "Error" ("HTTP error! status: " +:+ pretty status)) /\
     errorTypeOf (_performRequest (Response status body)) = Some UNKNOWN_ERROR).
Proof.
  intros Hrange Hok H401 H429.
  assert (Hmsg : _performRequest (Response status body) =
                 Threw (mkThrown "Error"
                          (messageOr ("HTTP error! status: " +:+ pretty status) body))).
  { unfold _performRequest, tryBlock. rewrite Hok. cbn [negb].
    unfold httpErrorMessage.
    apply Z.eqb_neq in H401, H429. rewrite H401, H429.
    assert (H500 : (500 <=? status)%Z = false) by (apply Z.leb_gt; lia).
    rewrite H500. reflexivity. }
  rewrite Hmsg. split.
  - intros success m d -> Hm. cbn.
    apply truthy_nonempty in Hm. rewrite Hm. reflexivity.
  - intros Hsilent. rewrite messageOr_silent by exact Hsilent.
    split; [reflexivity |]. cbn [errorTypeOf message]. f_equal.
    pose proof default_messages_unknown as Hall.
    rewrite forallb_forall in Hall.
    assert (Hin : In status (seqZ 0 500)).
    { apply list_elem_of_In, elem_of_seqZ. lia. }
    specialize (Hall status Hin).
    apply Z.eqb_neq in H401, H429. rewrite H401, H429 in Hall. cbn in Hall.
    unfold defaultMessageKind in Hall. apply bool_decide_eq_true in Hall.
    exact Hall.
Qed.

Lemma other_status_message_witness :
  _performRequest (Response 404 (JsonObject false None None)) =
    Threw (mkThrown "Error" "HTTP error! status: 404") /\
  _performRequest (Response 400 (JsonObject false (Some "Invalid category") None)) =
    Threw (mkThrown "Error" "Invalid category").
Proof.
  split.
  - apply (other_status_message 404 (JsonObject false None None));
      [lia | reflexivity | discriminate | discriminate | discriminate].
  - destruct (other_status_message 400
                (JsonObject false (Some "Invalid category") None)) as [H _];
      [lia | reflexivity | discriminate | discriminate |].
    apply (H false "Invalid category" None); [reflexivity | discriminate].
Defined.

(** X10. What is shown as a connection error. A rejection of [fetch]
    with a TypeError whose message mentions "fetch" becomes the "Unable
    to connect" error and is NETWORK_ERROR. So is a successful response
    whose body reports failure without a message: it is thrown as
    "Failed to fetch news", which the classifier also reads as
    NETWORK_ERROR. A body that reports success returns its data. *)
Theorem connection_errors (e : Thrown) (status : Z) (d : option ResponseData) :
  name e = "TypeError" -> Occurs "fetch" (message e) -> ok status = true ->
  _performRequest (NetworkFailure e) =
    Threw (mkThrown "Error"
             "Unable to connect to backend service. Please check if the backend is running.") /\
  errorTypeOf (_performRequest (NetworkFailure e)) = Some NETWORK_ERROR /\
  _performRequest (Response status (JsonObject false None d)) =
    Threw (mkThrown "Error" "Failed to fetch news") /\
  errorTypeOf (_performRequest (Response status (JsonObject false None d))) =
    Some NETWORK_ERROR /\
  _performRequest (Response status (JsonObject true None d)) = Returned d.
Proof.
  intros Hname Hfetch Hok. apply includes_spec in Hfetch.
  unfold _performRequest, tryBlock, catchBlock.
  rewrite Hname, Hfetch, Hok. cbn. auto.
Qed.

Lemma connection_errors_witness :
  errorTypeOf (_performRequest (NetworkFailure (mkThrown "TypeError" "Failed to fetch"))) =
    Some NETWORK_ERROR /\
  errorTypeOf (_performRequest (Response 200 (JsonObject false None None))) =
    Some NETWORK_ERROR.
Proof.
  destruct (connection_errors (mkThrown "TypeError" "Failed to fetch") 200 None)
    as (_ & H1 & _ & H2 & _).
  - reflexivity.
  - exists "Failed to ", "". reflexivity.
  - reflexivity.
  - split; assumption.
Defined.

End PerformRequestFacts.

Module MockDataFacts.
Import JsString JsStringFacts PerformRequest.

Lemma sublist_List_filter {A} (f : A -> bool) (l : list A) :
  sublist (List.filter f l) l.
Proof.
  induction l as [|x l IH]; cbn; [constructor |].
  destruct (f x); [apply sublist_skip | apply sublist_cons]; exact IH.
Qed.

Lemma Forall_List_filter {A} (f : A -> bool) (l : list A) :
  Forall (fun x => f x = true) (List.filter f l).
Proof.
  apply Forall_forall. intros x Hx. apply list_elem_of_In, filter_In in Hx. tauto.
Qed.

Lemma Forall_of_sublist {A} (P : A -> Prop) (k l : list A) :
  sublist k l -> Forall P l -> Forall P k.
Proof.
  induction 1 as [|x k l _ IH|x k l _ IH]; intros Hl.
  - constructor.
  - apply Forall_cons in Hl as [Hx Hl]. constructor; auto.
  - apply Forall_cons in Hl as [_ Hl]. auto.
Qed.

(** X11. Mock data: the answer lists a selection of the data set in its
    original order and [totalResults] is the number of articles listed,
    on page 1 of size 20. Without a category (missing, empty or "All")
    and with a blank query the whole data set is returned. A category
    keeps only articles whose own category equals it up to case; a
    non-blank query keeps only articles whose lower-cased title or
    description contains the lower-cased query, blanks included. *)
Theorem mockData_selection (dataset : list MockArticle) (cat query : JsVal) :
  exists kept,
    _getMockData dataset cat query =
      {| articles := Some (map article kept);
         totalResults := Z.of_nat (length kept);
         page := 1; pageSize := 20; fromCache := None |} /\
    sublist kept dataset /\
    ((cat = JsUndefined \/ cat = JsNull \/ cat = JsStr "" \/ cat = JsStr "All") ->
     (query = JsUndefined \/ query = JsNull \/
      exists q, query = JsStr q /\ trim q = "") ->
     kept = dataset) /\
    (forall c, cat = JsStr c -> c <> "" -> c <> "All" ->
       Forall (fun a => exists ac, category a = Some ac /\
                                   toLowerCase ac = toLowerCase c) kept) /\
    (forall q, query = JsStr q -> trim q <> "" ->
       Forall (fun a => mentions (toLowerCase q) a = true) kept).
Proof.
  unfold _getMockData.
  set (byCategory :=
         match cat with
         | JsStr c =>
             if truthy c && negb (String.eqb c "All")
             then List.filter (inCategory c) dataset else dataset
         | _ => dataset
         end).
  set (bySearch :=
         match query with
         | JsStr q =>
             if truthy q && truthy (trim q)
             then List.filter (mentions (toLowerCase q)) byCategory
             else byCategory
         | _ => byCategory
         end).
  assert (Hsub1 : sublist byCategory dataset).
  { subst byCategory. destruct cat as [| |c]; try reflexivity.
    destruct (truthy c && negb (String.eqb c "All"));
      [apply sublist_List_filter | reflexivity]. }
  assert (Hsub2 : sublist bySearch byCategory).
  { subst bySearch. destruct query as [| |q]; try reflexivity.
    destruct (truthy q && truthy (trim q));
      [apply sublist_List_filter | reflexivity]. }
  exists bySearch. split; [reflexivity |].
  split; [etransitivity; eassumption |]. split; [| split].
  - intros Hcat Hq.
    assert (Hc : byCategory = dataset).
    { subst byCategory.
      destruct Hcat as [-> | [-> | [-> | ->]]]; reflexivity. }
    subst bySearch. rewrite Hc.
    destruct Hq as [-> | [-> | (q & -> & Hblank)]]; try reflexivity.
    apply truthy_empty in Hblank. rewrite Hblank, andb_false_r. reflexivity.
  - intros c -> Hne Hall.
    assert (Hcat : Forall (fun a => inCategory c a = true) byCategory).
    { subst byCategory. apply truthy_nonempty in Hne. rewrite Hne.
      destruct (String.eqb_spec c "All"); [contradiction |].
      apply Forall_List_filter. }
    eapply Forall_impl.
    + eapply Forall_of_sublist; [exact Hsub2 | exact Hcat].
    + intros a Ha. unfold inCategory in Ha.
      destruct (category a) as [ac|]; [| discriminate].
      exists ac. split; [reflexivity | apply String.eqb_eq, Ha].
  - intros q -> Hne. subst bySearch.
    apply truthy_nonempty in Hne. rewrite Hne.
    destruct (truthy q) eqn:Hq.
    + apply Forall_List_filter.
    + apply truthy_empty in Hq. subst q. discriminate Hne.
Qed.

End MockDataFacts.

(** ** The hook against the service *)

Module AggregationFacts.
Import JsString NewsService DedupFacts CacheFacts OptimizedNews OptimizedNewsFacts Aggregation.

Lemma getFromCache_valid s k now e :
  cache s !! k = Some e -> _isCacheValid (Some e) now = true ->
  _getFromCache s k now = (s, Some (withFromCache true (data e))).
Proof.
  intros He Hv. unfold _getFromCache. rewrite He, Hv. reflexivity.
Qed.

Lemma getFromCache_expired s k now e :
  cache s !! k = Some e -> _isCacheValid (Some e) now = false ->
  _getFromCache s k now = (withCache (delete k (cache s)) s, None).
Proof.
  intros He Hv. unfold _getFromCache. rewrite He, Hv. reflexivity.
Qed.

Lemma isCached_strings svc c q t :
  isCached svc (JsStr c) (JsStr q) t =
    Ok (_isCacheValid (cache svc !! (toLowerCase c +:+ "-" +:+ trim (toLowerCase q))) t).
Proof. reflexivity. Qed.

(** The peek in terms of the entry of the key. *)
Lemma peek_unfold enableCache svc c q tCheck tRead :
  peek enableCache svc c q tCheck tRead =
    if enableCache &&
       _isCacheValid (cache svc !! (toLowerCase c +:+ "-" +:+ trim (toLowerCase q))) tCheck
    then _getFromCache svc (toLowerCase c +:+ "-" +:+ trim (toLowerCase q)) tRead
    else (svc, None).
Proof.
  unfold peek. rewrite isCached_strings. destruct enableCache; [| reflexivity].
  cbn [negb andb].
  change (_generateCacheKey (JsStr c) (JsStr q))
    with (Ok (toLowerCase c +:+ "-" +:+ trim (toLowerCase q))).
  cbv beta iota.
  destruct (_isCacheValid _ tCheck); reflexivity.
Qed.

(** What a peek that finds data has found: an entry valid at both
    readings; the service is as before. *)
Lemma peek_hit enableCache svc c q tCheck tRead d :
  (peek enableCache svc c q tCheck tRead).2 = Some d ->
  enableCache = true /\
  exists e,
    cache svc !! (toLowerCase c +:+ "-" +:+ trim (toLowerCase q)) = Some e /\
    _isCacheValid (Some e) tCheck = true /\
    _isCacheValid (Some e) tRead = true /\
    d = withFromCache true (data e) /\
    peek enableCache svc c q tCheck tRead = (svc, Some d).
Proof.
  rewrite peek_unfold.
  set (k := toLowerCase c +:+ "-" +:+ trim (toLowerCase q)).
  destruct enableCache; [| cbn; discriminate]. cbn [andb].
  destruct (cache svc !! k) as [e |] eqn:He; [| cbn; discriminate].
  destruct (_isCacheValid (Some e) tCheck) eqn:Hc; [| cbn; discriminate].
  destruct (_isCacheValid (Some e) tRead) eqn:Hr.
  - rewrite (getFromCache_valid svc k tRead e He Hr). cbn [snd].
    intros Hd. injection Hd as <-. split; [reflexivity |]. exists e. auto.
  - rewrite (getFromCache_expired svc k tRead e He Hr). cbn. discriminate.
Qed.

Lemma peek_valid svc c q tCheck tRead e :
  cache svc !! (toLowerCase c +:+ "-" +:+ trim (toLowerCase q)) = Some e ->
  _isCacheValid (Some e) tCheck = true ->
  _isCacheValid (Some e) tRead = true ->
  peek true svc c q tCheck tRead = (svc, Some (withFromCache true (data e))).
Proof.
  intros He Hc Hr. rewrite peek_unfold, He, Hc. cbn [andb].
  apply (getFromCache_valid svc _ tRead e He Hr).
Qed.

Lemma peek_miss enableCache svc c q tCheck tRead k :
  fetchNews_cacheKey (JsStr c) (JsStr q) = Ok k ->
  cacheMiss svc k (enableCache, tCheck) ->
  peek enableCache svc c q tCheck tRead = (svc, None).
Proof.
  intros Hkey Hmiss. rewrite peek_unfold.
  rewrite key_of_strings in Hkey. injection Hkey as <-.
  destruct Hmiss as [Hm | Hm]; cbn [fst snd] in Hm.
  - rewrite Hm. reflexivity.
  - rewrite Hm, andb_false_r. reflexivity.
Qed.

Lemma fetchNews_hit svc category query now e :
  cache svc !! (toLowerCase category +:+ "-" +:+ trim (toLowerCase query)) = Some e ->
  _isCacheValid (Some e) now = true ->
  fetchNews svc (JsStr category) (JsStr query) true now =
    (_cleanupCache svc now, FromCache (withFromCache true (data e))).
Proof.
  intros He Hv.
  rewrite (fetchNews_unfold _ _ _ _ _ _ (key_of_strings category query)).
  unfold beforeLookup.
  rewrite (getFromCache_valid (_cleanupCache svc now) _ now e
             (cleanup_lookup_valid svc _ now e He Hv) Hv).
  reflexivity.
Qed.

(** A call of the service that does not hit the cache starts or joins a
    request. *)
Lemma fetchNews_miss_request svc c q u now k :
  fetchNews_cacheKey (JsStr c) (JsStr q) = Ok k ->
  cacheMiss svc k (u, now) ->
  exists pid,
    (fetchNews svc (JsStr c) (JsStr q) u now).2 = Started pid \/
    (fetchNews svc (JsStr c) (JsStr q) u now).2 = Joined pid.
Proof.
  intros Hkey Hmiss.
  destruct (fetchNews_miss svc (JsStr c) (JsStr q) u now k Hkey Hmiss)
    as (s1 & _ & _ & _ & _ & _ & _ & ->).
  destruct (ongoingRequests svc !! k) as [pid |].
  - exists pid. right. reflexivity.
  - exists (performed s1). left. reflexivity.
Qed.

(** X12. The hook's look into the cache reads the clock twice. Data it
    returns comes from the entry of the key with [fromCache] set to
    [true], the service is then as before, and [fetchNews] with
    [useCache] answers that same data from the cache, without a request,
    at any reading at which the entry is still valid. An entry that
    expires between the two readings is deleted and the look returns
    nothing. In no case does the look touch the requests in flight. *)
Theorem peek_reads_or_expires (enableCache : bool) (svc : Service) (category query : string) (tCheck tRead : Z) :
  (peek enableCache svc category query tCheck tRead).2 =
    getCachedDataIfAvailable enableCache svc category query tCheck tRead /\
  performed (peek enableCache svc category query tCheck tRead).1 = performed svc /\
  ongoingRequests (peek enableCache svc category query tCheck tRead).1 =
    ongoingRequests svc /\
  (forall d, (peek enableCache svc category query tCheck tRead).2 = Some d ->
     (peek enableCache svc category query tCheck tRead).1 = svc /\
     (exists a n p ps f ts,
        cache svc !! (toLowerCase category +:+ "-" +:+ trim (toLowerCase query)) =
          Some (mkEntry (mkResponse a n p ps f) ts) /\
        d = mkResponse a n p ps (Some true)) /\
     (forall tCall,
        isCached svc (JsStr category) (JsStr query) tCall = Ok true ->
        (fetchNews svc (JsStr category) (JsStr query) true tCall).2 = FromCache d /\
        performed (fetchNews svc (JsStr category) (JsStr query) true tCall).1 =
          performed svc)) /\
  (forall e,
     cache svc !! (toLowerCase category +:+ "-" +:+ trim (toLowerCase query)) = Some e ->
     _isCacheValid (Some e) tCheck = true ->
     _isCacheValid (Some e) tRead = false ->
     peek true svc category query tCheck tRead =
       (withCache
          (delete (toLowerCase category +:+ "-" +:+ trim (toLowerCase query)) (cache svc))
          svc, None)).
Proof.
  set (k := toLowerCase category +:+ "-" +:+ trim (toLowerCase query)).
  assert (Hfst : performed (peek enableCache svc category query tCheck tRead).1 =
                   performed svc /\
                 ongoingRequests (peek enableCache svc category query tCheck tRead).1 =
                   ongoingRequests svc).
  { rewrite peek_unfold. fold k.
    destruct (enableCache && _isCacheValid (cache svc !! k) tCheck); [| auto].
    unfold _getFromCache.
    destruct (_isCacheValid (cache svc !! k) tRead); [auto |].
    destruct (cache svc !! k); auto. }
  split; [| split; [exact (proj1 Hfst) | split; [exact (proj2 Hfst) | split]]].
  - unfold peek, getCachedDataIfAvailable.
    destruct enableCache; [| reflexivity]. cbn [negb].
    destruct (isCached svc (JsStr category) (JsStr query) tCheck) as [[|]|];
      reflexivity.
  - intros d Hd.
    destruct (peek_hit _ _ _ _ _ _ _ Hd) as (_ & e & He & _ & _ & -> & Hp).
    fold k in He. split; [rewrite Hp; reflexivity |]. split.
    + destruct e as [[a n p ps f] ts]. exists a, n, p, ps, f, ts. auto.
    + intros tCall Hc. rewrite isCached_strings in Hc. fold k in Hc.
      rewrite He in Hc. injection Hc as Hc.
      rewrite (fetchNews_hit svc category query tCall e He Hc). cbn. auto.
  - intros e He Hc Hr. rewrite peek_unfold. fold k. rewrite He, Hc. cbn [andb].
    apply (getFromCache_expired svc k tRead e He Hr).
Qed.

(** X13. Cached data is shown without a loading state: when the look
    into the cache finds data, a fetch that is not a retry shows its
    articles at once with [loading] false and the error cleared. If the
    entry is still valid when the service reads the clock, the service
    answers with the same data from the cache without a request, and its
    arrival leaves the articles as they are and resets the retry count;
    if it has expired by then, a request is started or joined while the
    page shows the cached articles and no loading state. *)
Theorem cached_data_shows_at_once (enableCache : bool) (svc : Service) (s : State) (category query : string) (tCheck tRead tCall : Z) (d : ResponseData) :
  (peek enableCache svc category query tCheck tRead).2 = Some d ->
  let '(svc', r, s1, c) :=
    fetchNews_call enableCache svc s category query false tCheck tRead tCall in
  loading s1 = false /\ error s1 = None /\ errorType s1 = None /\
  (forall a n p ps f, d = mkResponse a n p ps f -> articles s1 = default [] a) /\
  (isCached svc (JsStr category) (JsStr query) tCall = Ok true ->
     r = FromCache d /\ performed svc' = performed svc /\
     articles (fetchNews_resolve s1 c (Some d)) = articles s1 /\
     loading (fetchNews_resolve s1 c (Some d)) = false /\
     retryCount (fetchNews_resolve s1 c (Some d)) = 0) /\
  (isCached svc (JsStr category) (JsStr query) tCall = Ok false ->
     exists pid, r = Started pid \/ r = Joined pid).
Proof.
  intros Hd. unfold fetchNews_call.
  destruct (peek_hit _ _ _ _ _ _ _ Hd) as (-> & e & He & _ & _ & Hde & ->).
  pose proof (begin_matchesLatest true s category query false (Some d)) as Hm.
  destruct (fetchNews_begin true s category query false (Some d)) as [s1 c] eqn:Hb.
  destruct (fetchNews svc (JsStr category) (JsStr query) true tCall) as [svc' r] eqn:Hf.
  destruct Hm as [Hm Hi].
  assert (Hs1 : loading s1 = false /\ error s1 = None /\ errorType s1 = None /\
                articles s1 = articlesOrEmpty (Some d)).
  { unfold fetchNews_begin in Hb. cbn in Hb. injection Hb as <- <-. cbn. auto. }
  destruct Hs1 as (Hl & He1 & Ht1 & Ha).
  split; [exact Hl |]. split; [exact He1 |]. split; [exact Ht1 |].
  split; [intros a n p ps f ->; exact Ha |]. split.
  - intros Hc. rewrite isCached_strings, He in Hc. injection Hc as Hc.
    rewrite (fetchNews_hit svc category query tCall e He Hc) in Hf.
    injection Hf as <- <-. split; [rewrite Hde; reflexivity |].
    split; [reflexivity |].
    unfold fetchNews_resolve, fetchNews_finally. rewrite Hi.
    assert (Hm' : matchesLatest
                    (setRetryCount 0 (setArticles (articlesOrEmpty (Some d)) s1)) c = true)
      by exact Hm.
    rewrite Hm'. cbn. rewrite Ha. auto.
  - intros Hc. rewrite isCached_strings in Hc. injection Hc as Hc.
    destruct (fetchNews_miss_request svc category query true tCall _
                (key_of_strings category query) (or_intror Hc)) as (pid & H).
    rewrite Hf in H. exists pid. exact H.
Qed.

Lemma cached_data_shows_at_once_witness :
  let '(svc', r, s1, c) :=
    fetchNews_call true (_setCache initial "technology-" samplePayload 0)
      (mounted "Technology" "") "Technology" "" false 1000 1001 1002 in
  loading (mounted "Technology" "") = true /\
  loading s1 = false /\ error s1 = None /\
  articles s1 = [mkArticle "1" "First" "" "https://example.com/1";
                 mkArticle "2" "Second" "" "https://example.com/2"] /\
  r = FromCache (mkResponse
                   (Some [mkArticle "1" "First" "" "https://example.com/1";
                          mkArticle "2" "Second" "" "https://example.com/2"])
                   2 1 20 (Some true)) /\
  performed svc' = 0.
Proof.
  pose proof (cached_data_shows_at_once true
                (_setCache initial "technology-" samplePayload 0)
                (mounted "Technology" "") "Technology" "" 1000 1001 1002
                (mkResponse
                   (Some [mkArticle "1" "First" "" "https://example.com/1";
                          mkArticle "2" "Second" "" "https://example.com/2"])
                   2 1 20 (Some true))) as H.
  destruct (fetchNews_call true (_setCache initial "technology-" samplePayload 0)
              (mounted "Technology" "") "Technology" "" false 1000 1001 1002)
    as [[[svc' r] s1] c].
  destruct (H eq_refl) as (Hl & He & _ & Ha & Hvalid & _).
  destruct (Hvalid eq_refl) as (Hr & Hp & _).
  split; [reflexivity |]. split; [exact Hl |]. split; [exact He |].
  split; [exact (Ha _ _ _ _ _ eq_refl) |]. split; [exact Hr | exact Hp].
Defined.

(** X14. [refresh] always goes to the network: whatever is cached or in
    flight and whatever the clock reads, the service starts a new
    request, and the hook shows the loading state with the error cleared
    and the articles kept. *)
Theorem refresh_starts_request (enableCache : bool) (svc : Service) (s : State) (tCheck tRead tCall : Z) :
  let '(svc', r, s1, c) := refresh enableCache svc s tCheck tRead tCall in
  r = Started (performed svc) /\ performed svc' = S (performed svc) /\
  loading s1 = true /\ error s1 = None /\ errorType s1 = None /\
  articles s1 = articles s /\ isRetry c = false.
Proof.
  unfold refresh, fetchNews_call.
  assert (Hpeek : peek enableCache (clearCache svc) (selectedCategory s)
                    (debouncedSearchTerm s) tCheck tRead = (clearCache svc, None)).
  { rewrite peek_unfold. cbn [clearCache cache]. rewrite lookup_empty.
    cbn [_isCacheValid]. rewrite andb_false_r. reflexivity. }
  rewrite Hpeek.
  destruct (fetchNews_start (clearCache svc) (JsStr (selectedCategory s))
              (JsStr (debouncedSearchTerm s)) enableCache tCall _
              (key_of_strings _ _)) as (s0 & _ & _ & _ & _ & Hp & _ & Hf).
  - apply lookup_empty.
  - right. cbn. rewrite lookup_empty. reflexivity.
  - rewrite Hf. unfold startRequest, fetchNews_begin. cbn. rewrite Hp. cbn. auto 10.
Qed.

End AggregationFacts.

(** ** The hook: success, and older responses for the same parameters *)

Module HookFacts.
Import OptimizedNews OptimizedNewsFacts.

Lemma handleRetry_first s :
  retryCount s = 0 -> (handleRetry s).2 = Immediately.
Proof.
  intros Hc. unfold handleRetry. rewrite Hc. cbn.
  rewrite andb_false_r. reflexivity.
Qed.

Lemma reject_latest_flags s c e :
  matchesLatest s c = true ->
  loading (fetchNews_reject s c e) = false /\
  isRetrying (fetchNews_reject s c e) = false.
Proof.
  intros Hm. unfold fetchNews_reject, fetchNews_finally. rewrite Hm.
  destruct (negb (isRetry c) || Nat.eqb (length (seenArticles c)) 0);
    unfold matchesLatest in *; cbn; destruct (lastFetchParams s);
    try discriminate; rewrite Hm; cbn; auto.
Qed.

(** X15. A success resets the back-off: when the response of the latest
    call arrives, its articles are shown and the retry count is zero, so
    after whatever failure comes next the first retry is immediate, rate
    limit or not. *)
Theorem success_resets_backoff (enableCache : bool) (s : State) (c : Call) (d cached : option ResponseData) (cat q : string) (e : JsError) :
  isLatestObject s c = true ->
  articles (fetchNews_resolve s c d) = articlesOrEmpty d /\
  retryCount (fetchNews_resolve s c d) = 0 /\
  (handleRetry
     (fetchNews_reject
        (fetchNews_begin enableCache (fetchNews_resolve s c d) cat q false cached).1
        (fetchNews_begin enableCache (fetchNews_resolve s c d) cat q false cached).2
        e)).2 = Immediately.
Proof.
  intros Hi. destruct (resolve_latest s c d Hi) as (Ha & _ & _ & Hr).
  split; [exact Ha |]. split; [exact Hr |].
  apply handleRetry_first.
  pose proof (begin_matchesLatest enableCache (fetchNews_resolve s c d) cat q
                false cached) as Hm.
  assert (Hb : retryCount
                 (fetchNews_begin enableCache (fetchNews_resolve s c d) cat q
                    false cached).1 = retryCount (fetchNews_resolve s c d)).
  { unfold fetchNews_begin. destruct cached; reflexivity. }
  destruct (fetchNews_begin enableCache (fetchNews_resolve s c d) cat q false cached)
    as [s1 c1].
  cbn [fst snd] in *. destruct Hm as [Hm _].
  destruct (reject_latest s1 c1 e Hm) as (_ & _ & -> & _).
  rewrite Hb. exact Hr.
Qed.

Lemma success_resets_backoff_witness :
  let b := fetchNews_begin true (setRetryCount 3 rateLimited) "All" "" true None in
  retryCount b.1 = 3 /\
  (handleRetry (fetchNews_reject b.1 b.2 rateLimitError)).2 = After 8000 /\
  articles (fetchNews_resolve b.1 b.2 (Some samplePayload)) =
    [mkArticle "1" "First" "" "https://example.com/1";
     mkArticle "2" "Second" "" "https://example.com/2"] /\
  retryCount (fetchNews_resolve b.1 b.2 (Some samplePayload)) = 0 /\
  (handleRetry
     (fetchNews_reject
        (fetchNews_begin true (fetchNews_resolve b.1 b.2 (Some samplePayload))
           "All" "" false None).1
        (fetchNews_begin true (fetchNews_resolve b.1 b.2 (Some samplePayload))
           "All" "" false None).2
        rateLimitError)).2 = Immediately.
Proof.
  cbv zeta. split; [reflexivity |]. split; [reflexivity |].
  apply (success_resets_backoff true
           (fetchNews_begin true (setRetryCount 3 rateLimited) "All" "" true None).1
           (fetchNews_begin true (setRetryCount 3 rateLimited) "All" "" true None).2
           (Some samplePayload) None "All" "" rateLimitError).
  reflexivity.
Defined.

(** X16. Two calls with the same category and query, the second made
    before the first has settled. The late success of the first is not
    shown (articles and retry count stay) but ends the loading and
    retrying flags although the second is still in flight; its late
    failure is recorded as the current error. *)
Theorem older_call_with_same_parameters (enableCache : bool) (s : State) (cat q : string) (rA rB : bool) (cA cB : option ResponseData) (d : option ResponseData) (e : JsError) :
  let a := fetchNews_begin enableCache s cat q rA cA in
  let b := fetchNews_begin enableCache a.1 cat q rB cB in
  (articles (fetchNews_resolve b.1 a.2 d) = articles b.1 /\
   retryCount (fetchNews_resolve b.1 a.2 d) = retryCount b.1 /\
   loading (fetchNews_resolve b.1 a.2 d) = false /\
   isRetrying (fetchNews_resolve b.1 a.2 d) = false) /\
  (error (fetchNews_reject b.1 a.2 e) = Some (message e) /\
   errorType (fetchNews_reject b.1 a.2 e) = Some (getErrorType (message e)) /\
   loading (fetchNews_reject b.1 a.2 e) = false).
Proof.
  intros a b.
  destruct (begin_spec enableCache s cat q rA cA) as (_ & HpA & HnA & _).
  destruct (begin_spec enableCache a.1 cat q rB cB) as (HlB & _).
  fold a in HpA, HnA. fold b in HlB. rewrite HnA in HlB.
  assert (Hi : isLatestObject b.1 a.2 = false).
  { unfold isLatestObject. rewrite HlB, HpA. cbn [paramsId].
    apply Nat.eqb_neq. lia. }
  assert (Hm : matchesLatest b.1 a.2 = true).
  { unfold matchesLatest. rewrite HlB, HpA. cbn [category query].
    rewrite !String.eqb_refl. reflexivity. }
  split.
  - unfold fetchNews_resolve, fetchNews_finally. rewrite Hi, Hm. cbn. auto.
  - destruct (reject_latest b.1 a.2 e Hm) as (He & Ht & _).
    split; [exact He |]. split; [exact Ht |].
    exact (proj1 (reject_latest_flags b.1 a.2 e Hm)).
Qed.

End HookFacts.

(** ** The page: duplicates, bookmarks and the retry line *)

Module HomePageFacts.
Import JsString OptimizedNews OptimizedNewsFacts HomePage.

Lemma keepUnseen_spec l : forall seen,
  NoDup (map articleKey (keepUnseen seen l)) /\
  (forall a, a ∈ keepUnseen seen l -> articleKey a ∉ seen) /\
  sublist (keepUnseen seen l) l /\
  (forall a, a ∈ l ->
     articleKey a ∈ seen \/ articleKey a ∈ map articleKey (keepUnseen seen l)).
Proof.
  induction l as [|a l IH]; intros seen; cbn [keepUnseen].
  - repeat split; [constructor | | constructor |]; intros a Ha;
      apply elem_of_nil in Ha; contradiction.
  - destruct (decide (articleKey a ∈ seen)) as [Hin | Hout].
    + destruct (IH seen) as (Hnd & Hfresh & Hsub & Hcov).
      repeat split; [exact Hnd | exact Hfresh | apply sublist_cons, Hsub |].
      intros b Hb. apply elem_of_cons in Hb as [-> | Hb]; [left; exact Hin | auto].
    + destruct (IH ({[articleKey a]} ∪ seen)) as (Hnd & Hfresh & Hsub & Hcov).
      repeat split.
      * cbn. apply NoDup_cons. split; [| exact Hnd].
        intros Hk. apply list_elem_of_fmap in Hk as (b & Hkb & Hb).
        apply Hfresh in Hb. rewrite <- Hkb in Hb. set_solver.
      * intros b Hb. apply elem_of_cons in Hb as [-> | Hb]; [exact Hout |].
        apply Hfresh in Hb. set_solver.
      * apply sublist_skip, Hsub.
      * intros b Hb. cbn. apply elem_of_cons in Hb as [-> | Hb].
        -- right. apply elem_of_cons. left. reflexivity.
        -- destruct (Hcov b Hb) as [Hs | Hk].
           ++ apply elem_of_union in Hs as [Hs | Hs].
              ** right. apply elem_of_singleton in Hs. rewrite Hs.
                 apply elem_of_cons. left. reflexivity.
              ** left. exact Hs.
           ++ right. apply elem_of_cons. right. exact Hk.
Qed.

Lemma keepUnseen_id l : forall seen,
  NoDup (map articleKey l) ->
  (forall a, a ∈ l -> articleKey a ∉ seen) ->
  keepUnseen seen l = l.
Proof.
  induction l as [|a l IH]; intros seen Hnd Hfresh; [reflexivity |].
  cbn [keepUnseen]. cbn in Hnd. apply NoDup_cons in Hnd as [Ha Hnd].
  rewrite decide_False by (apply Hfresh; apply elem_of_cons; left; reflexivity).
  f_equal. apply IH; [exact Hnd |].
  intros b Hb Hin. apply elem_of_union in Hin as [Hin | Hin].
  - apply elem_of_singleton in Hin. apply Ha. rewrite <- Hin.
    apply list_elem_of_fmap. exists b. auto.
  - apply (Hfresh b); [apply elem_of_cons; right; exact Hb | exact Hin].
Qed.

Lemma filteredArticles_keepUnseen l : filteredArticles l = keepUnseen ∅ l.
Proof. destruct l; reflexivity. Qed.

(** X17. The list on the page has no two articles with the same key
    (url, else id, else title); it is a selection of the loaded articles
    in their order; every loaded article has its key on the page; a list
    without duplicate keys is shown whole; and filtering again changes
    nothing. *)
Theorem filteredArticles_unique (l : list Article) :
  NoDup (map articleKey (filteredArticles l)) /\
  sublist (filteredArticles l) l /\
  (forall a, a ∈ l -> articleKey a ∈ map articleKey (filteredArticles l)) /\
  (NoDup (map articleKey l) -> filteredArticles l = l) /\
  filteredArticles (filteredArticles l) = filteredArticles l.
Proof.
  rewrite !filteredArticles_keepUnseen.
  destruct (keepUnseen_spec l ∅) as (Hnd & _ & Hsub & Hcov).
  split; [exact Hnd |]. split; [exact Hsub |]. split; [| split].
  - intros a Ha. destruct (Hcov a Ha) as [Hs | Hk]; [set_solver | exact Hk].
  - intros Hl. apply keepUnseen_id; [exact Hl | set_solver].
  - apply keepUnseen_id; [exact Hnd | set_solver].
Qed.

Lemma toggleBookmark_in (bookmarked : gset string) (articleId : string) :
  articleId ∈ bookmarked ->
  toggleBookmark bookmarked articleId = bookmarked ∖ {[articleId]}.
Proof. intros H. unfold toggleBookmark. rewrite decide_True by exact H. reflexivity. Qed.

Lemma toggleBookmark_out (bookmarked : gset string) (articleId : string) :
  articleId ∉ bookmarked ->
  toggleBookmark bookmarked articleId = {[articleId]} ∪ bookmarked.
Proof. intros H. unfold toggleBookmark. rewrite decide_False by exact H. reflexivity. Qed.

(** X18. Toggling a bookmark flips exactly that article: it is
    bookmarked afterwards if and only if it was not before, every other
    article keeps its state, and toggling twice restores the set. *)
Theorem toggleBookmark_flips (bookmarked : gset string) (articleId : string) :
  (articleId ∈ toggleBookmark bookmarked articleId <-> articleId ∉ bookmarked) /\
  (forall other, other <> articleId ->
     (other ∈ toggleBookmark bookmarked articleId <-> other ∈ bookmarked)) /\
  toggleBookmark (toggleBookmark bookmarked articleId) articleId = bookmarked.
Proof.
  destruct (decide (articleId ∈ bookmarked)) as [Hin | Hout].
  - rewrite (toggleBookmark_in _ _ Hin).
    split; [set_solver |]. split; [set_solver |].
    rewrite toggleBookmark_out by set_solver.
    apply set_eq. intros x. destruct (decide (x = articleId)); set_solver.
  - rewrite (toggleBookmark_out _ _ Hout).
    split; [set_solver |]. split; [set_solver |].
    rewrite toggleBookmark_in by set_solver. set_solver.
Qed.

(** X19. The waiting time printed under a rate-limit error is the delay
    [handleRetry] has just scheduled: after a retry is requested, the
    page computes from the new retry count the very delay handed to
    [setTimeout], and prints the line exactly when that retry is not an
    immediate one. Only an authentication error offers no retry. *)
Theorem shown_delay_is_scheduled_delay (s : State) :
  errorType s = Some RATE_LIMIT ->
  retryDelay (errorType (handleRetry s).1) (retryCount (handleRetry s).1) =
    Some (delayOf (handleRetry s).2) /\
  showsWaiting (errorType (handleRetry s).1) (retryCount (handleRetry s).1) =
    negb (Nat.eqb (retryCount s) 0) /\
  (forall k, canRetry k = false <-> k = Some AUTH_ERROR).
Proof.
  intros Ht.
  assert (Hplan : (handleRetry s).1 = setRetryCount (S (retryCount s)) s /\
                  (handleRetry s).2 =
                    if Nat.eqb (retryCount s) 0 then Immediately
                    else After (Z.min (1000 * 2 ^ Z.of_nat (retryCount s)) 30000)).
  { unfold handleRetry. rewrite Ht.
    rewrite bool_decide_eq_true_2 by reflexivity. cbn [andb].
    replace (retryCount s + 1) with (S (retryCount s)) by lia.
    destruct (retryCount s) as [|r]; cbn [Nat.ltb Nat.leb Nat.eqb fst snd].
    - auto.
    - replace (S (S r) - 1) with (S r) by lia. auto. }
  destruct Hplan as [-> ->]. unfold showsWaiting, retryDelay. cbn [errorType retryCount setRetryCount].
  rewrite Ht. split; [| split].
  - destruct (retryCount s) as [|r]; cbn [Nat.ltb Nat.leb Nat.eqb delayOf];
      [reflexivity |].
    replace (S (S r) - 1) with (S r) by lia. reflexivity.
  - destruct (retryCount s) as [|r]; cbn [Nat.ltb Nat.leb Nat.eqb negb];
      [reflexivity |].
    apply Z.ltb_lt. apply Z.min_glb_lt; [| lia].
    assert (0 < 2 ^ Z.of_nat (S (S r) - 1))%Z by (apply Z.pow_pos_nonneg; lia).
    lia.
  - intros k. destruct k as [[]|]; cbn; split; intros H; congruence.
Qed.

Lemma shown_delay_is_scheduled_delay_witness :
  retryDelay (errorType (handleRetry (setRetryCount 1 rateLimited)).1)
    (retryCount (handleRetry (setRetryCount 1 rateLimited)).1) = Some 2000%Z.
Proof.
  destruct (shown_delay_is_scheduled_delay (setRetryCount 1 rateLimited) eq_refl)
    as [H _].
  exact H.
Defined.

End HomePageFacts.

(** ** The debounced search term *)

Module DebounceFacts.
Import Debounce.

Lemma mount_consistent v0 : Consistent (mount v0).
Proof.
  unfold Consistent, mount. cbn. repeat split; try congruence; discriminate.
Qed.

Lemma render_consistent v s : Consistent s -> Consistent (render v s).
Proof.
  intros (Hh & Hs & Hn). unfold render.
  destruct (String.eqb_spec v (searchTerm s)) as [_ | _]; [repeat split; auto; apply Hn; auto |].
  unfold Consistent, effect. cbn.
  destruct (String.eqb_spec v (debouncedSearchTerm s)) as [E | E];
    repeat split; try congruence; try discriminate.
Qed.

Lemma fire_consistent s : Consistent s -> Consistent (fire s).
Proof.
  intros (Hh & Hs & Hn). unfold fire.
  destruct (handler s) as [v |] eqn:Ev;
    [| repeat split; auto; try apply Hn; auto; congruence].
  pose proof (Hh v eq_refl) as ->.
  destruct (String.eqb_spec (searchTerm s) (debouncedSearchTerm s)) as [E | E];
    unfold Consistent, effect; cbn; rewrite ?String.eqb_refl;
    repeat split; try congruence; try discriminate.
Qed.

Lemma run_consistent evs : forall s, Consistent s -> Consistent (run s evs).
Proof.
  induction evs as [| e evs IH]; intros s Hs; [exact Hs |].
  cbn [run fold_left]. apply IH. destruct e; cbn [step].
  - apply render_consistent, Hs.
  - apply fire_consistent, Hs.
Qed.

Lemma fire_catches_up s :
  Consistent s ->
  debouncedSearchTerm (fire s) = searchTerm s /\
  searchTerm (fire s) = searchTerm s /\
  isSearching (fire s) = false.
Proof.
  intros (Hh & Hs & Hn). unfold fire.
  destruct (handler s) as [v |] eqn:Ev.
  - pose proof (Hh v eq_refl) as ->.
    destruct (String.eqb_spec (searchTerm s) (debouncedSearchTerm s)) as [E | E];
      unfold effect; cbn; rewrite ?String.eqb_refl; auto.
  - destruct (Hn eq_refl) as [Hd Hi]. auto.
Qed.

Lemma fire_twice_rests s :
  Consistent s -> handler (fire (fire s)) = None.
Proof.
  intros (Hh & Hs & Hn). unfold fire at 2.
  destruct (handler s) as [v |] eqn:Ev.
  - pose proof (Hh v eq_refl) as ->.
    destruct (String.eqb_spec (searchTerm s) (debouncedSearchTerm s)) as [E | E].
    + reflexivity.
    + unfold fire, effect. cbn. rewrite String.eqb_refl. reflexivity.
  - unfold fire. rewrite Ev. exact Ev.
Qed.

(** X20. Between any two events of the debounced search (renders with a
    new or old term, timer firings, in any order) a pending timer carries
    the current search term, the searching flag is down only if the
    debounced term equals the search term, and with no timer pending the
    debounced term equals the search term and the flag is down. *)
Theorem debounce_consistent (initial : string) (evs : list Event) :
  let s := run (mount initial) evs in
  (forall v, handler s = Some v -> v = searchTerm s) /\
  (isSearching s = false -> debouncedSearchTerm s = searchTerm s) /\
  (handler s = None ->
     debouncedSearchTerm s = searchTerm s /\ isSearching s = false).
Proof.
  exact (run_consistent evs (mount initial) (mount_consistent initial)).
Qed.

(** X21. After any history, the debounced term changes only when the
    timer fires: a render never changes it, and a render with a new term
    replaces the pending timer by one carrying that term. One firing
    makes the debounced term the current search term and lowers the
    flag; after a second firing no timer is pending, and further firings
    change nothing. *)
Theorem debounce_settles (initial : string) (evs : list Event) :
  let s := run (mount initial) evs in
  (forall v, debouncedSearchTerm (render v s) = debouncedSearchTerm s) /\
  (forall v, v <> searchTerm s -> handler (render v s) = Some v) /\
  debouncedSearchTerm (fire s) = searchTerm s /\
  isSearching (fire s) = false /\
  handler (fire (fire s)) = None /\
  fire (fire (fire s)) = fire (fire s).
Proof.
  intros s.
  assert (Hc : Consistent s)
    by exact (run_consistent evs (mount initial) (mount_consistent initial)).
  split; [| split].
  - intros v. unfold render.
    destruct (String.eqb v (searchTerm s)); reflexivity.
  - intros v Hv. unfold render.
    destruct (String.eqb_spec v (searchTerm s)); [contradiction | reflexivity].
  - destruct (fire_catches_up s Hc) as (Hd & _ & Hi).
    split; [exact Hd |]. split; [exact Hi |].
    pose proof (fire_twice_rests s Hc) as Hr.
    split; [exact Hr |]. unfold fire at 1. rewrite Hr. reflexivity.
Qed.

(** X22. The searching flag can outlive the difference it reports: when
    the term is changed and changed back before the timer fires, the
    debounced term equals the search term again but the flag stays up
    until the timer fires. *)
Theorem searching_flag_outlives_difference (a b : string) :
  a <> b ->
  let s := run (mount a) [Render b; Render a] in
  debouncedSearchTerm s = searchTerm s /\
  isSearching s = true /\
  isSearching (fire s) = false.
Proof.
  intros Hab.
  assert (Hba : String.eqb b a = false) by (apply String.eqb_neq; congruence).
  assert (Hab' : String.eqb a b = false) by (apply String.eqb_neq; exact Hab).
  cbn [run fold_left step]. unfold mount, render, fire, effect.
  cbn [searchTerm debouncedSearchTerm isSearching handler].
  rewrite Hba. cbn [searchTerm debouncedSearchTerm isSearching handler].
  rewrite Hab'. cbn [searchTerm debouncedSearchTerm isSearching handler].
  rewrite ?String.eqb_refl, ?Hba, ?Hab'.
  cbn [searchTerm debouncedSearchTerm isSearching handler].
  rewrite ?String.eqb_refl. auto.
Qed.

Lemma searching_flag_outlives_difference_witness :
  isSearching (run (mount "ai") [Render "ai news"; Render "ai"]) = true.
Proof.
  apply (searching_flag_outlives_difference "ai" "ai news").
  discriminate.
Defined.

End DebounceFacts.

(** ** The fetching effect *)

Module EffectFacts.
Import JsString NewsService DedupFacts CacheFacts OptimizedNews OptimizedNewsFacts Aggregation AggregationFacts.

(** A call of the hook's [fetchNews] that finds nothing cached and
    nothing in flight starts a request. *)
Lemma call_miss enableCache svc s c q r tCheck tRead tCall k :
  fetchNews_cacheKey (JsStr c) (JsStr q) = Ok k ->
  ongoingRequests svc !! k = None ->
  cacheMiss svc k (enableCache, tCheck) ->
  cacheMiss svc k (enableCache, tCall) ->
  exists svc0,
    ongoingRequests svc0 = ongoingRequests svc /\
    performed svc0 = performed svc /\
    (enableCache = true -> cache svc0 !! k = None) /\
    fetchNews_call enableCache svc s c q r tCheck tRead tCall =
      ((startRequest svc0 (mkFrame k enableCache (JsStr c) (JsStr q))).1,
       Started (performed svc),
       (fetchNews_begin enableCache s c q r None).1,
       (fetchNews_begin enableCache s c q r None).2).
Proof.
  intros Hkey Hfree Hcheck Hcall. unfold fetchNews_call.
  rewrite (peek_miss enableCache svc c q tCheck tRead k Hkey Hcheck).
  destruct (fetchNews_start svc (JsStr c) (JsStr q) enableCache tCall k Hkey Hfree Hcall)
    as (svc0 & _ & Ho & _ & _ & Hp & Hc & Hf).
  exists svc0. split; [exact Ho |]. split; [exact Hp |]. split; [exact Hc |].
  destruct (fetchNews_begin enableCache s c q r None) as [s1 c1].
  rewrite Hf. unfold startRequest. cbn [fst snd orDefault]. rewrite Hp. reflexivity.
Qed.

(** The service once the request started by such a call has settled. *)
Lemma settle_started svc0 k u c q o T :
  let svc2 := settle (startRequest svc0 (mkFrame k u c q)).1 (performed svc0) o T in
  ongoingRequests svc2 !! k = None /\
  performed svc2 = S (performed svc0) /\
  cache svc2 =
    match o with
    | Fulfilled d =>
        if u then <[k := {| data := withFromCache false d; timestamp := T |}]> (cache svc0)
        else cache svc0
    | Rejected _ => cache svc0
    end.
Proof.
  unfold settle, startRequest. cbn [fst awaiting].
  rewrite lookup_insert_eq. cbn [frameKey frameUseCache].
  destruct o as [d | e]; [destruct u |]; cbn;
    (split; [apply lookup_delete_eq | split; reflexivity]).
Qed.

Lemma begin_frame enableCache s c q r cached :
  let s1 := (fetchNews_begin enableCache s c q r cached).1 in
  selectedCategory s1 = selectedCategory s /\
  debouncedSearchTerm s1 = debouncedSearchTerm s /\
  searchQuery s1 = searchQuery s.
Proof. unfold fetchNews_begin. destruct r, cached; cbn; auto. Qed.

Lemma settle_frame s c o :
  let s' := fetchNews_settle s c o in
  selectedCategory s' = selectedCategory s /\
  debouncedSearchTerm s' = debouncedSearchTerm s /\
  searchQuery s' = searchQuery s.
Proof.
  destruct o as [d | e]; cbn [fetchNews_settle];
    unfold fetchNews_resolve, fetchNews_reject, fetchNews_finally.
  - destruct (isLatestObject s c);
      match goal with |- context [matchesLatest ?x c] =>
        destruct (matchesLatest x c) end; cbn; auto.
  - destruct (matchesLatest s c); cbn zeta;
      [destruct (negb (isRetry c) || Nat.eqb (length (seenArticles c)) 0) |];
      match goal with |- context [matchesLatest ?x c] =>
        destruct (matchesLatest x c) end; cbn; auto.
Qed.

Lemma call_hit svc s c q tCheck tRead tCall e :
  cache svc !! (toLowerCase c +:+ "-" +:+ trim (toLowerCase q)) = Some e ->
  _isCacheValid (Some e) tCheck = true ->
  _isCacheValid (Some e) tRead = true ->
  _isCacheValid (Some e) tCall = true ->
  fetchNews_call true svc s c q false tCheck tRead tCall =
    (_cleanupCache svc tCall, FromCache (withFromCache true (data e)),
     (fetchNews_begin true s c q false (Some (withFromCache true (data e)))).1,
     (fetchNews_begin true s c q false (Some (withFromCache true (data e)))).2).
Proof.
  intros He Hc Hr Hv. unfold fetchNews_call.
  rewrite (peek_valid svc c q tCheck tRead e He Hc Hr).
  destruct (fetchNews_begin true s c q false (Some (withFromCache true (data e))))
    as [s1 c1].
  rewrite (fetchNews_hit svc c q tCall e He Hv). reflexivity.
Qed.

Lemma effectRuns_length s s' :
  length (articles s') <> length (articles s) -> effectRuns s s' = true.
Proof.
  intros Hl. unfold effectRuns, effectDeps. apply negb_true_iff.
  apply bool_decide_eq_false. intros Heq. injection Heq as _ _ Heq. auto.
Qed.

Lemma effectRuns_same s s' :
  selectedCategory s' = selectedCategory s ->
  debouncedSearchTerm s' = debouncedSearchTerm s ->
  articles s' = articles s ->
  effectRuns s s' = false.
Proof.
  intros Hc Hq Ha. unfold effectRuns, effectDeps. rewrite Hc, Hq, Ha.
  apply negb_false_iff. apply bool_decide_eq_true. reflexivity.
Qed.

(** X23. With the cache enabled, a load that changes the number of
    articles on the page is fetched twice: the response rebuilds
    [fetchNews], so the effect runs again and calls it with the same
    category and query. When every reading of the clock in that second
    call is within 15 minutes of the response, the call is answered
    from the cache, starts no request, never shows the loading state,
    and leaves the dependencies as they are, so the effect then rests. *)
Theorem first_load_runs_effect_again (svc : Service) (s : State) (k : string) (tCheck tRead tCall T uCheck uRead uCall : Z) (d : ResponseData) :
  debouncedSearchTerm s = searchQuery s ->
  fetchNews_cacheKey (JsStr (selectedCategory s)) (JsStr (debouncedSearchTerm s)) = Ok k ->
  ongoingRequests svc !! k = None ->
  cacheMiss svc k (true, tCheck) ->
  cacheMiss svc k (true, tCall) ->
  length (articlesOrEmpty (Some d)) <> length (articles s) ->
  (uCheck < T + cacheTimeout)%Z ->
  (uRead < T + cacheTimeout)%Z ->
  (uCall < T + cacheTimeout)%Z ->
  match fetchEffect true svc s tCheck tRead tCall with
  | None => False
  | Some (svc1, r1, s1, c1) =>
      let svc2 := settle svc1 (performed svc) (Fulfilled d) T in
      let s2 := fetchNews_resolve s1 c1 (Some d) in
      r1 = Started (performed svc) /\
      effectRuns s1 s2 = true /\
      match fetchEffect true svc2 s2 uCheck uRead uCall with
      | None => False
      | Some (svc3, r2, s3, c2) =>
          r2 = FromCache (withFromCache true d) /\
          performed svc3 = S (performed svc) /\
          loading s3 = false /\
          articles s3 = articlesOrEmpty (Some d) /\
          effectRuns s2 s3 = false /\
          effectRuns s3 (fetchNews_resolve s3 c2 (Some (withFromCache true d))) = false
      end
  end.
Proof.
  intros Hdeb Hkey Hfree Hmiss Hmiss' Hlen HuCheck HuRead HuCall.
  unfold fetchEffect at 1. rewrite Hdeb, String.eqb_refl. cbn [negb].
  rewrite <- Hdeb.
  destruct (call_miss true svc s _ _ false tCheck tRead tCall k Hkey Hfree Hmiss Hmiss')
    as (svc0 & Ho & Hp & Hc & ->).
  cbv beta iota zeta. rewrite <- Hp.
  destruct (settle_started svc0 k true (JsStr (selectedCategory s))
              (JsStr (debouncedSearchTerm s)) (Fulfilled d) T) as (Ho2 & Hp2 & Hc2).
  set (svc2 := settle _ (performed svc0) (Fulfilled d) T) in *.
  pose proof (begin_matchesLatest true s (selectedCategory s)
                (debouncedSearchTerm s) false None) as Hm.
  destruct (begin_frame true s (selectedCategory s) (debouncedSearchTerm s)
              false None) as (Hc1 & Hq1 & Hs1).
  assert (Ha1 : articles (fetchNews_begin true s (selectedCategory s)
                            (debouncedSearchTerm s) false None).1 = articles s)
    by reflexivity.
  destruct (fetchNews_begin true s (selectedCategory s) (debouncedSearchTerm s)
              false None) as [s1 c1].
  cbn [fst snd] in *. destruct Hm as [_ Hi].
  destruct (resolve_latest s1 c1 (Some d) Hi) as (Ha2 & _).
  destruct (settle_frame s1 c1 (Resolved (Some d))) as (Hc2' & Hq2 & Hs2).
  cbn [fetchNews_settle] in Hc2', Hq2, Hs2.
  set (s2 := fetchNews_resolve s1 c1 (Some d)) in *.
  split; [reflexivity |].
  split; [apply effectRuns_length; rewrite Ha2, Ha1; exact Hlen |].
  unfold fetchEffect.
  replace (debouncedSearchTerm s2) with (searchQuery s2) by congruence.
  rewrite String.eqb_refl. cbn [negb].
  replace (searchQuery s2) with (debouncedSearchTerm s) by congruence.
  rewrite Hc2', Hc1.
  rewrite key_of_strings in Hkey. injection Hkey as <-.
  assert (He : cache svc2 !! (toLowerCase (selectedCategory s) +:+ "-" +:+
                              trim (toLowerCase (debouncedSearchTerm s))) =
               Some {| data := withFromCache false d; timestamp := T |}).
  { rewrite Hc2. apply lookup_insert_eq. }
  assert (Hv : forall u, (u < T + cacheTimeout)%Z ->
            _isCacheValid
              (Some {| data := withFromCache false d; timestamp := T |}) u = true).
  { intros u Hu. cbn. apply Z.ltb_lt. lia. }
  rewrite (call_hit svc2 s2 _ _ uCheck uRead uCall _ He
             (Hv _ HuCheck) (Hv _ HuRead) (Hv _ HuCall)).
  cbn [data]. change (withFromCache true (withFromCache false d))
    with (withFromCache true d).
  pose proof (begin_matchesLatest true s2 (selectedCategory s)
                (debouncedSearchTerm s) false (Some (withFromCache true d))) as Hm3.
  destruct (begin_frame true s2 (selectedCategory s) (debouncedSearchTerm s)
              false (Some (withFromCache true d))) as (Hc3 & Hq3 & _).
  assert (Hb3 : loading (fetchNews_begin true s2 (selectedCategory s)
                           (debouncedSearchTerm s) false
                           (Some (withFromCache true d))).1 = false /\
                articles (fetchNews_begin true s2 (selectedCategory s)
                            (debouncedSearchTerm s) false
                            (Some (withFromCache true d))).1 =
                  articlesOrEmpty (Some d))
    by (split; reflexivity).
  destruct (fetchNews_begin true s2 (selectedCategory s) (debouncedSearchTerm s)
              false (Some (withFromCache true d))) as [s3 c3].
  cbn [fst snd] in *. destruct Hm3 as [_ Hi3]. destruct Hb3 as [Hl3 Ha3].
  destruct (resolve_latest s3 c3 (Some (withFromCache true d)) Hi3) as (Ha4 & _).
  destruct (settle_frame s3 c3 (Resolved (Some (withFromCache true d))))
    as (Hc4 & Hq4 & _).
  cbn [fetchNews_settle] in Hc4, Hq4.
  split; [reflexivity |]. split; [exact Hp2 |]. split; [exact Hl3 |].
  split; [exact Ha3 |]. split.
  - apply effectRuns_same; congruence.
  - apply effectRuns_same; [exact Hc4 | exact Hq4 |]. rewrite Ha4, Ha3. reflexivity.
Qed.

Lemma first_load_runs_effect_again_witness :
  match fetchEffect true initial (mounted "All" "") 0 0 1 with
  | None => False
  | Some (svc1, r1, s1, c1) =>
      let svc2 := settle svc1 (performed initial) (Fulfilled samplePayload) 1000 in
      let s2 := fetchNews_resolve s1 c1 (Some samplePayload) in
      r1 = Started (performed initial) /\
      effectRuns s1 s2 = true /\
      match fetchEffect true svc2 s2 1010 1011 1012 with
      | None => False
      | Some (svc3, r2, s3, c2) =>
          r2 = FromCache (withFromCache true samplePayload) /\
          performed svc3 = S (performed initial) /\
          loading s3 = false /\
          articles s3 = articlesOrEmpty (Some samplePayload) /\
          effectRuns s2 s3 = false /\
          effectRuns s3
            (fetchNews_resolve s3 c2 (Some (withFromCache true samplePayload))) = false
      end
  end.
Proof.
  apply (first_load_runs_effect_again initial (mounted "All" "") "all-" 0 0 1 1000
           1010 1011 1012 samplePayload);
    [reflexivity | reflexivity | apply lookup_empty
    | right; cbn; rewrite lookup_empty; reflexivity
    | right; cbn; rewrite lookup_empty; reflexivity
    | cbn; lia | reflexivity | reflexivity | reflexivity].
Defined.

(** X24. With the cache disabled, a load that changes the number of
    articles on the page costs two network requests: the response
    rebuilds [fetchNews], the effect runs again, and its call starts a
    second request and puts the page back into the loading state with
    the articles kept. The effect runs a third time exactly when the
    second response brings a different number of articles. *)
Theorem disabled_cache_loads_twice (svc : Service) (s : State) (k : string) (tCheck tRead tCall T uCheck uRead uCall : Z) (d : ResponseData) :
  debouncedSearchTerm s = searchQuery s ->
  fetchNews_cacheKey (JsStr (selectedCategory s)) (JsStr (debouncedSearchTerm s)) = Ok k ->
  ongoingRequests svc !! k = None ->
  length (articlesOrEmpty (Some d)) <> length (articles s) ->
  match fetchEffect false svc s tCheck tRead tCall with
  | None => False
  | Some (svc1, r1, s1, c1) =>
      let svc2 := settle svc1 (performed svc) (Fulfilled d) T in
      let s2 := fetchNews_resolve s1 c1 (Some d) in
      r1 = Started (performed svc) /\
      effectRuns s1 s2 = true /\
      match fetchEffect false svc2 s2 uCheck uRead uCall with
      | None => False
      | Some (svc3, r2, s3, c2) =>
          r2 = Started (S (performed svc)) /\
          performed svc3 = S (S (performed svc)) /\
          loading s3 = true /\
          articles s3 = articlesOrEmpty (Some d) /\
          forall d',
            effectRuns s3 (fetchNews_resolve s3 c2 d') =
              negb (Nat.eqb (length (articlesOrEmpty d'))
                      (length (articlesOrEmpty (Some d))))
      end
  end.
Proof.
  intros Hdeb Hkey Hfree Hlen.
  unfold fetchEffect at 1. rewrite Hdeb, String.eqb_refl. cbn [negb].
  rewrite <- Hdeb.
  destruct (call_miss false svc s _ _ false tCheck tRead tCall k Hkey Hfree
              (or_introl eq_refl) (or_introl eq_refl))
    as (svc0 & Ho & Hp & _ & ->).
  cbv beta iota zeta. rewrite <- Hp.
  destruct (settle_started svc0 k false (JsStr (selectedCategory s))
              (JsStr (debouncedSearchTerm s)) (Fulfilled d) T) as (Ho2 & Hp2 & _).
  set (svc2 := settle _ (performed svc0) (Fulfilled d) T) in *.
  pose proof (begin_matchesLatest false s (selectedCategory s)
                (debouncedSearchTerm s) false None) as Hm.
  destruct (begin_frame false s (selectedCategory s) (debouncedSearchTerm s)
              false None) as (Hc1 & Hq1 & Hs1).
  assert (Ha1 : articles (fetchNews_begin false s (selectedCategory s)
                            (debouncedSearchTerm s) false None).1 = articles s)
    by reflexivity.
  destruct (fetchNews_begin false s (selectedCategory s) (debouncedSearchTerm s)
              false None) as [s1 c1].
  cbn [fst snd] in *. destruct Hm as [_ Hi].
  destruct (resolve_latest s1 c1 (Some d) Hi) as (Ha2 & _).
  destruct (settle_frame s1 c1 (Resolved (Some d))) as (Hc2' & Hq2 & Hs2).
  cbn [fetchNews_settle] in Hc2', Hq2, Hs2.
  set (s2 := fetchNews_resolve s1 c1 (Some d)) in *.
  split; [reflexivity |].
  split; [apply effectRuns_length; rewrite Ha2, Ha1; exact Hlen |].
  unfold fetchEffect.
  replace (debouncedSearchTerm s2) with (searchQuery s2) by congruence.
  rewrite String.eqb_refl. cbn [negb].
  replace (searchQuery s2) with (debouncedSearchTerm s) by congruence.
  rewrite Hc2', Hc1.
  destruct (call_miss false svc2 s2 (selectedCategory s) (debouncedSearchTerm s)
              false uCheck uRead uCall k Hkey Ho2
              (or_introl eq_refl) (or_introl eq_refl))
    as (svc3 & _ & Hp3 & _ & ->).
  cbv beta iota. cbn [startRequest fst performed]. rewrite Hp3, Hp2.
  pose proof (begin_matchesLatest false s2 (selectedCategory s)
                (debouncedSearchTerm s) false None) as Hm3.
  destruct (begin_frame false s2 (selectedCategory s) (debouncedSearchTerm s)
              false None) as (Hc3 & Hq3 & _).
  assert (Hb3 : loading (fetchNews_begin false s2 (selectedCategory s)
                           (debouncedSearchTerm s) false None).1 = true /\
                articles (fetchNews_begin false s2 (selectedCategory s)
                            (debouncedSearchTerm s) false None).1 = articles s2)
    by (split; reflexivity).
  destruct (fetchNews_begin false s2 (selectedCategory s) (debouncedSearchTerm s)
              false None) as [s3 c3].
  cbn [fst snd] in *. destruct Hm3 as [_ Hi3]. destruct Hb3 as [Hl3 Ha3].
  split; [reflexivity |]. split; [reflexivity |]. split; [exact Hl3 |].
  split; [congruence |].
  intros d'.
  destruct (resolve_latest s3 c3 d' Hi3) as (Ha4 & _).
  destruct (settle_frame s3 c3 (Resolved d')) as (Hc4 & Hq4 & _).
  cbn [fetchNews_settle] in Hc4, Hq4.
  unfold effectRuns, effectDeps. rewrite Hc4, Hq4, Ha4, Ha3, Ha2. f_equal.
  destruct (Nat.eqb_spec (length (articlesOrEmpty d'))
              (length (articlesOrEmpty (Some d)))) as [E | E].
  - apply bool_decide_eq_true. rewrite E. reflexivity.
  - apply bool_decide_eq_false. intros Heq. injection Heq as Heq. auto.
Qed.

Lemma disabled_cache_loads_twice_witness :
  match fetchEffect false initial (mounted "All" "") 0 0 1 with
  | None => False
  | Some (svc1, r1, s1, c1) =>
      let svc2 := settle svc1 (performed initial) (Fulfilled samplePayload) 1000 in
      let s2 := fetchNews_resolve s1 c1 (Some samplePayload) in
      r1 = Started (performed initial) /\
      effectRuns s1 s2 = true /\
      match fetchEffect false svc2 s2 1010 1011 1012 with
      | None => False
      | Some (svc3, r2, s3, c2) =>
          r2 = Started (S (performed initial)) /\
          performed svc3 = S (S (performed initial)) /\
          loading s3 = true /\
          articles s3 = articlesOrEmpty (Some samplePayload) /\
          forall d',
            effectRuns s3 (fetchNews_resolve s3 c2 d') =
              negb (Nat.eqb (length (articlesOrEmpty d'))
                      (length (articlesOrEmpty (Some samplePayload))))
      end
  end.
Proof.
  apply (disabled_cache_loads_twice initial (mounted "All" "") "all-" 0 0 1 1000
           1010 1011 1012 samplePayload);
    [reflexivity | reflexivity | apply lookup_empty | cbn; lia].
Defined.

(** X25. A failed load that is not a retry clears the articles on the
    page; when there were any, this rebuilds [fetchNews], the effect
    runs again and, nothing having been cached, starts a second request
    by itself, which clears the error just recorded and shows the
    loading state. If that request fails too the effect rests, with the
    error on the page. *)
Theorem failure_with_articles_refetches (enableCache : bool) (svc : Service) (s : State) (k : string) (tCheck tRead tCall T uCheck uRead uCall : Z) (e e' : JsError) :
  debouncedSearchTerm s = searchQuery s ->
  fetchNews_cacheKey (JsStr (selectedCategory s)) (JsStr (debouncedSearchTerm s)) = Ok k ->
  ongoingRequests svc !! k = None ->
  cacheMiss svc k (enableCache, tCheck) ->
  cacheMiss svc k (enableCache, tCall) ->
  articles s <> [] ->
  match fetchEffect enableCache svc s tCheck tRead tCall with
  | None => False
  | Some (svc1, r1, s1, c1) =>
      let svc2 := settle svc1 (performed svc) (Rejected e) T in
      let s2 := fetchNews_reject s1 c1 e in
      r1 = Started (performed svc) /\
      articles s2 = [] /\ error s2 = Some (message e) /\
      effectRuns s1 s2 = true /\
      match fetchEffect enableCache svc2 s2 uCheck uRead uCall with
      | None => False
      | Some (svc3, r2, s3, c2) =>
          r2 = Started (S (performed svc)) /\
          error s3 = None /\ loading s3 = true /\
          error (fetchNews_reject s3 c2 e') = Some (message e') /\
          effectRuns s3 (fetchNews_reject s3 c2 e') = false
      end
  end.
Proof.
  intros Hdeb Hkey Hfree Hmiss Hmiss' Hne.
  unfold fetchEffect at 1. rewrite Hdeb, String.eqb_refl. cbn [negb].
  rewrite <- Hdeb.
  destruct (call_miss enableCache svc s _ _ false tCheck tRead tCall k Hkey Hfree
              Hmiss Hmiss')
    as (svc0 & Ho & Hp & Hc & ->).
  cbv beta iota zeta. rewrite <- Hp.
  destruct (settle_started svc0 k enableCache (JsStr (selectedCategory s))
              (JsStr (debouncedSearchTerm s)) (Rejected e) T) as (Ho2 & Hp2 & Hc2).
  set (svc2 := settle _ (performed svc0) (Rejected e) T) in *.
  assert (Hmiss2 : forall u, cacheMiss svc2 k (enableCache, u)).
  { intros u. destruct enableCache; [right | left; reflexivity].
    cbn [fst snd]. rewrite Hc2, (Hc eq_refl). reflexivity. }
  pose proof (begin_matchesLatest enableCache s (selectedCategory s)
                (debouncedSearchTerm s) false None) as Hm.
  destruct (begin_frame enableCache s (selectedCategory s) (debouncedSearchTerm s)
              false None) as (Hc1 & Hq1 & Hs1).
  destruct (begin_spec enableCache s (selectedCategory s) (debouncedSearchTerm s)
              false None) as (_ & _ & _ & Hr1 & _).
  assert (Ha1 : articles (fetchNews_begin enableCache s (selectedCategory s)
                            (debouncedSearchTerm s) false None).1 = articles s)
    by reflexivity.
  destruct (fetchNews_begin enableCache s (selectedCategory s)
              (debouncedSearchTerm s) false None) as [s1 c1].
  cbn [fst snd] in *. destruct Hm as [Hm _].
  destruct (reject_latest s1 c1 e Hm) as (He2 & _ & _ & Ha2).
  rewrite Hr1 in Ha2. cbn [negb orb] in Ha2.
  destruct (settle_frame s1 c1 (OptimizedNews.Failed e)) as (Hc2' & Hq2 & Hs2).
  cbn [fetchNews_settle] in Hc2', Hq2, Hs2.
  set (s2 := fetchNews_reject s1 c1 e) in *.
  split; [reflexivity |]. split; [exact Ha2 |]. split; [exact He2 |].
  split.
  { apply effectRuns_length. rewrite Ha2, Ha1. destruct (articles s);
      [contradiction | discriminate]. }
  unfold fetchEffect.
  replace (debouncedSearchTerm s2) with (searchQuery s2) by congruence.
  rewrite String.eqb_refl. cbn [negb].
  replace (searchQuery s2) with (debouncedSearchTerm s) by congruence.
  rewrite Hc2', Hc1.
  destruct (call_miss enableCache svc2 s2 (selectedCategory s)
              (debouncedSearchTerm s) false uCheck uRead uCall k Hkey Ho2
              (Hmiss2 uCheck) (Hmiss2 uCall))
    as (svc3 & _ & _ & _ & ->).
  cbv beta iota. rewrite Hp2.
  pose proof (begin_matchesLatest enableCache s2 (selectedCategory s)
                (debouncedSearchTerm s) false None) as Hm3.
  destruct (begin_frame enableCache s2 (selectedCategory s) (debouncedSearchTerm s)
              false None) as (Hc3 & Hq3 & _).
  destruct (begin_spec enableCache s2 (selectedCategory s) (debouncedSearchTerm s)
              false None) as (_ & _ & _ & _ & _ & Her3 & _).
  assert (Hb3 : loading (fetchNews_begin enableCache s2 (selectedCategory s)
                           (debouncedSearchTerm s) false None).1 = true /\
                articles (fetchNews_begin enableCache s2 (selectedCategory s)
                            (debouncedSearchTerm s) false None).1 = articles s2)
    by (split; reflexivity).
  destruct (fetchNews_begin enableCache s2 (selectedCategory s)
              (debouncedSearchTerm s) false None) as [s3 c3].
  cbn [fst snd] in *. destruct Hm3 as [Hm3 _]. destruct Hb3 as [Hl3 Ha3].
  destruct (reject_latest s3 c3 e' Hm3) as (He4 & _ & _ & Ha4).
  destruct (settle_frame s3 c3 (OptimizedNews.Failed e')) as (Hc4 & Hq4 & _).
  cbn [fetchNews_settle] in Hc4, Hq4.
  split; [reflexivity |]. split; [exact Her3 |]. split; [exact Hl3 |].
  split; [exact He4 |].
  apply effectRuns_same; [exact Hc4 | exact Hq4 |].
  rewrite Ha4, Ha3, Ha2.
  destruct (negb (isRetry c3) || Nat.eqb (length (seenArticles c3)) 0); reflexivity.
Qed.

Lemma failure_with_articles_refetches_witness :
  match fetchEffect true (clearCache initial) showingTwo 0 0 1 with
  | None => False
  | Some (svc1, r1, s1, c1) =>
      let svc2 := settle svc1 (performed (clearCache initial)) (Rejected rateLimitError) 50 in
      let s2 := fetchNews_reject s1 c1 rateLimitError in
      r1 = Started (performed (clearCache initial)) /\
      articles s2 = [] /\ error s2 = Some (message rateLimitError) /\
      effectRuns s1 s2 = true /\
      match fetchEffect true svc2 s2 60 61 62 with
      | None => False
      | Some (svc3, r2, s3, c2) =>
          r2 = Started (S (performed (clearCache initial))) /\
          error s3 = None /\ loading s3 = true /\
          error (fetchNews_reject s3 c2 rateLimitError) =
            Some (message rateLimitError) /\
          effectRuns s3 (fetchNews_reject s3 c2 rateLimitError) = false
      end
  end.
Proof.
  apply (failure_with_articles_refetches true (clearCache initial) showingTwo
           "technology-" 0 0 1 50 60 61 62 rateLimitError rateLimitError);
    [reflexivity | reflexivity | apply lookup_empty
    | right; cbn; rewrite lookup_empty; reflexivity
    | right; cbn; rewrite lookup_empty; reflexivity | discriminate].
Defined.

(** X26. Switching to a category whose data is cached: when its look
    into the cache finds data, the handler shows the cached articles and
    clears the error, and the service is as before; the changed category
    makes the effect run, and when the entry is valid at each reading of
    the clock in that run its fetch is answered from the cache with the
    same data, starts no request, shows no loading state and leaves the
    articles as the handler has put them. *)
Theorem category_change_served_from_cache (enableCache : bool) (svc : Service) (s : State) (newCategory : string) (tCheck tRead uCheck uRead uCall : Z) (d : ResponseData) :
  newCategory <> selectedCategory s ->
  debouncedSearchTerm s = searchQuery s ->
  (peek enableCache svc newCategory (debouncedSearchTerm s) tCheck tRead).2 = Some d ->
  isCached svc (JsStr newCategory) (JsStr (debouncedSearchTerm s)) uCheck = Ok true ->
  isCached svc (JsStr newCategory) (JsStr (debouncedSearchTerm s)) uRead = Ok true ->
  isCached svc (JsStr newCategory) (JsStr (debouncedSearchTerm s)) uCall = Ok true ->
  let '(svc1, s1) := handleCategoryChange enableCache svc s newCategory tCheck tRead in
  svc1 = svc /\
  articles s1 = articlesOrEmpty (Some d) /\ error s1 = None /\
  effectRuns s s1 = true /\
  match fetchEffect enableCache svc1 s1 uCheck uRead uCall with
  | None => False
  | Some (svc2, r, s2, c) =>
      r = FromCache d /\ performed svc2 = performed svc /\
      loading s2 = false /\ articles s2 = articles s1 /\
      articles (fetchNews_resolve s2 c (Some d)) = articles s1
  end.
Proof.
  intros Hnew Hdeb Hd HuCheck HuRead HuCall.
  destruct (peek_hit _ _ _ _ _ _ _ Hd) as (-> & e & He & Hv & Hv' & -> & _).
  rewrite isCached_strings, He in HuCheck, HuRead, HuCall.
  injection HuCheck as HuCheck. injection HuRead as HuRead.
  injection HuCall as HuCall.
  unfold handleCategoryChange.
  rewrite (peek_valid svc newCategory (debouncedSearchTerm s) tCheck tRead e He Hv Hv').
  split; [reflexivity |]. split; [reflexivity |]. split; [reflexivity |].
  split.
  { unfold effectRuns, effectDeps. cbn. apply negb_true_iff.
    apply bool_decide_eq_false. intros Heq. injection Heq as Heq _. auto. }
  unfold fetchEffect. cbn [debouncedSearchTerm searchQuery selectedCategory
    setErrorType setError setArticles setSelectedCategory].
  rewrite Hdeb, String.eqb_refl. cbn [negb]. rewrite <- Hdeb.
  set (s1 := setErrorType None _).
  rewrite (call_hit svc s1 newCategory (debouncedSearchTerm s) uCheck uRead uCall e
             He HuCheck HuRead HuCall).
  pose proof (begin_matchesLatest true s1 newCategory (debouncedSearchTerm s) false
                (Some (withFromCache true (data e)))) as Hm.
  assert (Hb : loading (fetchNews_begin true s1 newCategory (debouncedSearchTerm s)
                          false (Some (withFromCache true (data e)))).1 = false /\
               articles (fetchNews_begin true s1 newCategory (debouncedSearchTerm s)
                           false (Some (withFromCache true (data e)))).1 =
                 articlesOrEmpty (Some (withFromCache true (data e))))
    by (split; reflexivity).
  destruct (fetchNews_begin true s1 newCategory (debouncedSearchTerm s) false
              (Some (withFromCache true (data e)))) as [s2 c].
  cbn [fst snd] in *. destruct Hm as [_ Hi]. destruct Hb as [Hl Ha].
  destruct (resolve_latest s2 c (Some (withFromCache true (data e))) Hi) as (Ha3 & _).
  split; [reflexivity |]. split; [reflexivity |]. split; [exact Hl |].
  split; [exact Ha | exact Ha3].
Qed.

Lemma category_change_served_from_cache_witness :
  let '(svc1, s1) :=
    handleCategoryChange true (_setCache initial "sports-" samplePayload 0)
      rateLimited "Sports" 1000 1001 in
  svc1 = _setCache initial "sports-" samplePayload 0 /\
  articles s1 = articlesOrEmpty (Some (withFromCache true samplePayload)) /\
  error s1 = None /\
  effectRuns rateLimited s1 = true /\
  match fetchEffect true svc1 s1 2000 2001 2002 with
  | None => False
  | Some (svc2, r, s2, c) =>
      r = FromCache (withFromCache true samplePayload) /\
      performed svc2 = performed (_setCache initial "sports-" samplePayload 0) /\
      loading s2 = false /\ articles s2 = articles s1 /\
      articles (fetchNews_resolve s2 c (Some (withFromCache true samplePayload))) =
        articles s1
  end.
Proof.
  apply (category_change_served_from_cache true
           (_setCache initial "sports-" samplePayload 0) rateLimited "Sports"
           1000 1001 2000 2001 2002 (withFromCache true samplePayload));
    [discriminate | reflexivity | vm_compute; reflexivity | vm_compute; reflexivity
    | vm_compute; reflexivity | vm_compute; reflexivity].
Defined.

End EffectFacts.

(** ** The shorthand methods of the service *)

Module ShorthandFacts.
Import JsString NewsService DedupFacts CacheFacts Shorthands.

Lemma fetchNews_throws s c q u now e :
  fetchNews_cacheKey c q = Throw e ->
  fetchNews s c q u now = (_cleanupCache s now, Failed e).
Proof.
  unfold fetchNews_cacheKey, fetchNews. intros He. cbv zeta. rewrite He.
  reflexivity.
Qed.

(** X27. The three shorthand methods never reach the network: whatever
    their argument and whatever the state of the service, the call is
    rejected with the TypeError of the key derivation, no request is
    started or joined, and the service is left as the sweep of expired
    entries leaves it. A call that gives both a category and a query as
    strings, as the hook does, is never rejected before its request. *)
Theorem shorthands_never_reach_network (s : Service) (now : Z) :
  fetchTopHeadlines s now =
    (_cleanupCache s now, Failed (noProperty "null" "toLowerCase")) /\
  (forall query, searchNews s query now =
     (_cleanupCache s now, Failed (noProperty "null" "toLowerCase"))) /\
  (forall category, fetchNewsByCategory s category now =
     (_cleanupCache s now, Failed (noProperty "null" "toLowerCase"))) /\
  performed (_cleanupCache s now) = performed s /\
  ongoingRequests (_cleanupCache s now) = ongoingRequests s /\
  (forall c q u e, (fetchNews s (JsStr c) (JsStr q) u now).2 <> Failed e).
Proof.
  split; [| split; [| split; [| split; [| split]]]].
  - apply fetchNews_throws. reflexivity.
  - intros query. apply fetchNews_throws. destruct query; reflexivity.
  - intros category. apply fetchNews_throws. destruct category; reflexivity.
  - reflexivity.
  - reflexivity.
  - intros c q u e.
    rewrite (fetchNews_unfold _ _ _ _ _ _ (key_of_strings c q)).
    destruct (beforeLookup s _ u now) as [s1 [d |]]; [discriminate |].
    destruct (ongoingRequests s1 !! _); discriminate.
Qed.

End ShorthandFacts.

(** ** Patterns: the matcher decides the language *)

Module RegexFacts.
Import JsStringLaws Regex.

Lemma append_nil_r s : s +:+ "" = s.
Proof. induction s as [| c s IH]; [reflexivity |]. rewrite append_cons, IH. reflexivity. Qed.

Lemma append_eq_nil s1 s2 : s1 +:+ s2 = "" -> s1 = "" /\ s2 = "".
Proof.
  destruct s1; [rewrite append_nil; auto | rewrite append_cons; discriminate].
Qed.

Lemma append_eq_cons s1 s2 c s :
  s1 +:+ s2 = String c s ->
  (s1 = "" /\ s2 = String c s) \/ (exists s1', s1 = String c s1' /\ s = s1' +:+ s2).
Proof.
  destruct s1 as [| c1 s1]; [rewrite append_nil; auto |].
  rewrite append_cons. intros H. injection H as -> <-. right. eauto.
Qed.

Lemma void_inv s : Lang Void s -> False.
Proof. intros H. inversion H. Qed.

Lemma eps_inv s : Lang Eps s -> s = "".
Proof. intros H. inversion H. reflexivity. Qed.

Lemma class_inv p s : Lang (Class p) s -> exists c, s = String c "" /\ p c = true.
Proof. intros H. inversion H; subst. eauto. Qed.

Lemma cat_inv r1 r2 s :
  Lang (Cat r1 r2) s -> exists s1 s2, s = s1 +:+ s2 /\ Lang r1 s1 /\ Lang r2 s2.
Proof. intros H. inversion H; subst. eauto. Qed.

Lemma alt_inv r1 r2 s : Lang (Alt r1 r2) s -> Lang r1 s \/ Lang r2 s.
Proof. intros H. inversion H; subst; auto. Qed.

Lemma nullable_spec r : nullable r = true <-> Lang r "".
Proof.
  induction r as [| | p | r1 IH1 r2 IH2 | r1 IH1 r2 IH2 | r1 IH1]; cbn [nullable].
  - split; [discriminate | intros H; destruct (void_inv _ H)].
  - split; [constructor | reflexivity].
  - split; [discriminate |].
    intros H. apply class_inv in H as (c & Hc & _). discriminate.
  - rewrite andb_true_iff, IH1, IH2. split.
    + intros [H1 H2]. exact (LCat _ _ "" "" H1 H2).
    + intros H. apply cat_inv in H as (s1 & s2 & Hs & H1 & H2).
      symmetry in Hs. apply append_eq_nil in Hs as [-> ->]. auto.
  - rewrite orb_true_iff, IH1, IH2. split.
    + intros [H | H]; [apply LAltL | apply LAltR]; exact H.
    + apply alt_inv.
  - split; [constructor | reflexivity].
Qed.

Lemma star_cons r c s :
  Lang (Star r) (String c s) ->
  exists s1 s2, s = s1 +:+ s2 /\ Lang r (String c s1) /\ Lang (Star r) s2.
Proof.
  intros H. remember (Star r) as r0 eqn:Hr. remember (String c s) as s0 eqn:Hs.
  revert Hr Hs.
  induction H as [| | | | | | r' s1 s2 H1 _ H2 IH2]; intros Hr Hs; try discriminate.
  injection Hr as ->.
  apply append_eq_cons in Hs as [[-> ->] | (s1' & -> & ->)].
  - apply IH2; reflexivity.
  - exists s1', s2. auto.
Qed.

Lemma deriv_spec r : forall c s, Lang (deriv c r) s <-> Lang r (String c s).
Proof.
  induction r as [| | p | r1 IH1 r2 IH2 | r1 IH1 r2 IH2 | r1 IH1]; intros c s;
    cbn [deriv].
  - split; intros H; destruct (void_inv _ H).
  - split; intros H; [destruct (void_inv _ H) | apply eps_inv in H; discriminate].
  - split.
    + destruct (p c) eqn:Hp; intros H; [| destruct (void_inv _ H)].
      apply eps_inv in H as ->. constructor. exact Hp.
    + intros H. apply class_inv in H as (c' & Hc & Hp). injection Hc as <- ->.
      rewrite Hp. constructor.
  - assert (Hl : forall t, Lang (Cat (deriv c r1) r2) t -> Lang (Cat r1 r2) (String c t)).
    { intros t Ht. apply cat_inv in Ht as (s1 & s2 & -> & H1 & H2).
      rewrite <- append_cons. constructor; [apply IH1, H1 | exact H2]. }
    split.
    + intros H. destruct (nullable r1) eqn:Hn; [| auto].
      apply alt_inv in H as [H | H]; [auto |].
      rewrite <- (append_nil (String c s)). constructor.
      * apply nullable_spec, Hn.
      * apply IH2, H.
    + intros H. apply cat_inv in H as (s1 & s2 & Hs & H1 & H2).
      symmetry in Hs. apply append_eq_cons in Hs as [[-> ->] | (s1' & -> & ->)].
      * apply nullable_spec in H1. rewrite H1. apply LAltR, IH2, H2.
      * assert (Hc : Lang (Cat (deriv c r1) r2) (s1' +:+ s2))
          by (constructor; [apply IH1, H1 | exact H2]).
        destruct (nullable r1); [apply LAltL |]; exact Hc.
  - split; intros H; apply alt_inv in H as [H | H];
      solve [apply LAltL, IH1; assumption | apply LAltR, IH2; assumption].
  - split.
    + intros H. apply cat_inv in H as (s1 & s2 & -> & H1 & H2).
      rewrite <- append_cons. constructor; [apply IH1, H1 | exact H2].
    + intros H. apply star_cons in H as (s1 & s2 & -> & H1 & H2).
      constructor; [apply IH1, H1 | exact H2].
Qed.

Lemma test_spec s : forall r, test r s = true <-> Lang r s.
Proof.
  induction s as [| c s IH]; intros r; cbn [test].
  - apply nullable_spec.
  - rewrite IH. apply deriv_spec.
Qed.

Lemma star_class p s : Lang (Star (Class p)) s <-> all p s = true.
Proof.
  split.
  - intros H. remember (Star (Class p)) as r0 eqn:Hr. revert Hr.
    induction H as [| | | | | | r' s1 s2 H1 _ H2 IH2]; intros Hr; try discriminate.
    + reflexivity.
    + injection Hr as ->. apply class_inv in H1 as (c & -> & Hp).
      rewrite append_cons, append_nil. cbn [all]. rewrite Hp. apply IH2. reflexivity.
  - revert s. induction s as [| c s IH]; cbn [all]; [constructor |].
    intros H. apply andb_true_iff in H as [Hp Hs].
    change (String c s) with (String c "" +:+ s).
    constructor; [constructor; exact Hp | apply IH, Hs].
Qed.

Lemma plus_class p s :
  Lang (Plus (Class p)) s <-> s <> "" /\ all p s = true.
Proof.
  unfold Plus. split.
  - intros H. apply cat_inv in H as (s1 & s2 & -> & H1 & H2).
    apply class_inv in H1 as (c & -> & Hp).
    rewrite append_cons, append_nil. split; [discriminate |].
    cbn [all]. rewrite Hp. apply star_class, H2.
  - intros [Hne Ha]. destruct s as [| c s]; [contradiction |].
    cbn [all] in Ha. apply andb_true_iff in Ha as [Hp Hs].
    change (String c s) with (String c "" +:+ s).
    constructor; [constructor; exact Hp | apply star_class, Hs].
Qed.

End RegexFacts.

(** ** Form validation *)

Module ValidationFacts.
Import JsString JsStringFacts Regex RegexFacts Validation.

Lemma test_false r s : test r s = false <-> ~ Lang r s.
Proof.
  rewrite <- test_spec. destruct (test r s); split; congruence.
Qed.

Lemma lit_inv ch s : Lang (Class (Ascii.eqb ch)) s -> s = String ch "".
Proof.
  intros H. apply class_inv in H as (c & -> & Hc).
  apply Ascii.eqb_eq in Hc. subst. reflexivity.
Qed.

Lemma emailRegex_spec s :
  Lang emailRegex s <->
  exists a b c, s = a +:+ "@" +:+ b +:+ "." +:+ c /\ word a /\ word b /\ word c.
Proof.
  unfold emailRegex, word. split.
  - intros H.
    apply cat_inv in H as (a & s1 & -> & Ha & H).
    apply cat_inv in H as (at_ & s2 & -> & Hat & H).
    apply cat_inv in H as (b & s3 & -> & Hb & H).
    apply cat_inv in H as (dot & c & -> & Hdot & Hc).
    apply lit_inv in Hat as ->. apply lit_inv in Hdot as ->.
    apply plus_class in Ha, Hb, Hc. exists a, b, c. auto.
  - intros (a & b & c & -> & Ha & Hb & Hc).
    apply plus_class in Ha, Hb, Hc.
    constructor; [exact Ha |].
    change ("@" +:+ b +:+ "." +:+ c) with ("@" +:+ (b +:+ "." +:+ c)).
    constructor; [constructor; reflexivity |].
    constructor; [exact Hb |].
    change ("." +:+ c) with ("." +:+ c).
    constructor; [constructor; reflexivity | exact Hc].
Qed.

Lemma falsy_spec value : falsy value = false <-> exists s, value = JsStr s /\ s <> "".
Proof.
  destruct value as [| | s]; cbn.
  - split; [discriminate | intros (s & H & _); discriminate].
  - split; [discriminate | intros (s & H & _); discriminate].
  - rewrite negb_false_iff, truthy_nonempty. split.
    + intros H. exists s. auto.
    + intros (s' & H & Hne). injection H as ->. exact Hne.
Qed.


Lemma whenPresent_str s check : s <> "" -> whenPresent (JsStr s) check = check s.
Proof. intros H. cbn. apply truthy_nonempty in H. rewrite H. reflexivity. Qed.

Lemma firstError_truthy rules value ad e :
  firstError rules value ad = Some e -> truthy e = true.
Proof.
  induction rules as [| [n f] rules IH]; cbn [firstError]; [discriminate |].
  destruct (callRule n f value ad) as [e' |]; [| exact IH].
  destruct (truthy e') eqn:Ht; [| exact IH].
  intros H. injection H as <-. exact Ht.
Qed.

Lemma validateField_truthy f value ad e :
  validateField f value ad = Some e -> truthy e = true.
Proof.
  unfold validateField. destruct (lookupRules f validationRules); [| discriminate].
  apply firstError_truthy.
Qed.

(** X28. A password passes [validateField] exactly when it is a string
    of at least 8 characters that also reaches the [minLength] passed
    in: the rule [strength] rejects what [minLength] lets through. With
    the [minLength] of 6 that the form passes, passwords of 6 or 7
    characters are rejected with the message of [strength]. *)
Theorem password_needs_eight (value : JsVal) (ad : AdditionalData) :
  (validateField "password" value ad = None <->
   exists s, value = JsStr s /\ 8 <= String.length s /\
             default 6 (minLength ad) <= String.length s) /\
  (forall s pw, 6 <= String.length s < 8 ->
     validateField "password" (JsStr s) (mkAdditional pw (Some 6)) =
       Some "Password should be at least 8 characters for better security").
Proof.
  split.
  - unfold validateField. cbn [lookupRules validationRules String.eqb Ascii.eqb Bool.eqb].
    cbn [firstError callRule required minLengthRule String.eqb Ascii.eqb Bool.eqb].
    destruct (falsy value) eqn:Hf.
    + cbn. split; [discriminate |].
      intros (s & -> & H8 & _). cbn in Hf. destruct s; [cbn in H8; lia | discriminate].
    + apply falsy_spec in Hf as (s & -> & Hne).
      rewrite !(whenPresent_str s _ Hne).
      destruct (Nat.ltb_spec (String.length s) (default 6 (minLength ad))) as [Hm | Hm].
      * assert (Ht : forall x, truthy ("Password" +:+ x) = true) by reflexivity.
        rewrite Ht. split; [discriminate |].
        intros (s' & E & _ & Hm'). injection E as <-. lia.
      * destruct (Nat.ltb_spec (String.length s) 8) as [H8 | H8].
        -- cbn. split; [discriminate |].
           intros (s' & E & H8' & _). injection E as <-. lia.
        -- split; [| reflexivity]. intros _. exists s. auto.
  - intros s pw [H6 H8]. unfold validateField.
    cbn [lookupRules validationRules String.eqb Ascii.eqb Bool.eqb].
    cbn [firstError callRule required minLengthRule String.eqb Ascii.eqb Bool.eqb
         minLength].
    change (default 6 (Some 6)) with 6.
    assert (Hne : s <> "") by (destruct s; [cbn in H6; lia | discriminate]).
    assert (Hf : falsy (JsStr s) = false) by (apply falsy_spec; eauto).
    rewrite Hf, !(whenPresent_str s _ Hne).
    destruct (Nat.ltb_spec (String.length s) 6) as [? | _]; [lia |].
    destruct (Nat.ltb_spec (String.length s) 8) as [_ | ?]; [| lia].
    reflexivity.
Qed.


(** X29. What the two format rules accept. An email passes exactly when
    it reads [a@b.c] with [a], [b] and [c] non-empty and free of white
    space and of [@]. A full name passes exactly when it is non-empty,
    reaches the [minLength] passed in (2 by default) and consists of
    ASCII letters, white space, apostrophes and hyphens. *)
Theorem accepted_formats (value : JsVal) (ad : AdditionalData) :
  (validateField "email" value ad = None <->
   exists a b c,
     value = JsStr (a +:+ "@" +:+ b +:+ "." +:+ c) /\ word a /\ word b /\ word c) /\
  (validateField "fullName" value ad = None <->
   exists s,
     value = JsStr s /\ s <> "" /\ default 2 (minLength ad) <= String.length s /\
     all nameChar s = true).
Proof.
  split.
  - unfold validateField. cbn [lookupRules validationRules String.eqb Ascii.eqb Bool.eqb].
    cbn [firstError callRule required].
    destruct (falsy value) eqn:Hf.
    + cbn. split; [discriminate |].
      intros (a & b & c & -> & [Ha _] & _). cbn in Hf.
      destruct a; [contradiction | discriminate].
    + apply falsy_spec in Hf as (s & -> & Hne).
      rewrite (whenPresent_str s _ Hne).
      destruct (test emailRegex s) eqn:Ht; cbn.
      * split; [| reflexivity]. intros _.
        apply test_spec, emailRegex_spec in Ht as (a & b & c & -> & H).
        exists a, b, c. auto.
      * split; [discriminate |].
        intros (a & b & c & E & H). injection E as ->.
        apply test_false in Ht. destruct Ht. apply emailRegex_spec. eauto.
  - unfold validateField. cbn [lookupRules validationRules String.eqb Ascii.eqb Bool.eqb].
    cbn [firstError callRule required minLengthRule String.eqb Ascii.eqb Bool.eqb].
    destruct (falsy value) eqn:Hf.
    + cbn. split; [discriminate |].
      intros (s & -> & Hne & _). cbn in Hf. destruct s; [contradiction | discriminate].
    + apply falsy_spec in Hf as (s & -> & Hne).
      rewrite !(whenPresent_str s _ Hne).
      destruct (Nat.ltb_spec (String.length s) (default 2 (minLength ad))) as [Hm | Hm].
      * assert (Ht : forall x, truthy ("Full name" +:+ x) = true) by reflexivity.
        rewrite Ht. split; [discriminate |].
        intros (s' & E & _ & Hm' & _). injection E as <-. lia.
      * destruct (test nameRegex s) eqn:Ht; cbn.
        -- split; [| reflexivity]. intros _.
           apply test_spec, plus_class in Ht as [_ Ha]. exists s. auto.
        -- split; [discriminate |].
           intros (s' & E & _ & _ & Ha). injection E as <-.
           apply test_false in Ht. destruct Ht. apply plus_class. auto.
Qed.

Lemma validateForm_fold formData fields f : forall acc,
  fold_left (checkField formData) fields acc !! f =
  match validateField f (field formData f) (additionalDataFor formData f) with
  | Some e => if bool_decide (f ∈ fields) then Some e else acc !! f
  | None => acc !! f
  end.
Proof.
  induction fields as [| g fields IH]; intros acc; cbn [fold_left].
  - destruct (validateField f _ _); reflexivity.
  - rewrite IH. clear IH.
    destruct (validateField f (field formData f) (additionalDataFor formData f))
      as [e |] eqn:Hf.
    + destruct (decide (f ∈ fields)) as [Hin | Hout].
      * rewrite !bool_decide_eq_true_2; [reflexivity | | exact Hin].
        apply elem_of_cons. auto.
      * rewrite (bool_decide_eq_false_2 _ Hout).
        destruct (decide (f = g)) as [<- | Hfg].
        -- rewrite bool_decide_eq_true_2 by (apply elem_of_cons; auto).
           unfold checkField.
           rewrite Hf, (validateField_truthy _ _ _ _ Hf). apply lookup_insert_eq.
        -- rewrite bool_decide_eq_false_2
             by (intros H; apply elem_of_cons in H as [? | ?]; contradiction).
           unfold checkField.
           destruct (validateField g _ _) as [e' |]; [| reflexivity].
           destruct (truthy e'); [| reflexivity].
           apply lookup_insert_ne. congruence.
    + unfold checkField.
      destruct (validateField g (field formData g) (additionalDataFor formData g))
        as [e' |] eqn:Hg; [| reflexivity].
      destruct (truthy e'); [| reflexivity].
      apply lookup_insert_ne. intros <-. congruence.
Qed.

(** X30. [validateForm] reports under each listed field name the error
    [validateField] gives for it, and nothing for other names; listing a
    field twice changes nothing. The result is empty exactly when every
    listed field is valid, and the confirmation is free of errors
    exactly when it is a non-empty string equal to the password. *)
Theorem form_errors (formData : gmap string JsVal) (fieldsToValidate : list string) :
  (forall f,
     validateForm formData fieldsToValidate !! f =
       if bool_decide (f ∈ fieldsToValidate)
       then validateField f (field formData f) (additionalDataFor formData f)
       else None) /\
  (validateForm formData fieldsToValidate = ∅ <->
   Forall (fun f => validateField f (field formData f)
                      (additionalDataFor formData f) = None) fieldsToValidate) /\
  ("confirmPassword" ∈ fieldsToValidate ->
   (validateForm formData fieldsToValidate !! "confirmPassword" = None <->
    exists s, s <> "" /\ formData !! "confirmPassword" = Some (JsStr s) /\
              formData !! "password" = Some (JsStr s))).
Proof.
  assert (Hl : forall f,
     validateForm formData fieldsToValidate !! f =
       if bool_decide (f ∈ fieldsToValidate)
       then validateField f (field formData f) (additionalDataFor formData f)
       else None).
  { intros f. unfold validateForm. rewrite validateForm_fold, lookup_empty.
    destruct (validateField f _ _), (bool_decide (f ∈ fieldsToValidate)); reflexivity. }
  split; [exact Hl |]. split.
  - rewrite Forall_forall. split.
    + intros He f Hin. specialize (Hl f). rewrite He, lookup_empty in Hl.
      rewrite bool_decide_eq_true_2 in Hl by exact Hin. auto.
    + intros Hall. apply map_eq. intros f. rewrite Hl, lookup_empty.
      destruct (decide (f ∈ fieldsToValidate)) as [Hin | Hout].
      * rewrite bool_decide_eq_true_2 by exact Hin. apply Hall, Hin.
      * rewrite bool_decide_eq_false_2 by exact Hout. reflexivity.
  - intros Hin. rewrite Hl, bool_decide_eq_true_2 by exact Hin.
    unfold validateField.
    cbn [lookupRules validationRules String.eqb Ascii.eqb Bool.eqb].
    cbn [firstError callRule required String.eqb Ascii.eqb Bool.eqb
         additionalDataFor originalPassword].
    unfold field.
    destruct (formData !! "confirmPassword") as [v |] eqn:Hv; cbn [from_option id].
    2: { cbn. split; [discriminate | intros (s & _ & H & _); discriminate]. }
    destruct (falsy v) eqn:Hf.
    + cbn. split; [discriminate |].
      intros (s & Hne & E & _). injection E as ->. cbn in Hf.
      destruct s; [contradiction | discriminate].
    + apply falsy_spec in Hf as (s & -> & Hne).
      rewrite (whenPresent_str s _ Hne).
      destruct (formData !! "password") as [[| | p] |] eqn:Hp; cbn [from_option id].
      * cbn. split; [discriminate | intros (s' & _ & _ & H); discriminate].
      * cbn. split; [discriminate | intros (s' & _ & _ & H); discriminate].
      * destruct (String.eqb_spec s p) as [-> | Hsp].
        -- split; [| reflexivity]. intros _. exists p. auto.
        -- cbn. split; [discriminate |].
           intros (s' & _ & E1 & E2). congruence.
      * cbn. split; [discriminate | intros (s' & _ & _ & H); discriminate].
Qed.

End ValidationFacts.
